(** * todo-backend: the request handlers and the reclamation sweep

    A shallow embedding of [src/server.js] (the Express handlers and the
    error middleware), [src/errors.js] (the [ClientError] class) and
    [src/database.js] (the schema created by [init] and the [purge] job),
    with the storage engine reduced to five tables of rows.

    Conventions.
    - Identifiers ([BIGINT UNSIGNED], rendered as decimal strings on the
      JavaScript side) and instants (at the resolution of the [DATETIME]
      column) are numbers of type [N].
    - A JSON request body is an association list from keys to string
      values; [Object.keys(body).length] is its length.  A key names a
      column when it is spelled as in the schema.
    - An [async] function is a state transformer over a [World] that
      either fulfils with a value or rejects with a thrown [Exception].
    - Request handlers run one at a time against an available storage
      engine: there a statement fails only on a malformed [SET] list, on
      a value its column refuses or on a constraint violation.  Outages
      are injected in the sweep only.
    - [route] of [util.js] hands a connection to a handler and answers
      the request; it is not modelled.  A handler that returns is a
      success, and what it throws goes to the error middleware.
    - Strings are sequences of characters, and the width of a column
      counts characters.
    - The schema fixes neither the SQL mode, nor the collation of the text
      columns, nor the version of the server, and takes the widths of
      [password] and [salt] from [crypto.js]: these are the fields of an
      [Engine], over which every statement is defined.
    - A statement that fails leaves the tables and the counters as they
      were. *)

From Stdlib Require Import List String Ascii NArith Bool Lia.
From Stdlib Require Import Sorted Permutation.
Import ListNotations.
Local Open Scope string_scope.
Local Open Scope list_scope.
Local Open Scope N_scope.

(** ** Data model: the tables of [database.init] *)

Definition Id := N.
Definition Instant := N.

(** [role ENUM('owner', 'write', 'read')] *)
Inductive Role : Type := owner | write | read.

(** [state ENUM('in-progress', 'complete', 'canceled')] *)
Inductive ItemState : Type :=
| in_progress
| complete
| canceled
  (** the empty error value a non-strict server stores for a string that
      is no member *)
| no_state.

Record UserRow : Type := mkUser {
  user_id : Id;
  firstName : option string;
  lastName : option string;
  username : string;
  password : string;
  salt : string }.

Record SessionRow : Type := mkSession {
  session_id : Id;
  session_userId : Id;
  expirationDate : Instant }.

Record ListRow : Type := mkList {
  list_id : Id;
  list_name : string }.

Record ItemRow : Type := mkItem {
  item_id : Id;
  item_listId : Id;
  item_name : string;
  description : option string;
  state : ItemState }.

(** [userId] is the one nullable key column: a row with [None] grants the
    role to the anonymous identity. *)
Record PermissionRow : Type := mkPermission {
  permission_id : Id;
  permission_userId : option Id;
  permission_listId : Id;
  role : Role }.

(** The five tables with their [AUTO_INCREMENT] counters. *)
Record Database : Type := mkDatabase {
  users : list UserRow;
  sessions : list SessionRow;
  lists : list ListRow;
  items : list ItemRow;
  permissions : list PermissionRow;
  next_user : Id;
  next_session : Id;
  next_list : Id;
  next_item : Id;
  next_permission : Id }.

(** The state [init] leaves behind on a fresh server. *)
Definition init : Database :=
  mkDatabase [] [] [] [] [] 1 1 1 1 1.

(** SQL comparison [column = ?] of a non-null column with a parameter that
    may be [NULL]: never true against [NULL]. *)
Definition sql_eq (column : Id) (param : option Id) : bool :=
  match param with
  | Some v => column =? v
  | None => false
  end.

(** The null-safe match on the nullable column, as [GET /lists] writes it:
    [IF(? IS NOT NULL, userId = ?, userId IS NULL)]. *)
Definition same_user (column param : option Id) : bool :=
  match column, param with
  | Some a, Some b => a =? b
  | None, None => true
  | _, _ => false
  end.

(** ** JSON objects *)

Definition Body := list (string * string).

Fixpoint get (k : string) (b : Body) : option string :=
  match b with
  | [] => None
  | (k', v) :: b' => if String.eqb k k' then Some v else get k b'
  end.

(** [body[k] = v] *)
Fixpoint set_key (k v : string) (b : Body) : Body :=
  match b with
  | [] => [(k, v)]
  | (k', v') :: b' =>
      if String.eqb k k' then (k, v) :: b' else (k', v') :: set_key k v b'
  end.

Definition has_key (k : string) (b : Body) : bool :=
  match get k b with Some _ => true | None => false end.

Definition keys_within (columns : list string) (b : Body) : bool :=
  forallb (fun kv => existsb (String.eqb (fst kv)) columns) b.

(** ** Thrown values *)

(** [errors.js]: [status] defaults to 400; [headers] is never passed by the
    handlers and is left out. *)
Record ClientError : Type := mkClientError {
  status : N;
  code : string;
  message : string;
  data : option string }.

Definition clientError (code message : string) : ClientError :=
  mkClientError 400 code message None.

(** The failures of [db.query] that the modelled statements can meet. *)
Inductive SqlError : Type :=
| ER_DUP_ENTRY
| ER_NO_REFERENCED_ROW
| ER_BAD_NULL_ERROR
| ER_NO_DEFAULT_FOR_FIELD
| ER_BAD_FIELD_ERROR
| ER_PARSE_ERROR
| ER_DATA_TRUNCATED
| ER_DATA_TOO_LONG
| ER_TRUNCATED_WRONG_VALUE_FOR_FIELD
| ER_SERVER_GONE.

Inductive Exception : Type :=
| Client (e : ClientError)
| Sql (e : SqlError)
| JsError (msg : string).

(** ** The world an [async] function acts on *)

(** The statements of the source, as they appear in the journal of issued
    queries. *)
Inductive Statement : Type :=
| INSERT_users | SELECT_users | UPDATE_users | DELETE_users
| INSERT_sessions | DELETE_sessions
| INSERT_lists | UPDATE_lists | DELETE_lists
| INSERT_permissions | UPSERT_permissions | DELETE_permissions
| INSERT_items | SELECT_items | UPDATE_items | DELETE_items
| DELETE_expired_sessions | DELETE_orphaned_lists.

Inductive LogLine : Type :=
| PurgedSessions (n : N)
| PurgedLists (n : N)
| ConsoleError (e : Exception).

Record World : Type := mkWorld {
  db : Database;
  journal : list Statement;
  console : list LogLine;
  leased : N }.

Definition boot (d : Database) : World := mkWorld d [] [] 0.

Definition Task (A : Type) : Type := World -> (Exception + A) * World.

Definition ret {A} (a : A) : Task A := fun w => (inr a, w).

Definition throw {A} (e : Exception) : Task A := fun w => (inl e, w).

Definition bind {A B} (m : Task A) (k : A -> Task B) : Task B :=
  fun w =>
    match m w with
    | (inr a, w') => k a w'
    | (inl e, w') => (inl e, w')
    end.

Notation "'let*' x ':=' m 'in' k" := (bind m (fun x => k))
  (at level 10, x pattern, m at level 100, k at level 200).

(** [try { m } catch (err) { handler(err) }] *)
Definition try_catch {A} (m : Task A) (handler : Exception -> Task A) : Task A :=
  fun w =>
    match m w with
    | (inl e, w') => handler e w'
    | r => r
    end.

(** [try { m } finally { cleanup }]: the cleanup always runs; a throw of
    the cleanup replaces the outcome of the body. *)
Definition try_finally {A} (m : Task A) (cleanup : Task unit) : Task A :=
  fun w =>
    match m w with
    | (r, w') =>
        match cleanup w' with
        | (inr _, w'') => (r, w'')
        | (inl e, w'') => (inl e, w'')
        end
    end.

(** A result of a validator or of a helper, awaited. *)
Definition await {A} (r : Exception + A) : Task A := fun w => (r, w).

(** [await db.query(...)]: the statement is journalled, then run; a failed
    statement leaves every table as it was.  [down] is the outage switch
    of the sweep. *)
Definition query_on {A} (down : bool) (s : Statement)
    (run : Database -> SqlError + (A * Database)) : Task A :=
  fun w =>
    let w1 := mkWorld (db w) (journal w ++ [s]) (console w) (leased w) in
    if down then (inl (Sql ER_SERVER_GONE), w1)
    else match run (db w) with
         | inl e => (inl (Sql e), w1)
         | inr (a, d) =>
             (inr a, mkWorld d (journal w ++ [s]) (console w) (leased w))
         end.

Definition query {A} (s : Statement)
    (run : Database -> SqlError + (A * Database)) : Task A :=
  query_on false s run.

Definition console_log (l : LogLine) : Task unit :=
  fun w => (inr tt, mkWorld (db w) (journal w) (console w ++ [l]) (leased w)).

(** The packet mysql2 returns for a write.  The driver connects with
    [FOUND_ROWS], so [affectedRows] of an [UPDATE] counts the rows the
    [WHERE] clause matched. *)
Record OkPacket : Type := mkOk {
  insertId : Id;
  affectedRows : N }.

Definition count {A} (f : A -> bool) (l : list A) : N :=
  N.of_nat (List.length (filter f l)).

Definition mem_id (i : Id) (l : list Id) : bool := existsb (N.eqb i) l.

(** ** The storage engine

    What the schema of [init] leaves to the MySQL server and to
    [crypto.js]: the schema names no SQL mode, no character set and no
    collation, and takes the widths of the two [BINARY] columns from
    [keySize] and [saltSize]. *)
Record Engine : Type := mkEngine {
  (** Strict SQL mode: a value that does not fit its column is refused
      instead of being adjusted. *)
  strict : bool;
  (** The collation of the text columns: two strings are equal in a
      comparison or under a [UNIQUE] index when their weights are. *)
  weight : string -> string;
  (** The number the server reads in a value given for a [BIGINT UNSIGNED]
      column, if it accepts the value. *)
  to_id : string -> option Id;
  (** The member of [ENUM('in-progress', 'complete', 'canceled')] the
      server reads in a string that is none of the three (one that equals
      a member under the collation, or the index of one), if any. *)
  reads_state : string -> option ItemState;
  (** An [UPDATE] that puts an id past the [AUTO_INCREMENT] counter moves
      the counter (MySQL 8.0 does, earlier versions do not). *)
  persists_counter : bool;
  key_size : nat;
  salt_size : nat }.

Notation "'let+' x ':=' e 'in' k" :=
  (match e with inl err => inl err | inr x => k end)
  (at level 10, x pattern, e at level 100, k at level 200).

Fixpoint blank (s : string) : bool :=
  match s with
  | EmptyString => true
  | String c s' => Ascii.eqb c " "%char && blank s'
  end.

Fixpoint zeros (n : nat) : string :=
  match n with
  | O => EmptyString
  | S n' => String Ascii.zero (zeros n')
  end.

Definition fits (n : nat) (v : string) : bool := Nat.leb (String.length v) n.

(** A value stored in a [VARCHAR(n)] column.  Excess trailing spaces
    are cut in every SQL mode; other excess characters are cut in
    non-strict mode and refused in strict mode. *)
Definition varchar (g : Engine) (n : nat) (v : string) : SqlError + string :=
  if fits n v then inr v
  else if strict g && negb (blank (substring n (String.length v - n)%nat v))
       then inl ER_DATA_TOO_LONG
       else inr (substring 0 n v).

(** A value stored in a [BINARY(n)] column: a shorter value is padded
    with zero bytes on the right. *)
Definition binary (g : Engine) (n : nat) (v : string) : SqlError + string :=
  if fits n v then inr (v ++ zeros (n - String.length v)%nat)%string
  else if strict g then inl ER_DATA_TOO_LONG
       else inr (substring 0 n v).

(** A value given for a [BIGINT UNSIGNED] column. *)
Definition integer (g : Engine) (v : string) : SqlError + Id :=
  match to_id g v with
  | Some i => inr i
  | None => inl ER_TRUNCATED_WRONG_VALUE_FOR_FIELD
  end.

(** [body.state] as the handlers compare it with the members of the
    [ENUM] column [state]. *)
Definition state_of_string (s : string) : option ItemState :=
  if String.eqb s "in-progress" then Some in_progress
  else if String.eqb s "complete" then Some complete
  else if String.eqb s "canceled" then Some canceled
  else None.

(** A value given for the [ENUM] column [state].  For a string that is
    no member, strict mode refuses the row and non-strict mode stores
    the empty error value. *)
Definition enum_state (g : Engine) (v : string) : SqlError + ItemState :=
  match state_of_string v with
  | Some st => inr st
  | None =>
      match reads_state g v with
      | Some st => inr st
      | None => if strict g then inl ER_DATA_TRUNCATED else inr no_state
      end
  end.

(** The assignment of a key of [SET ?], when the object has the key. *)
Definition assigned {A} (store : string -> SqlError + A) (given : option string)
    : SqlError + option A :=
  match given with
  | None => inr None
  | Some v => let+ a := store v in inr (Some a)
  end.

(** A [NOT NULL] text column without a default in an [INSERT]: when the
    object lacks the key, strict mode refuses the row and non-strict mode
    stores the empty string. *)
Definition not_null (g : Engine) (store : string -> SqlError + string)
    (given : option string) : SqlError + string :=
  match given with
  | Some v => store v
  | None => if strict g then inl ER_NO_DEFAULT_FOR_FIELD else store EmptyString
  end.

(** The id of an inserted row: the value given for [id], or the counter
    when none or [0] is given. *)
Definition new_id (g : Engine) (given : option string) (counter : Id)
    : SqlError + Id :=
  match given with
  | None => inr counter
  | Some v => let+ i := integer g v in inr (if i =? 0 then counter else i)
  end.

(** The counter after a row received the id [i]. *)
Definition past (counter i : Id) : Id := N.max counter (i + 1).

(** The counter after an [UPDATE] assigned the id [i], or none. *)
Definition moved (g : Engine) (counter : Id) (i : option Id) : Id :=
  match i with
  | Some i' => if persists_counter g then past counter i' else counter
  | None => counter
  end.

Definition no_keys (b : Body) : bool :=
  match b with [] => true | _ => false end.

Definition or_else {A} (o : option A) (a : option A) : option A :=
  match o with Some v => Some v | None => a end.

Definition or_keep {A} (o : option A) (a : A) : A :=
  match o with Some v => v | None => a end.

Definition single {A} (l : list A) : bool :=
  match l with [] | [_] => true | _ => false end.

(** An [UPDATE] of the rows selected by [hit] that assigns [v] to a
    unique column: the value cannot go to two rows, and must not be that
    of a row the statement leaves alone. *)
Definition clash {A K} (same : K -> K -> bool) (column : A -> K)
    (v : option K) (hit : A -> bool) (l : list A) : bool :=
  match v with
  | Some v' =>
      negb (single (filter hit l))
      || existsb (fun r => same (column r) v')
           (filter (fun r => negb (hit r)) l)
  | None => false
  end.

(** The table after [ON UPDATE CASCADE], when the referenced id was
    assigned. *)
Definition cascade {A} (renumber : Id -> list A -> list A) (i : option Id)
    (l : list A) : list A :=
  match i with
  | Some i' => renumber i' l
  | None => l
  end.

(** ** The statements

    Each statement is a function from the tables to an error or to its
    result and the new tables.  [SET ?] spreads the keys of a JavaScript
    object into column assignments: every column of the table can be
    assigned, the primary key and the foreign keys among them, and a key
    that is no column is refused.  When several values of one statement
    are refused, the error is that of the first in the order of the
    columns; the handlers treat all of them alike.  A failed statement
    leaves the tables and the counters as they were. *)

Definition with_users (d : Database) (v : list UserRow) : Database :=
  mkDatabase v (sessions d) (lists d) (items d) (permissions d)
    (next_user d) (next_session d) (next_list d) (next_item d) (next_permission d).

Definition with_sessions (d : Database) (v : list SessionRow) : Database :=
  mkDatabase (users d) v (lists d) (items d) (permissions d)
    (next_user d) (next_session d) (next_list d) (next_item d) (next_permission d).

Definition with_lists (d : Database) (v : list ListRow) : Database :=
  mkDatabase (users d) (sessions d) v (items d) (permissions d)
    (next_user d) (next_session d) (next_list d) (next_item d) (next_permission d).

Definition with_items (d : Database) (v : list ItemRow) : Database :=
  mkDatabase (users d) (sessions d) (lists d) v (permissions d)
    (next_user d) (next_session d) (next_list d) (next_item d) (next_permission d).

Definition with_permissions (d : Database) (v : list PermissionRow) : Database :=
  mkDatabase (users d) (sessions d) (lists d) (items d) v
    (next_user d) (next_session d) (next_list d) (next_item d) (next_permission d).

Definition user_exists (d : Database) (i : Id) : bool :=
  existsb (fun r => user_id r =? i) (users d).

Definition list_exists (d : Database) (i : Id) : bool :=
  existsb (fun r => list_id r =? i) (lists d).

Definition item_exists (d : Database) (i : Id) : bool :=
  existsb (fun r => item_id r =? i) (items d).

(** Equality of usernames under the collation. *)
Definition same_name (g : Engine) (a b : string) : bool :=
  String.eqb (weight g a) (weight g b).

(** [UNIQUE(username)]: a row whose username equals [name] under the
    collation. *)
Definition name_used (g : Engine) (name : string) (l : list UserRow) : bool :=
  existsb (fun r => same_name g (username r) name) l.

Definition user_columns : list string :=
  ["id"; "firstName"; "lastName"; "username"; "password"; "salt"].

Definition list_columns : list string := ["id"; "name"].

Definition item_columns : list string :=
  ["id"; "listId"; "name"; "description"; "state"].

(** [INSERT INTO todo.users SET ?] *)
Definition insert_user (g : Engine) (b : Body) (d : Database)
    : SqlError + (OkPacket * Database) :=
  if no_keys b then inl ER_PARSE_ERROR
  else if negb (keys_within user_columns b) then inl ER_BAD_FIELD_ERROR
  else
    let+ i := new_id g (get "id" b) (next_user d) in
    let+ f := assigned (varchar g 255) (get "firstName" b) in
    let+ l := assigned (varchar g 255) (get "lastName" b) in
    let+ u := not_null g (varchar g 255) (get "username" b) in
    let+ p := not_null g (binary g (key_size g)) (get "password" b) in
    let+ s := not_null g (binary g (salt_size g)) (get "salt" b) in
    if user_exists d i || name_used g u (users d) then inl ER_DUP_ENTRY
    else
      inr (mkOk i 1,
           mkDatabase (users d ++ [mkUser i f l u p s]) (sessions d) (lists d)
             (items d) (permissions d) (past (next_user d) i) (next_session d)
             (next_list d) (next_item d) (next_permission d)).

(** The columns of [SELECT id, firstName, lastName, username]. *)
Record UserView : Type := mkUserView {
  view_id : Id;
  view_firstName : option string;
  view_lastName : option string;
  view_username : string }.

(** [SELECT id, firstName, lastName, username FROM todo.users WHERE id = ?] *)
Definition select_user (uid : option Id) (d : Database)
    : SqlError + (list UserView * Database) :=
  inr (map (fun r => mkUserView (user_id r) (firstName r) (lastName r) (username r))
         (filter (fun r => sql_eq (user_id r) uid) (users d)), d).

(** [ON UPDATE CASCADE] of [todo.sessions.userId] and
    [todo.permissions.userId]. *)
Definition sessions_of_renumbered (old new : Id) (l : list SessionRow)
    : list SessionRow :=
  map (fun s => if session_userId s =? old
                then mkSession (session_id s) new (expirationDate s) else s) l.

Definition permissions_of_renumbered (old new : Id) (l : list PermissionRow)
    : list PermissionRow :=
  map (fun p => if same_user (permission_userId p) (Some old)
                then mkPermission (permission_id p) (Some new)
                       (permission_listId p) (role p)
                else p) l.

(** The row an [UPDATE todo.users] leaves: the columns assigned take the
    new values. *)
Definition patch_user (i : option Id) (f l : option string)
    (u p s : option string) (r : UserRow) : UserRow :=
  mkUser (or_keep i (user_id r)) (or_else f (firstName r))
    (or_else l (lastName r)) (or_keep u (username r))
    (or_keep p (password r)) (or_keep s (salt r)).

(** [UPDATE todo.users SET ? WHERE id = ?].  The values are stored row by
    row: without a matching row none is looked at.  A new id or username
    must not meet that of another row; a new id goes to the sessions and
    the permissions of the user. *)
Definition update_user (g : Engine) (b : Body) (uid : option Id) (d : Database)
    : SqlError + (OkPacket * Database) :=
  if no_keys b then inl ER_PARSE_ERROR
  else if negb (keys_within user_columns b) then inl ER_BAD_FIELD_ERROR
  else
    let hit r := sql_eq (user_id r) uid in
    match uid, filter hit (users d) with
    | Some old, _ :: _ =>
        let+ i := assigned (integer g) (get "id" b) in
        let+ f := assigned (varchar g 255) (get "firstName" b) in
        let+ l := assigned (varchar g 255) (get "lastName" b) in
        let+ u := assigned (varchar g 255) (get "username" b) in
        let+ p := assigned (binary g (key_size g)) (get "password" b) in
        let+ s := assigned (binary g (salt_size g)) (get "salt" b) in
        if clash N.eqb user_id i hit (users d)
           || clash (same_name g) username u hit (users d)
        then inl ER_DUP_ENTRY
        else
          inr (mkOk 0 (count hit (users d)),
               mkDatabase
                 (map (fun r => if hit r then patch_user i f l u p s r else r)
                    (users d))
                 (cascade (sessions_of_renumbered old) i (sessions d))
                 (lists d) (items d)
                 (cascade (permissions_of_renumbered old) i (permissions d))
                 (moved g (next_user d) i) (next_session d) (next_list d)
                 (next_item d) (next_permission d))
    | _, _ => inr (mkOk 0 0, d)
    end.

(** [DELETE FROM todo.users WHERE id = ?]; sessions and permissions of a
    deleted user go with it ([ON DELETE CASCADE]). *)
Definition delete_user (uid : option Id) (d : Database)
    : SqlError + (OkPacket * Database) :=
  let hit r := sql_eq (user_id r) uid in
  let gone := map user_id (filter hit (users d)) in
  inr (mkOk 0 (count hit (users d)),
       mkDatabase (filter (fun r => negb (hit r)) (users d))
         (filter (fun s => negb (mem_id (session_userId s) gone)) (sessions d))
         (lists d) (items d)
         (filter (fun p => match permission_userId p with
                           | Some u => negb (mem_id u gone)
                           | None => true
                           end) (permissions d))
         (next_user d) (next_session d) (next_list d) (next_item d)
         (next_permission d)).

(** [INSERT INTO todo.sessions(userId, expirationDate) VALUES (?, ?)];
    [userId] is [NOT NULL] and references [todo.users]. *)
Definition insert_session (uid : option Id) (expireTime : Instant) (d : Database)
    : SqlError + (OkPacket * Database) :=
  match uid with
  | None => inl ER_BAD_NULL_ERROR
  | Some u =>
      if user_exists d u
      then inr (mkOk (next_session d) 1,
                mkDatabase (users d)
                  (sessions d ++ [mkSession (next_session d) u expireTime])
                  (lists d) (items d) (permissions d) (next_user d)
                  (next_session d + 1) (next_list d) (next_item d)
                  (next_permission d))
      else inl ER_NO_REFERENCED_ROW
  end.

(** [DELETE FROM todo.sessions WHERE id = ?] *)
Definition delete_session (sid : option Id) (d : Database)
    : SqlError + (OkPacket * Database) :=
  let hit s := sql_eq (session_id s) sid in
  inr (mkOk 0 (count hit (sessions d)),
       with_sessions d (filter (fun s => negb (hit s)) (sessions d))).

(** [INSERT INTO todo.lists SET ?] *)
Definition insert_list (g : Engine) (b : Body) (d : Database)
    : SqlError + (OkPacket * Database) :=
  if no_keys b then inl ER_PARSE_ERROR
  else if negb (keys_within list_columns b) then inl ER_BAD_FIELD_ERROR
  else
    let+ i := new_id g (get "id" b) (next_list d) in
    let+ n := not_null g (varchar g 255) (get "name" b) in
    if list_exists d i then inl ER_DUP_ENTRY
    else
      inr (mkOk i 1,
           mkDatabase (users d) (sessions d) (lists d ++ [mkList i n])
             (items d) (permissions d) (next_user d) (next_session d)
             (past (next_list d) i) (next_item d) (next_permission d)).

(** [ON UPDATE CASCADE] of [todo.items.listId] and
    [todo.permissions.listId]. *)
Definition items_of_renumbered (old new : Id) (l : list ItemRow)
    : list ItemRow :=
  map (fun i => if item_listId i =? old
                then mkItem (item_id i) new (item_name i) (description i)
                       (state i)
                else i) l.

Definition permissions_of_relisted (old new : Id) (l : list PermissionRow)
    : list PermissionRow :=
  map (fun p => if permission_listId p =? old
                then mkPermission (permission_id p) (permission_userId p) new
                       (role p)
                else p) l.

(** [UPDATE todo.lists SET ? WHERE id = ?].  A new id must not meet that
    of another list; it goes to the items and the permissions of the
    list, where the foreign keys leave no row under the new id for the
    cascade to meet. *)
Definition update_list (g : Engine) (b : Body) (lid : Id) (d : Database)
    : SqlError + (OkPacket * Database) :=
  if no_keys b then inl ER_PARSE_ERROR
  else if negb (keys_within list_columns b) then inl ER_BAD_FIELD_ERROR
  else
    let hit r := list_id r =? lid in
    match filter hit (lists d) with
    | [] => inr (mkOk 0 0, d)
    | _ :: _ =>
        let+ i := assigned (integer g) (get "id" b) in
        let+ n := assigned (varchar g 255) (get "name" b) in
        if clash N.eqb list_id i hit (lists d) then inl ER_DUP_ENTRY
        else
          inr (mkOk 0 (count hit (lists d)),
               mkDatabase (users d) (sessions d)
                 (map (fun r => if hit r
                                then mkList (or_keep i (list_id r))
                                       (or_keep n (list_name r))
                                else r) (lists d))
                 (cascade (items_of_renumbered lid) i (items d))
                 (cascade (permissions_of_relisted lid) i (permissions d))
                 (next_user d) (next_session d) (moved g (next_list d) i)
                 (next_item d) (next_permission d))
    end.

(** Removal of the lists selected by [hit], with the items and the
    permissions that reference a removed list ([ON DELETE CASCADE]). *)
Definition drop_lists (hit : ListRow -> bool) (d : Database)
    : OkPacket * Database :=
  let gone := map list_id (filter hit (lists d)) in
  (mkOk 0 (count hit (lists d)),
   mkDatabase (users d) (sessions d)
     (filter (fun r => negb (hit r)) (lists d))
     (filter (fun i => negb (mem_id (item_listId i) gone)) (items d))
     (filter (fun p => negb (mem_id (permission_listId p) gone)) (permissions d))
     (next_user d) (next_session d) (next_list d) (next_item d)
     (next_permission d)).

(** [DELETE FROM todo.lists WHERE id = ?] *)
Definition delete_list (lid : Id) (d : Database)
    : SqlError + (OkPacket * Database) :=
  inr (drop_lists (fun r => list_id r =? lid) d).

(** The key of [UNIQUE(userId, listId)]. *)
Definition holds (uid : option Id) (lid : Id) (p : PermissionRow) : bool :=
  same_user (permission_userId p) uid && (permission_listId p =? lid).

(** A [UNIQUE] index never reports a duplicate on a key with a [NULL]
    column: two rows [(NULL, l)] do not collide. *)
Definition collides (uid : option Id) (lid : Id) (p : PermissionRow) : bool :=
  match uid with
  | Some _ => holds uid lid p
  | None => false
  end.

(** The foreign keys of a permission row: [userId], when not [NULL],
    references [todo.users]; [listId] references [todo.lists]. *)
Definition permission_refs_ok (uid : option Id) (lid : Id) (d : Database) : bool :=
  match uid with
  | Some u => user_exists d u
  | None => true
  end && list_exists d lid.

Definition add_permission (uid : option Id) (lid : Id) (r : Role) (d : Database)
    : OkPacket * Database :=
  (mkOk (next_permission d) 1,
   mkDatabase (users d) (sessions d) (lists d) (items d)
     (permissions d ++ [mkPermission (next_permission d) uid lid r])
     (next_user d) (next_session d) (next_list d) (next_item d)
     (next_permission d + 1)).

(** [INSERT INTO todo.permissions(userId, listId, role) VALUES (?, ?, 'owner')] *)
Definition insert_permission (uid : option Id) (lid : Id) (r : Role) (d : Database)
    : SqlError + (OkPacket * Database) :=
  if negb (permission_refs_ok uid lid d) then inl ER_NO_REFERENCED_ROW
  else if existsb (collides uid lid) (permissions d) then inl ER_DUP_ENTRY
  else inr (add_permission uid lid r d).

(** The role of the first row that collides with the key is replaced. *)
Fixpoint replace_role (uid : option Id) (lid : Id) (r : Role)
    (l : list PermissionRow) : list PermissionRow :=
  match l with
  | [] => []
  | p :: l' =>
      if collides uid lid p
      then mkPermission (permission_id p) (permission_userId p)
             (permission_listId p) r :: l'
      else p :: replace_role uid lid r l'
  end.

(** [INSERT INTO todo.permissions(userId, listId, role) VALUES (?, ?, ?)
     ON DUPLICATE KEY UPDATE role = VALUES(role)] *)
Definition upsert_permission (uid : option Id) (lid : Id) (r : Role) (d : Database)
    : SqlError + (OkPacket * Database) :=
  if existsb (collides uid lid) (permissions d)
  then inr (mkOk 0 1, with_permissions d (replace_role uid lid r (permissions d)))
  else if negb (permission_refs_ok uid lid d) then inl ER_NO_REFERENCED_ROW
  else inr (add_permission uid lid r d).

(** [DELETE FROM todo.permissions WHERE userId = ? AND listId = ?] *)
Definition delete_permission (uid : option Id) (lid : Id) (d : Database)
    : SqlError + (OkPacket * Database) :=
  let hit p := match permission_userId p with
               | Some u => sql_eq u uid
               | None => false
               end && (permission_listId p =? lid) in
  inr (mkOk 0 (count hit (permissions d)),
       with_permissions d (filter (fun p => negb (hit p)) (permissions d))).

(** [INSERT INTO todo.items SET ?], where [b] is the object without its
    [listId] key, which the handler has assigned the route parameter
    [lid].  [state] has the default ['in-progress']. *)
Definition insert_item (g : Engine) (b : Body) (lid : Id) (d : Database)
    : SqlError + (OkPacket * Database) :=
  if negb (keys_within ["id"; "name"; "description"; "state"] b)
  then inl ER_BAD_FIELD_ERROR
  else
    let+ i := new_id g (get "id" b) (next_item d) in
    let+ n := not_null g (varchar g 255) (get "name" b) in
    let+ t := assigned (varchar g 1024) (get "description" b) in
    let+ s := assigned (enum_state g) (get "state" b) in
    if item_exists d i then inl ER_DUP_ENTRY
    else if negb (list_exists d lid) then inl ER_NO_REFERENCED_ROW
    else
      inr (mkOk i 1,
           mkDatabase (users d) (sessions d) (lists d)
             (items d ++ [mkItem i lid n t (or_keep s in_progress)])
             (permissions d) (next_user d) (next_session d) (next_list d)
             (past (next_item d) i) (next_permission d)).

(** The columns of [SELECT id, name, description, state]. *)
Record ItemView : Type := mkItemView {
  view_item_id : Id;
  view_name : string;
  view_description : option string;
  view_state : ItemState }.

Definition item_view (i : ItemRow) : ItemView :=
  mkItemView (item_id i) (item_name i) (description i) (state i).

(** [WHERE listId = ? AND id = ?] *)
Definition item_hit (lid iid : Id) (i : ItemRow) : bool :=
  (item_listId i =? lid) && (item_id i =? iid).

(** [SELECT id, name, description, state FROM todo.items
     WHERE listId = ? AND id = ?] *)
Definition select_item (lid iid : Id) (d : Database)
    : SqlError + (list ItemView * Database) :=
  inr (map item_view (filter (item_hit lid iid) (items d)), d).

(** The row an [UPDATE todo.items] leaves: the columns assigned take the
    new values. *)
Definition patch_item (i l : option Id) (n : option string)
    (t : option string) (s : option ItemState) (r : ItemRow) : ItemRow :=
  mkItem (or_keep i (item_id r)) (or_keep l (item_listId r))
    (or_keep n (item_name r)) (or_else t (description r))
    (or_keep s (state r)).

(** [UPDATE todo.items SET ? WHERE listId = ? AND id = ?].  A new id
    must not meet that of another item, and a new [listId] must be that
    of a stored list: the row then moves to that list. *)
Definition update_item (g : Engine) (b : Body) (lid iid : Id) (d : Database)
    : SqlError + (OkPacket * Database) :=
  if no_keys b then inl ER_PARSE_ERROR
  else if negb (keys_within item_columns b) then inl ER_BAD_FIELD_ERROR
  else
    let hit := item_hit lid iid in
    match filter hit (items d) with
    | [] => inr (mkOk 0 0, d)
    | _ :: _ =>
        let+ i := assigned (integer g) (get "id" b) in
        let+ l := assigned (integer g) (get "listId" b) in
        let+ n := assigned (varchar g 255) (get "name" b) in
        let+ t := assigned (varchar g 1024) (get "description" b) in
        let+ s := assigned (enum_state g) (get "state" b) in
        if clash N.eqb item_id i hit (items d) then inl ER_DUP_ENTRY
        else if match l with
                | Some l' => negb (list_exists d l')
                | None => false
                end
        then inl ER_NO_REFERENCED_ROW
        else
          inr (mkOk 0 (count hit (items d)),
               mkDatabase (users d) (sessions d) (lists d)
                 (map (fun r => if hit r then patch_item i l n t s r else r)
                    (items d))
                 (permissions d) (next_user d) (next_session d) (next_list d)
                 (moved g (next_item d) i) (next_permission d))
    end.

(** [DELETE FROM todo.items WHERE listId = ? AND id = ?] *)
Definition delete_item (lid iid : Id) (d : Database)
    : SqlError + (OkPacket * Database) :=
  inr (mkOk 0 (count (item_hit lid iid) (items d)),
       with_items d (filter (fun i => negb (item_hit lid iid i)) (items d))).

(** [DELETE FROM todo.sessions WHERE expirationDate < NOW()] *)
Definition delete_expired_sessions (now : Instant) (d : Database)
    : SqlError + (OkPacket * Database) :=
  let hit s := expirationDate s <? now in
  inr (mkOk 0 (count hit (sessions d)),
       with_sessions d (filter (fun s => negb (hit s)) (sessions d))).

(** [id NOT IN (SELECT DISTINCT listId FROM todo.permissions)] *)
Definition orphaned (d : Database) (r : ListRow) : bool :=
  negb (mem_id (list_id r) (map permission_listId (permissions d))).

(** [DELETE FROM todo.lists WHERE id NOT IN
     (SELECT DISTINCT listId FROM todo.permissions)] *)
Definition delete_orphaned_lists (d : Database)
    : SqlError + (OkPacket * Database) :=
  inr (drop_lists (orphaned d) d).

(** ** Requests *)

(** What a handler reads of a request: the bearer credential and the
    username and password pair that [authenticate] looks at, the route
    parameters [:listId], [:userId] and [:itemId], and the JSON body. *)
Record Request : Type := mkRequest {
  bearer : option string;
  login : option (string * string);
  param_listId : Id;
  param_userId : Id;
  param_itemId : Id;
  body : Body }.

(** What a handler draws from its surroundings: [Date.now()] and [NOW()],
    and the bytes [getSalt()] returns. *)
Record Env : Type := mkEnv {
  now : Instant;
  fresh_salt : string }.

(** A template of [jsonValidate]: the keys, each marked when it is wrapped
    in [Optional]. *)
Definition Template := list (string * bool).

(** ** Roles *)

(** Modelled from the spec: the hierarchy owner > write > read, which
    [checkPermissions] of [util.js] (not part of the sources) compares
    roles by. *)
Definition rank (r : Role) : N :=
  match r with owner => 3 | write => 2 | read => 1 end.

(** The role a string of [['owner', 'write', 'read']] names. *)
Definition role_of_string (s : string) : option Role :=
  if String.eqb s "owner" then Some owner
  else if String.eqb s "write" then Some write
  else if String.eqb s "read" then Some read
  else None.

Inductive Access : Type := Granted (r : Role) | Denied.

(** Modelled from the spec: the lookup of the row for (userId, listId),
    with [userId IS NULL] for the anonymous identity. *)
Definition lookup_permission (d : Database) (uid : option Id) (lid : Id)
    : option PermissionRow :=
  find (holds uid lid) (permissions d).

(** Modelled from the spec: [PermissionModel.requireAtLeast], the decision
    inside [checkPermissions] of [util.js], which is not part of the
    sources.  It looks up the row for (userId, listId); if absent, or if
    its role is strictly below [minRole] in the hierarchy, the result is
    Denied; otherwise it returns the role held.  The anonymous identity is
    a lookup key like any other. *)
Definition requireAtLeast (d : Database) (uid : option Id) (lid : Id)
    (minRole : Role) : Access :=
  match lookup_permission d uid lid with
  | None => Denied
  | Some p => if rank (role p) <? rank minRole then Denied else Granted (role p)
  end.

(** Modelled from the spec: Denied as the router answers it, with status
    403; code and message stand for those of [util.js]. *)
Definition Forbidden : Exception :=
  Client (mkClientError 403 "denied" "Permission denied." None).

(** Modelled from the spec: [checkPermissions] of [util.js]; Denied is
    thrown as the client error the router answers with 403. *)
Definition checkPermissions (uid : option Id) (lid : Id) (minRole : Role)
    : Task Role :=
  fun w =>
    match requireAtLeast (db w) uid lid minRole with
    | Granted r => (inr r, w)
    | Denied => (inl Forbidden, w)
    end.

(** ** Identities *)

Inductive Policy : Type := required | optional | credentials.

Record Identity : Type := mkIdentity {
  userId : option Id;
  sessionId : option Id }.

(** Modelled from the spec: the failures of [authenticate] as the router
    answers them, with status 401; codes and messages stand for those of
    [util.js]. *)
Definition Unauthorized : Exception :=
  Client (mkClientError 401 "unauthorized" "Unauthorized." None).

Definition InvalidCredentials : Exception :=
  Client (mkClientError 401 "invalid-credentials" "Invalid credentials." None).

(** Modelled from the spec: [SessionStore.resolve], the session row with
    the given id, expired or not. *)
Definition resolve (d : Database) (sid : Id) : option SessionRow :=
  find (fun s => session_id s =? sid) (sessions d).

(** ** Runs of the server: the actions *)

(** Which storage calls of one run meet an outage. *)
Record Outage : Type := mkOutage {
  pool_down : bool;
  pass1_down : bool;
  pass2_down : bool }.

Definition healthy : Outage := mkOutage false false false.


(** One request to a handler that writes, or one run of the sweep. *)
Inductive Action : Type :=
| PostUser (e : Env) (req : Request)
| PutUser (e : Env) (req : Request)
| DeleteUser (e : Env) (req : Request)
| PostLogin (e : Env) (req : Request)
| PostLogout (e : Env) (req : Request)
| PostList (e : Env) (req : Request)
| PutList (e : Env) (req : Request)
| DeleteList (e : Env) (req : Request)
| PutListUser (e : Env) (req : Request)
| DeleteListUser (e : Env) (req : Request)
| PostItem (e : Env) (req : Request)
| PutItem (e : Env) (req : Request)
| DeleteItem (e : Env) (req : Request)
| Sweep (o : Outage) (t : Instant).

(** ** Stand-ins for the engine and the collaborators

    Simple instances of the storage engine and of the functions the
    handlers take from [crypto.js] and [validation.js], with which the
    handlers run on concrete requests: a strict server of version 8.0
    with a collation that ignores the case of the letters A to Z, keys of
    12 and salts of 4 bytes, a hash that joins salt and password, a token
    that counts in unary, and a validator that keeps the keys of its
    template and refuses a body that lacks a mandatory one. *)

Definition lower (c : Ascii.ascii) : Ascii.ascii :=
  let n := Ascii.N_of_ascii c in
  if (65 <=? n) && (n <=? 90) then Ascii.ascii_of_N (n + 32) else c.

Fixpoint sample_weight (s : string) : string :=
  match s with
  | EmptyString => EmptyString
  | String c s' => String (lower c) (sample_weight s')
  end.

Fixpoint decimal (s : string) (acc : N) : option N :=
  match s with
  | EmptyString => Some acc
  | String c s' =>
      let n := Ascii.N_of_ascii c in
      if (48 <=? n) && (n <=? 57) then decimal s' (10 * acc + (n - 48))
      else None
  end.

Definition sample_to_id (s : string) : option Id :=
  match s with
  | EmptyString => None
  | _ => decimal s 0
  end.

Definition sample_engine : Engine :=
  mkEngine true sample_weight sample_to_id
    (fun v => state_of_string (sample_weight v)) true 12 4.

Definition sample_hash (p s : string) : string := (s ++ ":" ++ p)%string.

Definition sample_encrypt (sid : Id) : string :=
  N.iter sid (fun t => ("t" ++ t)%string) "".

Definition sample_decrypt (t : string) : option Id :=
  Some (N.of_nat (String.length t)).

Fixpoint sample_validate (b : Body) (t : Template) : Exception + Body :=
  match t with
  | [] => inr []
  | (k, opt) :: t' =>
      match sample_validate b t' with
      | inl e => inl e
      | inr rest =>
          match get k b with
          | Some v => inr ((k, v) :: rest)
          | None =>
              if opt then inr rest
              else inl (Client (clientError "invalid-body" k))
          end
      end
  end.

(** A validator that checks the mandatory keys like [sample_validate] and
    hands the body back as it was received, with the keys the template
    does not name. *)
Definition lenient_validate (b : Body) (t : Template) : Exception + Body :=
  match sample_validate b t with
  | inl e => inl e
  | inr _ => inr b
  end.

(** ** A sample history

    Ann (user 1, token [t]) and Bob (user 2, token [tt]) sign up at the
    instants 10 and 11 with a token lifetime of an hour; Ann creates the
    lists 1 and 2, puts the item 1 on list 1 and grants Bob [read] on
    list 1. *)

Definition request (token : option string) (lid uid iid : Id) (b : Body)
    : Request :=
  mkRequest token None lid uid iid b.

Definition at_time (t : Instant) : Env := mkEnv t "salt".

Definition shared_history : list Action :=
  [ PostUser (at_time 10)
      (request None 0 0 0 [("username", "ann"); ("password", "secrets")]);
    PostUser (at_time 11)
      (request None 0 0 0 [("username", "bob"); ("password", "hunter2")]);
    PostList (at_time 12) (request (Some "t") 0 0 0 [("name", "Groceries")]);
    PostList (at_time 13) (request (Some "t") 0 0 0 [("name", "Chores")]);
    PostItem (at_time 14) (request (Some "t") 1 0 0 [("name", "Apples")]);
    PutListUser (at_time 15) (request (Some "t") 1 2 0 [("role", "read")]) ].

(** A list created without a token: its owner row has no user. *)
Definition anonymous_history : list Action :=
  [ PostList (at_time 5) (request None 0 0 0 [("name", "Public")]) ].

(** Ann signs up, creates list 1 with the item 1 and revokes the owner
    row of the list, Ann's own: the list is left without any permission
    row. *)
Definition orphan_history : list Action :=
  [ PostUser (at_time 10)
      (request None 0 0 0 [("username", "ann"); ("password", "secrets")]);
    PostList (at_time 12) (request (Some "t") 0 0 0 [("name", "Groceries")]);
    PostItem (at_time 14) (request (Some "t") 1 0 0 [("name", "Apples")]);
    DeleteListUser (at_time 15) (request (Some "t") 1 1 0 []) ].

(** Ann signs up and creates the lists 1 and 2; three items are stored
    through a validator that lets an [id] key through: Pears under the id
    5 on list 1, Dishes under the next id, 6, on list 2, and Apples
    under the id 3 on list 1. *)
Definition numbered_history : list Action :=
  [ PostUser (at_time 10)
      (request None 0 0 0 [("username", "ann"); ("password", "secrets")]);
    PostList (at_time 12) (request (Some "t") 0 0 0 [("name", "Groceries")]);
    PostList (at_time 13) (request (Some "t") 0 0 0 [("name", "Chores")]);
    PostItem (at_time 14)
      (request (Some "t") 1 0 0 [("id", "5"); ("name", "Pears")]);
    PostItem (at_time 15) (request (Some "t") 2 0 0 [("name", "Dishes")]);
    PostItem (at_time 16)
      (request (Some "t") 1 0 0 [("id", "3"); ("name", "Apples")]) ].

Section Server.

Set Default Proof Using "Type".

(** The storage engine the server talks to, and the collaborators that
    are not part of the sources: [hashPassword] and [encrypt] of
    [crypto.js] with the inverse of [encrypt] that [authenticate] applies,
    [jsonValidate] of [validation.js], and [config.tokenLifetime]. *)
Variable engine : Engine.
Variable hashPassword : string -> string -> string.
Variable encrypt : Id -> string.
Variable decrypt : string -> option Id.
Variable jsonValidate : Body -> Template -> Exception + Body.
Variable tokenLifetime : N.

(** Modelled from the spec: the token-based modes of [AuthGate.authenticate]
    ([util.js] is not part of the sources).  The token is opened, the
    session resolved, and a session with [expirationInstant <= now] is
    refused like a missing one; without a token the [required] policy
    fails and the [optional] one yields the anonymous identity. *)
Definition by_token (d : Database) (t : Instant) (req : Request) (must : bool)
    : Exception + Identity :=
  match bearer req with
  | None => if must then inl Unauthorized else inr (mkIdentity None None)
  | Some token =>
      match decrypt token with
      | None => inl Unauthorized
      | Some sid =>
          match resolve d sid with
          | None => inl Unauthorized
          | Some s =>
              if expirationDate s <=? t then inl Unauthorized
              else inr (mkIdentity (Some (session_userId s)) (Some sid))
          end
      end
  end.

(** Modelled from the spec: the [credentials] mode of
    [AuthGate.authenticate].  The user is looked up by username and the
    password verified against the stored hash; every failure is the one
    generic condition, and success carries no session. *)
Definition by_credentials (d : Database) (req : Request) : Exception + Identity :=
  match login req with
  | None => inl InvalidCredentials
  | Some (name, pass) =>
      match find (fun u => String.eqb (username u) name) (users d) with
      | None => inl InvalidCredentials
      | Some u =>
          if String.eqb (hashPassword pass (salt u)) (password u)
          then inr (mkIdentity (Some (user_id u)) None)
          else inl InvalidCredentials
      end
  end.

(** Modelled from the spec: [authenticate(req, db, policy)] of [util.js];
    the policy defaults to [required], and [false] is [optional]. *)
Definition authenticate (e : Env) (req : Request) (policy : Policy)
    : Task Identity :=
  fun w =>
    (match policy with
     | required => by_token (db w) (now e) req true
     | optional => by_token (db w) (now e) req false
     | credentials => by_credentials (db w) req
     end, w).

(** ** The handlers of [server.js] *)

Record Signup : Type := mkSignup {
  signup_status : N;
  signup_userId : Id;
  signup_token : string;
  signup_expireTime : Instant }.

Definition username_taken (b : Body) : Exception :=
  Client (mkClientError 409 "username-taken" "Username already in use."
            (get "username" b)).

(** [hashPassword(body.password, salt)]; hashing an absent password
    throws. *)
Definition hash_with (pass : option string) (s : string) : Task string :=
  match pass with
  | Some p => ret (hashPassword p s)
  | None => throw (JsError "password")
  end.

(** [POST /user] *)
Definition post_user (e : Env) (req : Request) : Task Signup :=
  let* b := await (jsonValidate (body req)
              [("firstName", true); ("lastName", true);
               ("username", false); ("password", false)]) in
  let s := fresh_salt e in
  let* hash := hash_with (get "password" b) s in
  let b := set_key "salt" s (set_key "password" hash b) in
  let* results :=
    try_catch (query INSERT_users (insert_user engine b))
      (fun err =>
         match err with
         | Sql ER_DUP_ENTRY => throw (username_taken b)
         | _ => throw err
         end) in
  let uid := insertId results in
  let expireTime := now e + tokenLifetime in
  let* results := query INSERT_sessions (insert_session (Some uid) expireTime) in
  let sid := insertId results in
  let token := encrypt sid in
  ret (mkSignup 201 uid token expireTime).

(** [GET /user] *)
Definition get_user (e : Env) (req : Request) : Task UserView :=
  let* who := authenticate e req required in
  let* results := query SELECT_users (select_user (userId who)) in
  match results with
  | [] => throw (JsError "Unexpected missing user")
  | user :: _ => ret user
  end.

(** [PUT /user] *)
Definition put_user (e : Env) (req : Request) : Task unit :=
  let* who := authenticate e req required in
  let* b := await (jsonValidate (body req)
              [("firstName", true); ("lastName", true); ("password", true)]) in
  if no_keys b then ret tt
  else
    let* b :=
      (if has_key "password" b
       then let s := fresh_salt e in
            let* hash := hash_with (get "password" b) s in
            ret (set_key "salt" s (set_key "password" hash b))
       else ret b) in
    let* results := query UPDATE_users (update_user engine b (userId who)) in
    if affectedRows results =? 0
    then throw (JsError "Unexpected missing user")
    else ret tt.

(** [DELETE /user] *)
Definition delete_user_handler (e : Env) (req : Request) : Task unit :=
  let* who := authenticate e req required in
  let* results := query DELETE_users (delete_user (userId who)) in
  if affectedRows results =? 0
  then throw (JsError "Unexpected missing user")
  else ret tt.

(** [POST /user/login] *)
Definition post_login (e : Env) (req : Request) : Task (string * Instant) :=
  let* who := authenticate e req credentials in
  let expireTime := now e + tokenLifetime in
  let* results := query INSERT_sessions (insert_session (userId who) expireTime) in
  let sid := insertId results in
  let token := encrypt sid in
  ret (token, expireTime).

(** [POST /user/logout] *)
Definition post_logout (e : Env) (req : Request) : Task unit :=
  let* who := authenticate e req optional in
  match sessionId who with
  | None => ret tt
  | Some sid =>
      let* _ := query DELETE_sessions (delete_session (Some sid)) in
      ret tt
  end.

(** [POST /list]: the list, then the [owner] row of its creator. *)
Definition post_list (e : Env) (req : Request) : Task (N * Id) :=
  let* who := authenticate e req optional in
  let* b := await (jsonValidate (body req) [("name", false)]) in
  let* results := query INSERT_lists (insert_list engine b) in
  let lid := insertId results in
  let* _ := query INSERT_permissions (insert_permission (userId who) lid owner) in
  ret (201, lid).

(** [PUT /list/:listId] *)
Definition put_list (e : Env) (req : Request) : Task unit :=
  let* who := authenticate e req optional in
  let lid := param_listId req in
  let* _ := checkPermissions (userId who) lid write in
  let* b := await (jsonValidate (body req) [("name", true)]) in
  if no_keys b then ret tt
  else
    let* results := query UPDATE_lists (update_list engine b lid) in
    if affectedRows results =? 0
    then throw (JsError "Unexpected missing list")
    else ret tt.

(** [DELETE /list/:listId] *)
Definition delete_list_handler (e : Env) (req : Request) : Task unit :=
  let* who := authenticate e req optional in
  let lid := param_listId req in
  let* _ := checkPermissions (userId who) lid owner in
  let* results := query DELETE_lists (delete_list lid) in
  if affectedRows results =? 0
  then throw (JsError "Unexpected missing list")
  else ret tt.

Definition invalid_role (given : option string) : Exception :=
  Client (clientError "invalid-role"
            ("Unknown role '" ++ or_keep given "undefined" ++ "'.")%string).

(** The write path of [PUT /list/:listId/user/:userId] (lines 256 to 265):
    the role is checked against the closed set, then upserted for the
    user named in the route. *)
Definition grant (target lid : Id) (given : option string) : Task unit :=
  match match given with Some s => role_of_string s | None => None end with
  | None => throw (invalid_role given)
  | Some r =>
      let* _ := query UPSERT_permissions (upsert_permission (Some target) lid r) in
      ret tt
  end.

(** [PUT /list/:listId/user/:userId] *)
Definition put_list_user (e : Env) (req : Request) : Task unit :=
  let* who := authenticate e req required in
  let lid := param_listId req in
  let target := param_userId req in
  let* _ := checkPermissions (userId who) lid owner in
  let* b := await (jsonValidate (body req) [("role", false)]) in
  grant target lid (get "role" b).

(** The write path of [DELETE /list/:listId/user/:userId] (lines 271 to
    274). *)
Definition revoke (target lid : Id) : Task unit :=
  let* _ := query DELETE_permissions (delete_permission (Some target) lid) in
  ret tt.

(** [DELETE /list/:listId/user/:userId] *)
Definition delete_list_user (e : Env) (req : Request) : Task unit :=
  let* who := authenticate e req optional in
  let lid := param_listId req in
  let target := param_userId req in
  let* _ := checkPermissions (userId who) lid owner in
  revoke target lid.

Definition invalid_state (given : string) : Exception :=
  Client (clientError "invalid-state" ("Unknown state '" ++ given ++ "'.")%string).

Definition missing_item : Exception :=
  Client (clientError "missing-item" "Item not found.").

(** [body.state != null &&
     !['in-progress', 'complete', 'canceled'].includes(body.state)] *)
Definition check_state (b : Body) : Task unit :=
  match get "state" b with
  | None => ret tt
  | Some s =>
      match state_of_string s with
      | Some _ => ret tt
      | None => throw (invalid_state s)
      end
  end.

(** The body with its [listId] key removed: the handler overwrites that
    key with the route parameter, which [insert_item] takes apart. *)
Definition without_listId (b : Body) : Body :=
  filter (fun kv => negb (String.eqb (fst kv) "listId")) b.

(** [POST /list/:listId/item] *)
Definition post_item (e : Env) (req : Request) : Task (N * Id) :=
  let* who := authenticate e req optional in
  let lid := param_listId req in
  let* _ := checkPermissions (userId who) lid write in
  let* b := await (jsonValidate (body req)
              [("name", false); ("description", true); ("state", true)]) in
  let* _ := check_state b in
  let* results := query INSERT_items (insert_item engine (without_listId b) lid) in
  ret (201, insertId results).

(** [GET /list/:listId/item/:itemId] *)
Definition get_item (e : Env) (req : Request) : Task ItemView :=
  let* who := authenticate e req optional in
  let lid := param_listId req in
  let iid := param_itemId req in
  let* _ := checkPermissions (userId who) lid read in
  let* results := query SELECT_items (select_item lid iid) in
  match results with
  | [] => throw missing_item
  | item :: _ => ret item
  end.

(** [PUT /list/:listId/item/:itemId]: here the test for an empty object
    reads the body as received, before [jsonValidate]. *)
Definition put_item (e : Env) (req : Request) : Task unit :=
  let* who := authenticate e req required in
  let lid := param_listId req in
  let iid := param_itemId req in
  let* _ := checkPermissions (userId who) lid write in
  if no_keys (body req) then ret tt
  else
    let* b := await (jsonValidate (body req)
                [("name", true); ("description", true); ("state", true)]) in
    let* _ := check_state b in
    let* results := query UPDATE_items (update_item engine b lid iid) in
    if affectedRows results =? 0 then throw missing_item else ret tt.

(** [DELETE /list/:listId/item/:itemId] *)
Definition delete_item_handler (e : Env) (req : Request) : Task unit :=
  let* who := authenticate e req optional in
  let lid := param_listId req in
  let iid := param_itemId req in
  let* _ := checkPermissions (userId who) lid write in
  let* results := query DELETE_items (delete_item lid iid) in
  if affectedRows results =? 0 then throw missing_item else ret tt.

(** The error middleware at the end of [start]: the status and the code
    of the failure response. *)
Definition failure_response (err : Exception) : N * string :=
  match err with
  | Client c => (status c, code c)
  | _ => (500, "internal-error")
  end.

(** ** The reclamation sweep of [database.js] *)

(** [await pool.getConnection()] *)
Definition getConnection (down : bool) : Task unit :=
  fun w =>
    if down then (inl (Sql ER_SERVER_GONE), w)
    else (inr tt, mkWorld (db w) (journal w) (console w) (leased w + 1)).

(** [conn.release()] *)
Definition releaseConnection : Task unit :=
  fun w => (inr tt, mkWorld (db w) (journal w) (console w) (leased w - 1)).

(** [purge]: both deletes sit in one [try] block whose [finally] releases
    the connection. *)
Definition purge (o : Outage) (t : Instant) : Task unit :=
  let* _ := getConnection (pool_down o) in
  try_finally
    (let* results :=
       query_on (pass1_down o) DELETE_expired_sessions (delete_expired_sessions t) in
     let* _ :=
       (if affectedRows results =? 0 then ret tt
        else console_log (PurgedSessions (affectedRows results))) in
     let* results :=
       query_on (pass2_down o) DELETE_orphaned_lists delete_orphaned_lists in
     if affectedRows results =? 0 then ret tt
     else console_log (PurgedLists (affectedRows results)))
    releaseConnection.

(** The timer callback [() => purge().catch(console.error)]. *)
Definition sweep (o : Outage) (t : Instant) : Task unit :=
  try_catch (purge o t) (fun err => console_log (ConsoleError err)).

(** ** Runs of the server *)

Definition perform (a : Action) (w : World) : World :=
  match a with
  | PostUser e req => snd (post_user e req w)
  | PutUser e req => snd (put_user e req w)
  | DeleteUser e req => snd (delete_user_handler e req w)
  | PostLogin e req => snd (post_login e req w)
  | PostLogout e req => snd (post_logout e req w)
  | PostList e req => snd (post_list e req w)
  | PutList e req => snd (put_list e req w)
  | DeleteList e req => snd (delete_list_handler e req w)
  | PutListUser e req => snd (put_list_user e req w)
  | DeleteListUser e req => snd (delete_list_user e req w)
  | PostItem e req => snd (post_item e req w)
  | PutItem e req => snd (put_item e req w)
  | DeleteItem e req => snd (delete_item_handler e req w)
  | Sweep o t => snd (sweep o t w)
  end.

(** The world after a history of actions, oldest first, from a fresh
    server. *)
Definition run (history : list Action) : World :=
  fold_left (fun w a => perform a w) history (boot init).

(** The states of the tables a server can be in. *)
Definition reachable (d : Database) : Prop :=
  exists history, db (run history) = d.

(** The number of permission rows for a (userId, listId) pair. *)
Definition grants (d : Database) (uid : option Id) (lid : Id) : nat :=
  List.length (filter (holds uid lid) (permissions d)).

(** ** Notions the properties are stated with *)

(** What one healthy run of [purge] leaves behind. *)
Definition swept (t : Instant) (d : Database) : Database :=
  let d1 := with_sessions d
              (filter (fun s => negb (expirationDate s <? t)) (sessions d)) in
  snd (drop_lists (orphaned d1) d1).

Definition key (p : PermissionRow) : option Id * Id :=
  (permission_userId p, permission_listId p).

Definition keys (d : Database) : list (option Id * Id) :=
  map key (permissions d).

(** Foreign keys: every session and every permission of a user belongs to
    a stored user; every item and every permission belongs to a stored
    list. *)
Record referenced (d : Database) : Prop := mkReferenced {
  session_user :
    forall s, In s (sessions d) -> user_exists d (session_userId s) = true;
  item_list :
    forall i, In i (items d) -> list_exists d (item_listId i) = true;
  permission_user :
    forall p u, In p (permissions d) -> permission_userId p = Some u ->
                user_exists d u = true;
  permission_list :
    forall p, In p (permissions d) -> list_exists d (permission_listId p) = true }.

(** The invariant behind I4: no key occurs twice, and the foreign keys
    hold, so that a list id no list row has is the list id of no
    permission row either. *)
Record consistent (d : Database) : Prop := mkConsistent {
  unique_keys : NoDup (keys d);
  references : referenced d }.

(** The rows of the other lists. *)
Definition foreign (lid : Id) (i : ItemRow) : bool := negb (item_listId i =? lid).

(** ** The reading handlers of [server.js]

    The journal has entries for the reads of [todo.users] and
    [todo.items]; a read of [todo.lists] or [todo.permissions] is a
    [peek], which leaves the journal alone. *)

Definition peek {A} (run : Database -> A) : Task A :=
  fun w => (inr (run (db w)), w).

(** The rows of a [UNION], which keeps one copy of each row, in the order
    of their first occurrence. *)
Fixpoint distinct (l : list bool) : list bool :=
  match l with
  | [] => []
  | x :: l' => x :: filter (fun y => negb (Bool.eqb x y)) (distinct l')
  end.

(** [SELECT TRUE as isTaken FROM todo.users WHERE username = ?
     UNION SELECT FALSE as isTaken]; the names are compared under the
    collation of the column, and an absent parameter is sent as [NULL],
    which no name equals. *)
Definition select_name_taken (g : Engine) (name : option string) (d : Database)
    : SqlError + (list bool * Database) :=
  let hit r := match name with
               | Some n => same_name g (username r) n
               | None => false
               end in
  inr (distinct (map (fun _ => true) (filter hit (users d)) ++ [false]), d).

(** [GET /user/name-taken]; the template is applied to [req.query], which
    is the argument here. *)
Definition get_name_taken (params : Body) : Task bool :=
  let* b := await (jsonValidate params [("username", false)]) in
  let* results := query SELECT_users (select_name_taken engine (get "username" b)) in
  match results with
  | [] => throw (JsError "isTaken")
  | isTaken :: _ => ret isTaken
  end.

(** [SELECT id, name FROM todo.lists WHERE id in (SELECT listId FROM
     todo.permissions WHERE IF(? IS NOT NULL, userId = ?, userId IS NULL))] *)
Definition select_lists (uid : option Id) (d : Database) : list ListRow :=
  filter
    (fun l =>
       mem_id (list_id l)
         (map permission_listId
            (filter (fun p => same_user (permission_userId p) uid)
               (permissions d))))
    (lists d).

(** [GET /lists] *)
Definition get_lists (e : Env) (req : Request) : Task (list ListRow) :=
  let* who := authenticate e req optional in
  peek (select_lists (userId who)).

(** [SELECT id, name FROM todo.lists WHERE id = ?] *)
Definition select_list (lid : Id) (d : Database) : list ListRow :=
  filter (fun l => list_id l =? lid) (lists d).

(** [GET /list/:listId] *)
Definition get_list (e : Env) (req : Request) : Task ListRow :=
  let* who := authenticate e req optional in
  let lid := param_listId req in
  let* _ := checkPermissions (userId who) lid read in
  let* results := peek (select_list lid) in
  match results with
  | [] => throw (JsError "Unexpected missing list")
  | list :: _ => ret list
  end.

(** [SELECT userId, role FROM todo.permissions WHERE listId = ?] *)
Definition select_permissions (lid : Id) (d : Database)
    : list (option Id * Role) :=
  map (fun p => (permission_userId p, role p))
    (filter (fun p => permission_listId p =? lid) (permissions d)).

(** A JavaScript object whose keys are user ids, [null] among them. *)
Definition Roles := list (option Id * Role).

Fixpoint role_of (k : option Id) (o : Roles) : option Role :=
  match o with
  | [] => None
  | (k', r) :: o' => if same_user k' k then Some r else role_of k o'
  end.

(** [users[k] = {role: r}] *)
Fixpoint set_role (k : option Id) (r : Role) (o : Roles) : Roles :=
  match o with
  | [] => [(k, r)]
  | (k', r') :: o' =>
      if same_user k' k then (k, r) :: o' else (k', r') :: set_role k r o'
  end.

(** [GET /list/:listId/users]: the loop fills the object row by row. *)
Definition get_list_users (e : Env) (req : Request) : Task Roles :=
  let* who := authenticate e req optional in
  let lid := param_listId req in
  let* _ := checkPermissions (userId who) lid read in
  let* results := peek (select_permissions lid) in
  ret (fold_left (fun users user => set_role (fst user) (snd user) users)
         results []).

(** [SELECT role FROM todo.permissions WHERE listId = ? AND userId = ?] *)
Definition select_permission (lid : Id) (uid : option Id) (d : Database)
    : list Role :=
  map role
    (filter
       (fun p =>
          (permission_listId p =? lid)
          && match permission_userId p with
             | Some u => sql_eq u uid
             | None => false
             end)
       (permissions d)).

(** [GET /list/:listId/user/:userId]: the role of the first row, if
    any. *)
Definition get_list_user (e : Env) (req : Request) : Task (option Role) :=
  let* who := authenticate e req optional in
  let lid := param_listId req in
  let target := param_userId req in
  let* _ := checkPermissions (userId who) lid read in
  let* results := peek (select_permission lid (Some target)) in
  ret (hd_error results).

(** [ORDER BY id ASC] *)
Fixpoint insert_by_id (i : ItemRow) (l : list ItemRow) : list ItemRow :=
  match l with
  | [] => [i]
  | j :: l' =>
      if item_id i <? item_id j then i :: j :: l' else j :: insert_by_id i l'
  end.

Fixpoint order_by_id (l : list ItemRow) : list ItemRow :=
  match l with
  | [] => []
  | i :: l' => insert_by_id i (order_by_id l')
  end.

(** [SELECT id, name, description, state FROM todo.items
     WHERE listId = ? ORDER BY id ASC] *)
Definition select_items (lid : Id) (d : Database)
    : SqlError + (list ItemView * Database) :=
  inr (map item_view
         (order_by_id (filter (fun i => item_listId i =? lid) (items d))), d).

(** [GET /list/:listId/items] *)
Definition get_items (e : Env) (req : Request) : Task (list ItemView) :=
  let* who := authenticate e req optional in
  let lid := param_listId req in
  let* _ := checkPermissions (userId who) lid read in
  query SELECT_items (select_items lid).

(** ** Notions the further properties are stated with *)

(** The world after a statement was issued that left the tables [d]. *)
Definition issued (s : Statement) (d : Database) (w : World) : World :=
  mkWorld d (journal w ++ [s]) (console w) (leased w).

(** A task maintains a property of the tables when it holds after the
    task, fulfilled or rejected, whenever it held before. *)
Definition maintains (I : Database -> Prop) {A} (m : Task A) : Prop :=
  forall w, I (db w) -> I (db (snd (m w))).

(** A property of the tables that every writing statement of the source
    maintains, whatever its parameters.  The one statement that is taken
    with the statement before it is the [INSERT] of the owner row in
    [POST /list], which names the list that was just stored; the upsert
    of [PUT /list/:listId/user/:userId] names a user. *)
Record Closed (I : Database -> Prop) : Prop := mkClosed {
  closed_insert_user : forall b d ok d',
    I d -> insert_user engine b d = inr (ok, d') -> I d';
  closed_update_user : forall b uid d ok d',
    I d -> update_user engine b uid d = inr (ok, d') -> I d';
  closed_delete_user : forall uid d ok d',
    I d -> delete_user uid d = inr (ok, d') -> I d';
  closed_insert_session : forall uid t d ok d',
    I d -> insert_session uid t d = inr (ok, d') -> I d';
  closed_delete_session : forall sid d ok d',
    I d -> delete_session sid d = inr (ok, d') -> I d';
  closed_insert_list : forall b d ok d',
    I d -> insert_list engine b d = inr (ok, d') -> I d';
  closed_update_list : forall b lid d ok d',
    I d -> update_list engine b lid d = inr (ok, d') -> I d';
  closed_drop_lists : forall hit d,
    I d -> I (snd (drop_lists hit d));
  closed_insert_owner : forall b uid d ok d1 ok' d2,
    I d -> insert_list engine b d = inr (ok, d1) ->
    insert_permission uid (insertId ok) owner d1 = inr (ok', d2) -> I d2;
  closed_upsert_permission : forall u lid r d ok d',
    I d -> upsert_permission (Some u) lid r d = inr (ok, d') -> I d';
  closed_delete_permission : forall uid lid d ok d',
    I d -> delete_permission uid lid d = inr (ok, d') -> I d';
  closed_insert_item : forall b lid d ok d',
    I d -> insert_item engine b lid d = inr (ok, d') -> I d';
  closed_update_item : forall b lid iid d ok d',
    I d -> update_item engine b lid iid d = inr (ok, d') -> I d';
  closed_delete_item : forall lid iid d ok d',
    I d -> delete_item lid iid d = inr (ok, d') -> I d';
  closed_delete_expired : forall t d ok d',
    I d -> delete_expired_sessions t d = inr (ok, d') -> I d' }.

(** Primary keys: in each table the ids are pairwise different.  The ids
    of the sessions and of the permissions, which no statement of the
    source assigns, were handed out by the counter of the table. *)
Record keyed (d : Database) : Prop := mkKeyed {
  user_ids : NoDup (map user_id (users d));
  session_ids : NoDup (map session_id (sessions d));
  session_ids_below : forall s, In s (sessions d) -> session_id s < next_session d;
  list_ids : NoDup (map list_id (lists d));
  item_ids : NoDup (map item_id (items d));
  permission_ids : NoDup (map permission_id (permissions d));
  permission_ids_below :
    forall p, In p (permissions d) -> permission_id p < next_permission d }.

(** [UNIQUE(username)] *)
Definition named (d : Database) : Prop := NoDup (map username (users d)).

(** [UNIQUE(username)] under the collation of the column. *)
Definition collated (d : Database) : Prop :=
  NoDup (map (fun r => weight engine (username r)) (users d)).

(** ** The tables after a request *)

(** The object [POST /user] hands to the [INSERT]. *)
Definition signup_body (e : Env) (b : Body) (pass : string) : Body :=
  set_key "salt" (fresh_salt e)
    (set_key "password" (hashPassword pass (fresh_salt e)) b).

(** A value that may be absent is within the width [n]. *)
Definition within (n : nat) (v : option string) : bool :=
  match v with
  | Some s => fits n s
  | None => true
  end.


(** The tables after [DELETE FROM todo.users] has removed the user [uid]
    and the cascade their sessions and permissions. *)
Definition without_user (uid : Id) (d : Database) : Database :=
  mkDatabase
    (filter (fun r => negb (user_id r =? uid)) (users d))
    (filter (fun s => negb (session_userId s =? uid)) (sessions d))
    (lists d) (items d)
    (filter (fun p => negb (same_user (permission_userId p) (Some uid)))
       (permissions d))
    (next_user d) (next_session d) (next_list d) (next_item d)
    (next_permission d).


(** The tables after [DELETE FROM todo.lists] has removed the list [lid]
    and the cascade its items and permissions. *)
Definition without_list (lid : Id) (d : Database) : Database :=
  mkDatabase (users d) (sessions d)
    (filter (fun l => negb (list_id l =? lid)) (lists d))
    (filter (fun i => negb (item_listId i =? lid)) (items d))
    (filter (fun p => negb (permission_listId p =? lid)) (permissions d))
    (next_user d) (next_session d) (next_list d) (next_item d)
    (next_permission d).

Definition id_order (i j : ItemRow) : Prop := item_id i <= item_id j.

(** The row [UPDATE todo.items SET ?] leaves for an object [b] without
    an [id] key whose values the columns take as they are: the keys given
    replace the columns, [listId] among them, and the others stay. *)
Definition changed (b : Body) (i : ItemRow) : ItemRow :=
  patch_item None
    (match get "listId" b with
     | Some v => to_id engine v
     | None => None
     end)
    (get "name" b) (get "description" b)
    (match get "state" b with
     | Some s => state_of_string s
     | None => None
     end) i.

(** ** The routes that authenticate *)

(** The routes of [server.js] whose handler calls [authenticate]: all but
    [POST /user] and [GET /user/name-taken]. *)
Inductive Route : Type :=
| GET_user | PUT_user | DELETE_user | POST_login | POST_logout
| GET_lists | POST_list | GET_list | PUT_list | DELETE_list
| GET_list_users | GET_list_user | PUT_list_user | DELETE_list_user
| GET_items | POST_item | GET_item | PUT_item | DELETE_item.

(** The third argument of the route's call of [authenticate]. *)
Definition route_policy (route : Route) : Policy :=
  match route with
  | GET_user | PUT_user | DELETE_user | PUT_list_user | PUT_item => required
  | POST_login => credentials
  | _ => optional
  end.

(** The last argument of the route's call of [checkPermissions], for the
    routes under [/list/:listId]. *)
Definition route_role (route : Route) : option Role :=
  match route with
  | GET_list | GET_list_users | GET_list_user | GET_items | GET_item => Some read
  | PUT_list | POST_item | PUT_item | DELETE_item => Some write
  | DELETE_list | PUT_list_user | DELETE_list_user => Some owner
  | _ => None
  end.

(** What is left of a handler's run when the value it returns is put
    aside: the exception thrown, if any, and the world. *)
Definition outcome {A} (r : (Exception + A) * World) : option Exception * World :=
  (match fst r with inl err => Some err | inr _ => None end, snd r).

Definition serve (route : Route) (e : Env) (req : Request) (w : World)
    : option Exception * World :=
  match route with
  | GET_user => outcome (get_user e req w)
  | PUT_user => outcome (put_user e req w)
  | DELETE_user => outcome (delete_user_handler e req w)
  | POST_login => outcome (post_login e req w)
  | POST_logout => outcome (post_logout e req w)
  | GET_lists => outcome (get_lists e req w)
  | POST_list => outcome (post_list e req w)
  | GET_list => outcome (get_list e req w)
  | PUT_list => outcome (put_list e req w)
  | DELETE_list => outcome (delete_list_handler e req w)
  | GET_list_users => outcome (get_list_users e req w)
  | GET_list_user => outcome (get_list_user e req w)
  | PUT_list_user => outcome (put_list_user e req w)
  | DELETE_list_user => outcome (delete_list_user e req w)
  | GET_items => outcome (get_items e req w)
  | POST_item => outcome (post_item e req w)
  | GET_item => outcome (get_item e req w)
  | PUT_item => outcome (put_item e req w)
  | DELETE_item => outcome (delete_item_handler e req w)
  end.

(** ** What stays true from a moment on *)

(** The world after further actions, oldest first. *)
Definition after (history : list Action) (w : World) : World :=
  fold_left (fun w a => perform a w) history w.

(** The session id [sid] was handed out and no row has it. *)
Definition closed_session (sid : Id) (d : Database) : Prop :=
  (forall s, In s (sessions d) -> session_id s <> sid)
  /\ sid < next_session d.

(** ** The sweep: outcomes and effects *)

Ltac run_task :=
  unfold sweep, purge, try_catch, try_finally, bind, ret, throw, await,
    getConnection, releaseConnection, query, query_on, console_log;
  simpl.

Lemma lease_returned (n : N) : n + 1 - 1 = n.
Proof. lia. Qed.

Lemma mem_id_in (i : Id) (l : list Id) : mem_id i l = true <-> In i l.
Proof.
  unfold mem_id. rewrite existsb_exists. split.
  - intros [x [Hx Hi]]. apply N.eqb_eq in Hi. now subst.
  - intros Hi. exists i. split; [assumption | apply N.eqb_refl].
Qed.

(** The permissions that reference a removed orphan: there are none. *)
Lemma orphans_hold_no_permission (d : Database) :
  filter (fun p => negb (mem_id (permission_listId p)
                           (map list_id (filter (orphaned d) (lists d)))))
    (permissions d) = permissions d.
Proof.
  apply forallb_filter_id. apply forallb_forall. intros p Hp.
  apply negb_true_iff. apply not_true_iff_false. intros Hm.
  apply mem_id_in in Hm. apply in_map_iff in Hm.
  destruct Hm as [l [Hid Hl]]. apply filter_In in Hl. destruct Hl as [_ Ho].
  unfold orphaned in Ho. apply negb_true_iff in Ho.
  apply not_true_iff_false in Ho. apply Ho. apply mem_id_in.
  rewrite Hid. now apply in_map.
Qed.

Lemma sweep_healthy_db (t : Instant) (w : World) :
  fst (sweep healthy t w) = inr tt /\ db (snd (sweep healthy t w)) = swept t (db w).
Proof.
  run_task.
  destruct (count (fun s => expirationDate s <? t) (sessions (db w)) =? 0); simpl;
    match goal with
    | |- context [count ?f ?l =? 0] => destruct (count f l =? 0)
    end; simpl; split; reflexivity.
Qed.

(** C1 (as the code has it): a run of the sweep never rejects: whatever
    [purge] throws is written to the console by the timer callback, so no
    failure reaches the host process.  The two passes share one [try]
    block: when the storage fails in pass 1, the run issues no further
    statement (pass 2 is not attempted in that run), the tables are as
    before, the failure is logged and the connection is released; when
    pass 1 succeeds and pass 2 fails, both statements were issued, the
    expired sessions are gone, and the failure is logged. *)
Theorem sweep_contains_failure (o : Outage) (t : Instant) (w : World) :
  fst (sweep o t w) = inr tt
  /\ (forall err, fst (purge o t w) = inl err ->
        console (snd (sweep o t w))
          = console (snd (purge o t w)) ++ [ConsoleError err])
  /\ (pool_down o = false -> pass1_down o = true ->
        journal (snd (sweep o t w)) = journal w ++ [DELETE_expired_sessions]
        /\ db (snd (sweep o t w)) = db w
        /\ console (snd (sweep o t w))
             = console w ++ [ConsoleError (Sql ER_SERVER_GONE)]
        /\ leased (snd (sweep o t w)) = leased w)
  /\ (pool_down o = false -> pass1_down o = false -> pass2_down o = true ->
        journal (snd (sweep o t w))
          = journal w ++ [DELETE_expired_sessions; DELETE_orphaned_lists]
        /\ sessions (db (snd (sweep o t w)))
             = filter (fun s => negb (expirationDate s <? t)) (sessions (db w))
        /\ lists (db (snd (sweep o t w))) = lists (db w)
        /\ In (ConsoleError (Sql ER_SERVER_GONE)) (console (snd (sweep o t w)))
        /\ leased (snd (sweep o t w)) = leased w).
Proof.
  destruct o as [pool p1 p2]. simpl.
  destruct pool, p1, p2; run_task;
    try (destruct (count (fun s => expirationDate s <? t) (sessions (db w)) =? 0);
         simpl);
    try match goal with
        | |- context [count ?f ?l =? 0] => destruct (count f l =? 0); simpl
        end;
    repeat split; try discriminate; try reflexivity;
    try (intros err Herr; injection Herr as <-; reflexivity);
    intros; rewrite <- ?app_assoc; simpl; rewrite ?lease_returned;
    try reflexivity;
    try (apply in_or_app; right; simpl; auto).
Qed.

(** C5 (as the code has it): after a run of the sweep without storage
    failure, the sessions left are those with [expirationDate >= now], the
    lists left are those some permission references, users and
    permissions are untouched, and an item is left exactly when its list
    was not removed: the items of a removed list go with it by the
    cascade of the schema. *)
Theorem sweep_healthy_effect (t : Instant) (w : World) :
  let d := db w in
  let d' := db (snd (sweep healthy t w)) in
  fst (sweep healthy t w) = inr tt
  /\ (forall s, In s (sessions d') <-> In s (sessions d) /\ t <= expirationDate s)
  /\ (forall l, In l (lists d') <->
        In l (lists d) /\
        exists p, In p (permissions d) /\ permission_listId p = list_id l)
  /\ users d' = users d
  /\ permissions d' = permissions d
  /\ (forall i, In i (items d') <->
        In i (items d) /\
        ~ (exists l, In l (lists d) /\ list_id l = item_listId i /\
             forall p, In p (permissions d) -> permission_listId p <> list_id l)).
Proof.
  cbv zeta. destruct (sweep_healthy_db t w) as [Hok Hdb].
  rewrite Hdb. unfold swept, drop_lists. simpl.
  split; [assumption |].
  split.
  { intros s. rewrite filter_In, negb_true_iff, N.ltb_ge. reflexivity. }
  split.
  { intros l. rewrite filter_In. unfold orphaned. simpl.
    rewrite negb_involutive, mem_id_in, in_map_iff.
    split.
    - intros [Hl [p [Hp Hin]]]. split; [assumption |]. now exists p.
    - intros [Hl [p [Hin Hp]]]. split; [assumption |]. now exists p. }
  split; [reflexivity |].
  split.
  { exact (orphans_hold_no_permission
             (with_sessions (db w)
                (filter (fun s => negb (expirationDate s <? t)) (sessions (db w))))). }
  intros i. rewrite filter_In, negb_true_iff.
  split.
  - intros [Hi Hm]. split; [assumption |].
    intros [l [Hl [Hid Hno]]].
    apply not_true_iff_false in Hm. apply Hm.
    apply mem_id_in. apply in_map_iff. exists l. split; [assumption |].
    apply filter_In. split; [assumption |].
    unfold orphaned. simpl. apply negb_true_iff. apply not_true_iff_false.
    intros Hmem. apply mem_id_in in Hmem. apply in_map_iff in Hmem.
    destruct Hmem as [p [Hp Hin]]. exact (Hno p Hin Hp).
  - intros [Hi Hno]. split; [assumption |].
    apply not_true_iff_false. intros Hm. apply Hno.
    apply mem_id_in in Hm. apply in_map_iff in Hm.
    destruct Hm as [l [Hid Hl]]. apply filter_In in Hl. destruct Hl as [Hl Ho].
    exists l. split; [assumption |]. split; [assumption |].
    intros p Hp Heq. unfold orphaned in Ho. simpl in Ho.
    apply negb_true_iff in Ho. apply not_true_iff_false in Ho. apply Ho.
    apply mem_id_in. rewrite <- Heq. now apply in_map.
Qed.

(** ** Running a handler step by step *)

Lemma bind_ok {A B} (m : Task A) (k : A -> Task B) (w w' : World) (a : A) :
  m w = (inr a, w') -> bind m k w = k a w'.
Proof. intros H. unfold bind. now rewrite H. Qed.

Lemma bind_fail {A B} (m : Task A) (k : A -> Task B) (w w' : World)
    (err : Exception) :
  m w = (inl err, w') -> bind m k w = (inl err, w').
Proof. intros H. unfold bind. now rewrite H. Qed.

Lemma authenticate_ok (e : Env) (req : Request) (p : Policy) (w : World)
    (who : Identity) :
  fst (authenticate e req p w) = inr who ->
  authenticate e req p w = (inr who, w).
Proof. unfold authenticate. simpl. now intros ->. Qed.

Lemma checkPermissions_ok (uid : option Id) (lid : Id) (m r : Role) (w : World) :
  requireAtLeast (db w) uid lid m = Granted r ->
  checkPermissions uid lid m w = (inr r, w).
Proof. intros H. unfold checkPermissions. now rewrite H. Qed.

Lemma await_ok {A} (a : A) (w : World) : await (inr a) w = (inr a, w).
Proof. reflexivity. Qed.

Lemma query_ok {A} (s : Statement) (run : Database -> SqlError + (A * Database))
    (w : World) (a : A) (d : Database) :
  run (db w) = inr (a, d) -> query s run w = (inr a, issued s d w).
Proof. intros H. unfold query, query_on. simpl. now rewrite H. Qed.

Lemma query_fail {A} (s : Statement)
    (run : Database -> SqlError + (A * Database)) (w : World) (err : SqlError) :
  run (db w) = inl err -> query s run w = (inl (Sql err), issued s (db w) w).
Proof. intros H. unfold query, query_on. simpl. now rewrite H. Qed.

Lemma check_state_ok (b : Body) (w : World) :
  (forall s, get "state" b = Some s -> state_of_string s <> None) ->
  check_state b w = (inr tt, w).
Proof.
  intros H. unfold check_state.
  destruct (get "state" b) as [s |]; [| reflexivity].
  specialize (H s eq_refl). destruct (state_of_string s); [reflexivity | congruence].
Qed.

(** ** Properties every reachable state has *)

Lemma maintains_ret (I : Database -> Prop) {A} (a : A) : maintains I (ret a).
Proof. intros w H. exact H. Qed.

Lemma maintains_throw (I : Database -> Prop) {A} (e : Exception) :
  maintains I (@throw A e).
Proof. intros w H. exact H. Qed.

Lemma maintains_await (I : Database -> Prop) {A} (r : Exception + A) :
  maintains I (await r).
Proof. intros w H. exact H. Qed.

Lemma maintains_console_log (I : Database -> Prop) (l : LogLine) :
  maintains I (console_log l).
Proof. intros w H. exact H. Qed.

Lemma maintains_authenticate (I : Database -> Prop) (e : Env) (req : Request)
    (p : Policy) :
  maintains I (authenticate e req p).
Proof. intros w H. exact H. Qed.

Lemma maintains_checkPermissions (I : Database -> Prop) (uid : option Id)
    (lid : Id) (r : Role) :
  maintains I (checkPermissions uid lid r).
Proof.
  intros w H. unfold checkPermissions.
  destruct (requireAtLeast (db w) uid lid r); exact H.
Qed.

Lemma maintains_hash_with (I : Database -> Prop) (p : option string) (s : string) :
  maintains I (hash_with p s).
Proof. intros w H. destruct p; exact H. Qed.

Lemma maintains_check_state (I : Database -> Prop) (b : Body) :
  maintains I (check_state b).
Proof.
  intros w H. unfold check_state.
  destruct (get "state" b) as [s |]; [destruct (state_of_string s) |]; exact H.
Qed.

Lemma maintains_bind (I : Database -> Prop) {A B} (m : Task A) (k : A -> Task B) :
  maintains I m -> (forall a, maintains I (k a)) -> maintains I (bind m k).
Proof.
  intros Hm Hk w Hw. unfold bind. specialize (Hm w Hw).
  destruct (m w) as [[e | a] w']; simpl in Hm; [exact Hm | now apply Hk].
Qed.

Lemma maintains_try_catch (I : Database -> Prop) {A} (m : Task A)
    (h : Exception -> Task A) :
  maintains I m -> (forall e, maintains I (h e)) -> maintains I (try_catch m h).
Proof.
  intros Hm Hh w Hw. unfold try_catch. specialize (Hm w Hw).
  destruct (m w) as [[e | a] w']; simpl in *; [now apply Hh | exact Hm].
Qed.

Lemma maintains_try_finally (I : Database -> Prop) {A} (m : Task A)
    (c : Task unit) :
  maintains I m -> maintains I c -> maintains I (try_finally m c).
Proof.
  intros Hm Hc w Hw. unfold try_finally. specialize (Hm w Hw).
  destruct (m w) as [r w']. simpl in Hm. specialize (Hc w' Hm).
  destruct (c w') as [[e | u] w'']; exact Hc.
Qed.

Lemma maintains_query (I : Database -> Prop) {A} (down : bool) (s : Statement)
    (run : Database -> SqlError + (A * Database)) :
  (forall d a d', I d -> run d = inr (a, d') -> I d') ->
  maintains I (query_on down s run).
Proof.
  intros Hrun w Hw. unfold query_on.
  destruct down; simpl; [exact Hw |].
  destruct (run (db w)) as [e | [a d']] eqn:Hr; simpl; [exact Hw |].
  now apply (Hrun (db w) a d').
Qed.

(** Two statements in a row, the second with the result of the first. *)
Lemma maintains_pair (I : Database -> Prop) {A B C} (s1 s2 : Statement)
    (run1 : Database -> SqlError + (A * Database))
    (run2 : A -> Database -> SqlError + (B * Database)) (k : A -> B -> Task C) :
  (forall d a d', I d -> run1 d = inr (a, d') -> I d') ->
  (forall d a d1 a' d2,
     I d -> run1 d = inr (a, d1) -> run2 a d1 = inr (a', d2) -> I d2) ->
  (forall a a', maintains I (k a a')) ->
  maintains I
    (bind (query s1 run1) (fun a => bind (query s2 (run2 a)) (k a))).
Proof.
  intros H1 H2 Hk w Hw. unfold bind, query, query_on.
  destruct (run1 (db w)) as [e | [a d1]] eqn:Hr1; simpl; [exact Hw |].
  destruct (run2 a d1) as [e | [a' d2]] eqn:Hr2; simpl.
  - exact (H1 _ _ _ Hw Hr1).
  - apply Hk. simpl. exact (H2 _ _ _ _ _ Hw Hr1 Hr2).
Qed.

Ltac maintains_step :=
  first
    [ apply maintains_ret | apply maintains_throw | apply maintains_await
    | apply maintains_console_log | apply maintains_authenticate
    | apply maintains_checkPermissions | apply maintains_hash_with
    | apply maintains_check_state
    | apply maintains_bind; [| intro]
    | apply maintains_try_catch; [| intro]
    | match goal with
      | |- maintains _ (match ?x with _ => _ end) => destruct x
      end ].

(** Every action maintains a closed property. *)
Lemma perform_maintains (I : Database -> Prop) (a : Action) (w : World) :
  Closed I -> I (db w) -> I (db (perform a w)).
Proof.
  intros HC Hw.
  assert (Hq : forall {A} s (run : Database -> SqlError + (A * Database)) down,
             (forall d a d', I d -> run d = inr (a, d') -> I d') ->
             maintains I (query_on down s run))
    by (intros; now apply maintains_query).
  destruct a; simpl.
  - revert w Hw. change (maintains I (post_user e req)).
    unfold post_user. repeat maintains_step.
    + apply Hq. intros d ok d'. apply (closed_insert_user I HC).
    + apply Hq. intros d ok d'. apply (closed_insert_session I HC).
  - revert w Hw. change (maintains I (put_user e req)).
    unfold put_user. repeat maintains_step.
    apply Hq. intros d ok d'. apply (closed_update_user I HC).
  - revert w Hw. change (maintains I (delete_user_handler e req)).
    unfold delete_user_handler. repeat maintains_step.
    apply Hq. intros d ok d'. apply (closed_delete_user I HC).
  - revert w Hw. change (maintains I (post_login e req)).
    unfold post_login. repeat maintains_step.
    apply Hq. intros d ok d'. apply (closed_insert_session I HC).
  - revert w Hw. change (maintains I (post_logout e req)).
    unfold post_logout. repeat maintains_step.
    apply Hq. intros d ok d'. apply (closed_delete_session I HC).
  - revert w Hw. change (maintains I (post_list e req)).
    unfold post_list.
    apply maintains_bind; [apply maintains_authenticate | intros who].
    apply maintains_bind; [apply maintains_await | intros b].
    apply (maintains_pair I INSERT_lists INSERT_permissions
             (insert_list engine b)
             (fun results => insert_permission (userId who) (insertId results) owner)
             (fun results _ => ret (201, insertId results))).
    + intros d ok d'. apply (closed_insert_list I HC).
    + intros d ok d1 ok' d2. apply (closed_insert_owner I HC).
    + intros. apply maintains_ret.
  - revert w Hw. change (maintains I (put_list e req)).
    unfold put_list. repeat maintains_step.
    apply Hq. intros d ok d'. apply (closed_update_list I HC).
  - revert w Hw. change (maintains I (delete_list_handler e req)).
    unfold delete_list_handler. repeat maintains_step.
    apply Hq. intros d ok d' Hd Hrun. unfold delete_list in Hrun.
    injection Hrun as _ <-. apply (closed_drop_lists I HC _ _ Hd).
  - revert w Hw. change (maintains I (put_list_user e req)).
    unfold put_list_user, grant. repeat maintains_step.
    apply Hq. intros d ok d'. apply (closed_upsert_permission I HC).
  - revert w Hw. change (maintains I (delete_list_user e req)).
    unfold delete_list_user, revoke. repeat maintains_step.
    apply Hq. intros d ok d'. apply (closed_delete_permission I HC).
  - revert w Hw. change (maintains I (post_item e req)).
    unfold post_item. repeat maintains_step.
    apply Hq. intros d ok d'. apply (closed_insert_item I HC).
  - revert w Hw. change (maintains I (put_item e req)).
    unfold put_item. repeat maintains_step.
    apply Hq. intros d ok d'. apply (closed_update_item I HC).
  - revert w Hw. change (maintains I (delete_item_handler e req)).
    unfold delete_item_handler. repeat maintains_step.
    apply Hq. intros d ok d'. apply (closed_delete_item I HC).
  - revert w Hw. change (maintains I (sweep o t)).
    unfold sweep, purge.
    apply maintains_try_catch; [| intro; apply maintains_console_log].
    apply maintains_bind;
      [intros w H; unfold getConnection; destruct (pool_down o); exact H |].
    intros _. apply maintains_try_finally; [| intros w H; exact H].
    repeat maintains_step.
    + apply Hq. intros d ok d'. apply (closed_delete_expired I HC).
    + apply Hq. intros d ok d' Hd Hrun. unfold delete_orphaned_lists in Hrun.
      injection Hrun as _ <-. apply (closed_drop_lists I HC _ _ Hd).
Qed.

Lemma reachable_closed (I : Database -> Prop) (d : Database) :
  I init -> Closed I -> reachable d -> I d.
Proof.
  intros Hinit HC [history <-]. unfold run.
  assert (H : forall w, I (db w) ->
                I (db (fold_left (fun w a => perform a w) history w))).
  { induction history as [| a h IH]; simpl; intros w Hw; [exact Hw |].
    apply IH. now apply perform_maintains. }
  apply H. exact Hinit.
Qed.

(** ** What a statement that succeeds has done *)

Lemma same_user_eq (a b : option Id) : same_user a b = true <-> a = b.
Proof.
  destruct a as [a |], b as [b |]; simpl; try (split; congruence).
  rewrite N.eqb_eq. split; congruence.
Qed.

Lemma NoDup_snoc {A} (l : list A) (x : A) :
  NoDup l -> ~ In x l -> NoDup (l ++ [x]).
Proof.
  induction l as [| a l IH]; simpl; intros Hnd Hx.
  - constructor; [intros [] | constructor].
  - inversion Hnd as [| a' l' Ha Hl]; subst. constructor.
    + rewrite in_app_iff. intros [Hin | [Heq | []]]; [now apply Ha |].
      apply Hx. now left.
    + apply IH; [assumption |]. intros Hin. apply Hx. now right.
Qed.

Lemma NoDup_map_filter {A B} (f : A -> B) (g : A -> bool) (l : list A) :
  NoDup (map f l) -> NoDup (map f (filter g l)).
Proof.
  induction l as [| a l IH]; simpl; intros Hnd; [constructor |].
  inversion Hnd as [| b bs Hb Hl]; subst.
  destruct (g a); simpl; [| now apply IH].
  constructor; [| now apply IH].
  intros Hin. apply Hb. apply in_map_iff in Hin.
  destruct Hin as [x [Hfx Hx]]. apply filter_In in Hx.
  apply in_map_iff. exists x. destruct Hx as [Hx _]. now split.
Qed.

Lemma user_exists_in (d : Database) (i : Id) :
  user_exists d i = true <-> In i (map user_id (users d)).
Proof.
  unfold user_exists. rewrite existsb_exists, in_map_iff.
  split; intros [r [H1 H2]]; exists r.
  - apply N.eqb_eq in H2. now split.
  - split; [assumption | now apply N.eqb_eq].
Qed.

Lemma list_exists_in (d : Database) (lid : Id) :
  list_exists d lid = true <-> In lid (map list_id (lists d)).
Proof.
  unfold list_exists. rewrite existsb_exists, in_map_iff.
  split; intros [r [H1 H2]]; exists r.
  - apply N.eqb_eq in H2. now split.
  - split; [assumption | now apply N.eqb_eq].
Qed.

Lemma same_name_weight (a b : string) :
  same_name engine a b = true <-> weight engine a = weight engine b.
Proof. unfold same_name. apply String.eqb_eq. Qed.

Lemma name_used_in (name : string) (l : list UserRow) :
  name_used engine name l = true
  <-> In (weight engine name) (map (fun r => weight engine (username r)) l).
Proof.
  unfold name_used. rewrite existsb_exists, in_map_iff.
  split; intros [r [H1 H2]]; exists r.
  - apply same_name_weight in H2. now split.
  - split; [assumption | now apply same_name_weight].
Qed.

Lemma filter_empty {A} (f : A -> bool) (l : list A) :
  (forall x, In x l -> f x = false) -> filter f l = [].
Proof.
  intros H. induction l as [| a l IH]; [reflexivity |].
  cbn [filter]. rewrite (H a (or_introl eq_refl)). apply IH.
  intros x Hx. apply H. now right.
Qed.

(** *** Rows patched in place *)

Lemma map_patched {A B} (f : A -> B) (hit : A -> bool) (g : A -> A) (l : list A) :
  (forall y, f (g y) = f y) ->
  map f (map (fun y => if hit y then g y else y) l) = map f l.
Proof.
  intros Hg. rewrite map_map. apply map_ext. intros y.
  destruct (hit y); [apply Hg | reflexivity].
Qed.

Lemma patched_none {A} (hit : A -> bool) (g : A -> A) (l : list A) :
  filter hit l = [] -> map (fun y => if hit y then g y else y) l = l.
Proof.
  induction l as [| a l IH]; simpl; [reflexivity |].
  destruct (hit a); [discriminate |]. intros H. now rewrite IH.
Qed.

Lemma in_patched {A} (hit : A -> bool) (g : A -> A) (l : list A) (y : A) :
  In y (map (fun y => if hit y then g y else y) l) ->
  (exists x, In x l /\ hit x = true /\ y = g x)
  \/ (In y l /\ hit y = false).
Proof.
  intros Hin. apply in_map_iff in Hin. destruct Hin as [x [<- Hx]].
  destruct (hit x) eqn:Hh; [left; now exists x | right; now split].
Qed.

Lemma filter_cons_in {A} (f : A -> bool) (l : list A) (x : A) (m : list A) :
  filter f l = x :: m -> In x l /\ f x = true.
Proof.
  intros H. apply filter_In. rewrite H. now left.
Qed.

(** The column an [UPDATE] assigns stays unique when the new value
    clashes with none. *)
Lemma NoDup_assigned {A K K'} (same : K -> K -> bool) (proj : K -> K')
    (column : A -> K) (v : K) (hit : A -> bool) (g : A -> A) (l : list A) :
  (forall a b, same a b = true <-> proj a = proj b) ->
  clash same column (Some v) hit l = false ->
  (forall r, column (g r) = v) ->
  NoDup (map (fun r => proj (column r)) l) ->
  NoDup (map (fun r => proj (column r))
           (map (fun r => if hit r then g r else r) l)).
Proof.
  intros Hsame Hclash Hg. unfold clash in Hclash.
  apply orb_false_iff in Hclash. destruct Hclash as [Hone Hrest].
  apply negb_false_iff in Hone.
  assert (Hfree : forall r, In r l -> hit r = false -> proj (column r) <> proj v).
  { intros r Hr Hh Heq.
    assert (Hex : existsb (fun r => same (column r) v)
                    (filter (fun r => negb (hit r)) l) = true).
    { apply existsb_exists. exists r. split.
      - apply filter_In. split; [assumption | now rewrite Hh].
      - now apply Hsame. }
    congruence. }
  clear Hrest. induction l as [| a l IH]; simpl; intros Hnd; [constructor |].
  inversion Hnd as [| k ks Hk Hl]; subst.
  simpl in Hone. destruct (hit a) eqn:Ha.
  - assert (Hnil : filter hit l = [])
      by (destruct (filter hit l) as [| x [| y m]]; [reflexivity | discriminate ..]).
    rewrite (patched_none hit g l Hnil). rewrite Hg.
    constructor; [| assumption].
    intros Hin. apply in_map_iff in Hin. destruct Hin as [r [Hr Hin]].
    apply (Hfree r); [now right | | assumption].
    destruct (hit r) eqn:Hh; [| reflexivity].
    assert (Hf : In r (filter hit l)) by (apply filter_In; now split).
    rewrite Hnil in Hf. destruct Hf.
  - constructor.
    + intros Hin. apply in_map_iff in Hin. destruct Hin as [y [Hy Hin]].
      apply in_patched in Hin. destruct Hin as [[x [Hx [Hh ->]]] | [Hin Hh]].
      * rewrite Hg in Hy. apply (Hfree a); [now left | assumption | congruence].
      * apply Hk. apply in_map_iff. exists y. now split.
    + apply IH; [assumption | | assumption].
      intros r Hr. apply Hfree. now right.
Qed.

(** The same, for a column the [SET] list may leave out. *)
Lemma NoDup_patched {A K K'} (same : K -> K -> bool) (proj : K -> K')
    (column : A -> K) (v : option K) (hit : A -> bool) (g : A -> A)
    (l : list A) :
  (forall a b, same a b = true <-> proj a = proj b) ->
  clash same column v hit l = false ->
  (forall r, column (g r) = or_keep v (column r)) ->
  NoDup (map (fun r => proj (column r)) l) ->
  NoDup (map (fun r => proj (column r))
           (map (fun r => if hit r then g r else r) l)).
Proof.
  intros Hsame Hclash Hg Hnd. destruct v as [v |].
  - now apply (NoDup_assigned same proj column v hit g l).
  - rewrite (map_patched (fun r => proj (column r)) hit g l); [assumption |].
    intros y. now rewrite Hg.
Qed.

Lemma clash_others {A K} (same : K -> K -> bool) (column : A -> K) (v : K)
    (hit : A -> bool) (l : list A) (r : A) :
  clash same column (Some v) hit l = false -> In r l -> hit r = false ->
  same (column r) v = false.
Proof.
  intros Hclash Hr Hh. unfold clash in Hclash.
  apply orb_false_iff in Hclash. destruct Hclash as [_ Hrest].
  apply not_true_iff_false. intros Hs.
  assert (Hex : existsb (fun r => same (column r) v)
                  (filter (fun r => negb (hit r)) l) = true).
  { apply existsb_exists. exists r. split; [| assumption].
    apply filter_In. split; [assumption | now rewrite Hh]. }
  congruence.
Qed.

(** *** The statements with a [SET] list *)

Ltac stored H :=
  repeat
    match type of H with
    | (match ?e with inl _ => _ | inr _ => _ end) = _ =>
        let E := fresh "E" in destruct e eqn:E; [discriminate |]
    | (if ?c then _ else _) = _ =>
        let E := fresh "E" in destruct c eqn:E; [discriminate |]
    end.

Lemma insert_user_inv (b : Body) (d d' : Database) (ok : OkPacket) :
  insert_user engine b d = inr (ok, d') ->
  exists row,
    user_exists d (user_id row) = false
    /\ name_used engine (username row) (users d) = false
    /\ ok = mkOk (user_id row) 1
    /\ d' = mkDatabase (users d ++ [row]) (sessions d) (lists d) (items d)
              (permissions d) (past (next_user d) (user_id row))
              (next_session d) (next_list d) (next_item d) (next_permission d).
Proof.
  intros H. unfold insert_user in H. stored H.
  match goal with
  | E : _ || _ = false |- _ => apply orb_false_iff in E; destruct E as [Hid Hname]
  end.
  injection H as <- <-. eexists (mkUser _ _ _ _ _ _). simpl.
  repeat split; assumption.
Qed.

Lemma update_user_inv (b : Body) (uid : option Id) (d d' : Database)
    (ok : OkPacket) :
  update_user engine b uid d = inr (ok, d') ->
  d' = d
  \/ exists old i f l u p s,
       let hit r := sql_eq (user_id r) (Some old) in
       uid = Some old
       /\ filter hit (users d) <> []
       /\ clash N.eqb user_id i hit (users d) = false
       /\ clash (same_name engine) username u hit (users d) = false
       /\ d' = mkDatabase
                 (map (fun r => if hit r then patch_user i f l u p s r else r)
                    (users d))
                 (cascade (sessions_of_renumbered old) i (sessions d))
                 (lists d) (items d)
                 (cascade (permissions_of_renumbered old) i (permissions d))
                 (moved engine (next_user d) i) (next_session d) (next_list d)
                 (next_item d) (next_permission d).
Proof.
  intros H. unfold update_user in H. stored H.
  destruct uid as [old |]; [| left; now injection H as _ <-].
  destruct (filter _ (users d)) as [| x m] eqn:Hf;
    [left; now injection H as _ <- |].
  stored H.
  match goal with
  | E : _ || _ = false |- _ => apply orb_false_iff in E; destruct E as [Hid Hname]
  end.
  injection H as _ <-. right. do 7 eexists. cbv zeta. rewrite Hf.
  split; [reflexivity |]. split; [discriminate |].
  split; [eassumption |]. split; [eassumption |]. reflexivity.
Qed.

Lemma insert_list_inv (b : Body) (d d' : Database) (ok : OkPacket) :
  insert_list engine b d = inr (ok, d') ->
  exists row,
    list_exists d (list_id row) = false
    /\ ok = mkOk (list_id row) 1
    /\ d' = mkDatabase (users d) (sessions d) (lists d ++ [row]) (items d)
              (permissions d) (next_user d) (next_session d)
              (past (next_list d) (list_id row)) (next_item d)
              (next_permission d).
Proof.
  intros H. unfold insert_list in H. stored H.
  injection H as <- <-. eexists (mkList _ _). simpl.
  repeat split; assumption.
Qed.

Lemma update_list_inv (b : Body) (lid : Id) (d d' : Database) (ok : OkPacket) :
  update_list engine b lid d = inr (ok, d') ->
  d' = d
  \/ exists i n,
       let hit r := list_id r =? lid in
       filter hit (lists d) <> []
       /\ clash N.eqb list_id i hit (lists d) = false
       /\ d' = mkDatabase (users d) (sessions d)
                 (map (fun r => if hit r
                                then mkList (or_keep i (list_id r))
                                       (or_keep n (list_name r))
                                else r) (lists d))
                 (cascade (items_of_renumbered lid) i (items d))
                 (cascade (permissions_of_relisted lid) i (permissions d))
                 (next_user d) (next_session d) (moved engine (next_list d) i)
                 (next_item d) (next_permission d).
Proof.
  intros H. unfold update_list in H. stored H.
  destruct (filter _ (lists d)) as [| x m] eqn:Hf;
    [left; now injection H as _ <- |].
  stored H. injection H as _ <-. right. do 2 eexists. cbv zeta. rewrite Hf.
  split; [discriminate |]. split; [eassumption |]. reflexivity.
Qed.

Lemma insert_item_inv (b : Body) (lid : Id) (d d' : Database) (ok : OkPacket) :
  insert_item engine b lid d = inr (ok, d') ->
  exists row,
    item_exists d (item_id row) = false
    /\ item_listId row = lid
    /\ list_exists d lid = true
    /\ ok = mkOk (item_id row) 1
    /\ d' = mkDatabase (users d) (sessions d) (lists d) (items d ++ [row])
              (permissions d) (next_user d) (next_session d) (next_list d)
              (past (next_item d) (item_id row)) (next_permission d).
Proof.
  intros H. unfold insert_item in H. stored H.
  match goal with
  | E : negb (list_exists _ _) = false |- _ => apply negb_false_iff in E
  end.
  injection H as <- <-. eexists (mkItem _ _ _ _ _). simpl.
  repeat split; assumption.
Qed.

Lemma update_item_inv (b : Body) (lid iid : Id) (d d' : Database)
    (ok : OkPacket) :
  update_item engine b lid iid d = inr (ok, d') ->
  d' = d
  \/ exists i l n t s,
       let hit := item_hit lid iid in
       filter hit (items d) <> []
       /\ clash N.eqb item_id i hit (items d) = false
       /\ (forall l', l = Some l' -> list_exists d l' = true)
       /\ d' = mkDatabase (users d) (sessions d) (lists d)
                 (map (fun r => if hit r then patch_item i l n t s r else r)
                    (items d))
                 (permissions d) (next_user d) (next_session d) (next_list d)
                 (moved engine (next_item d) i) (next_permission d).
Proof.
  intros H. unfold update_item in H. stored H.
  destruct (filter _ (items d)) as [| x m] eqn:Hf;
    [left; now injection H as _ <- |].
  stored H. injection H as _ <-. right. do 5 eexists. cbv zeta. rewrite Hf.
  split; [discriminate |]. split; [eassumption |].
  split; [| reflexivity].
  intros l' ->.
  match goal with
  | E : negb (list_exists _ _) = false |- _ => now apply negb_false_iff in E
  end.
Qed.

Lemma update_item_rows (b : Body) (lid iid : Id) (d d' : Database)
    (ok : OkPacket) :
  update_item engine b lid iid d = inr (ok, d') ->
  affectedRows ok = count (item_hit lid iid) (items d).
Proof.
  intros H. unfold update_item in H. stored H.
  destruct (filter _ (items d)) as [| x m] eqn:Hf.
  - injection H as <- _. unfold count. now rewrite Hf.
  - stored H. now injection H as <- _.
Qed.

(** *** Primary keys *)

Lemma NoDup_map_snoc {A} (f : A -> N) (l : list A) (x : A) :
  NoDup (map f l) -> (forall y, In y l -> f y < f x) ->
  NoDup (map f (l ++ [x])).
Proof.
  intros Hnd Hlt. rewrite map_app. simpl. apply NoDup_snoc; [assumption |].
  intros Hin. apply in_map_iff in Hin. destruct Hin as [y [Hy Hin]].
  specialize (Hlt y Hin). lia.
Qed.

Lemma below_snoc {A} (f : A -> N) (l : list A) (x : A) (n : N) :
  (forall y, In y l -> f y < n) -> f x = n ->
  forall y, In y (l ++ [x]) -> f y < n + 1.
Proof.
  intros Hlt Hx y Hin. apply in_app_iff in Hin.
  destruct Hin as [Hin | [<- | []]]; [specialize (Hlt y Hin) |]; lia.
Qed.

Lemma below_filter {A} (P : A -> Prop) (g : A -> bool) (l : list A) :
  (forall y, In y l -> P y) -> forall y, In y (filter g l) -> P y.
Proof. intros H y Hin. apply filter_In in Hin. now apply H. Qed.

Lemma replace_role_ids (uid : option Id) (lid : Id) (r : Role)
    (l : list PermissionRow) :
  map permission_id (replace_role uid lid r l) = map permission_id l.
Proof.
  induction l as [| p l IH]; simpl; [reflexivity |].
  destruct (collides uid lid p); simpl; [reflexivity | now rewrite IH].
Qed.

Lemma below_by_ids {A} (f : A -> N) (l l' : list A) (n : N) :
  map f l' = map f l -> (forall y, In y l -> f y < n) ->
  forall y, In y l' -> f y < n.
Proof.
  intros Hmap Hlt y Hin. apply (in_map f) in Hin. rewrite Hmap in Hin.
  apply in_map_iff in Hin. destruct Hin as [y0 [<- Hin]]. now apply Hlt.
Qed.

Lemma cascade_column {A B} (f : A -> B) (renumber : Id -> list A -> list A)
    (i : option Id) (l : list A) :
  (forall i', map f (renumber i' l) = map f l) ->
  map f (cascade renumber i l) = map f l.
Proof. intros H. destruct i; [apply H | reflexivity]. Qed.

Lemma sessions_of_renumbered_ids (old new : Id) (l : list SessionRow) :
  map session_id (sessions_of_renumbered old new l) = map session_id l.
Proof.
  unfold sessions_of_renumbered. rewrite map_map. apply map_ext.
  intros s. now destruct (session_userId s =? old).
Qed.

Lemma permissions_of_renumbered_ids (old new : Id) (l : list PermissionRow) :
  map permission_id (permissions_of_renumbered old new l) = map permission_id l.
Proof.
  unfold permissions_of_renumbered. rewrite map_map. apply map_ext.
  intros p. now destruct (same_user _ _).
Qed.

Lemma permissions_of_relisted_ids (old new : Id) (l : list PermissionRow) :
  map permission_id (permissions_of_relisted old new l) = map permission_id l.
Proof.
  unfold permissions_of_relisted. rewrite map_map. apply map_ext.
  intros p. now destruct (permission_listId p =? old).
Qed.

Lemma items_of_renumbered_ids (old new : Id) (l : list ItemRow) :
  map item_id (items_of_renumbered old new l) = map item_id l.
Proof.
  unfold items_of_renumbered. rewrite map_map. apply map_ext.
  intros i. now destruct (item_listId i =? old).
Qed.

Lemma NoDup_by_ids {A B} (f : A -> B) (l l' : list A) :
  map f l' = map f l -> NoDup (map f l) -> NoDup (map f l').
Proof. now intros ->. Qed.

Lemma NoDup_new {A} (f : A -> Id) (l : list A) (x : A) :
  NoDup (map f l) -> existsb (fun r => f r =? f x) l = false ->
  NoDup (map f (l ++ [x])).
Proof.
  intros Hnd Hex. rewrite map_app. simpl. apply NoDup_snoc; [assumption |].
  intros Hin. apply in_map_iff in Hin. destruct Hin as [y [Hy Hin]].
  assert (H : existsb (fun r => f r =? f x) l = true)
    by (apply existsb_exists; exists y; split; [assumption | now apply N.eqb_eq]).
  congruence.
Qed.

Ltac keyed_fields :=
  constructor; simpl;
  try assumption;
  try (apply NoDup_map_filter; assumption);
  try (apply below_filter; assumption).

Lemma keyed_insert_permission (uid : option Id) (lid : Id) (r : Role)
    (d d' : Database) (ok : OkPacket) :
  keyed d -> insert_permission uid lid r d = inr (ok, d') -> keyed d'.
Proof.
  intros [] H. unfold insert_permission in H.
  destruct (negb _); [discriminate |].
  destruct (existsb _ _); [discriminate |].
  injection H as _ <-. keyed_fields.
  - now apply NoDup_map_snoc.
  - now apply below_snoc.
Qed.

Lemma keyed_insert_list (b : Body) (d d' : Database) (ok : OkPacket) :
  keyed d -> insert_list engine b d = inr (ok, d') -> keyed d'.
Proof.
  intros [] H. apply insert_list_inv in H.
  destruct H as [row [Hnew [_ ->]]]. keyed_fields.
  now apply NoDup_new.
Qed.

Lemma keyed_closed : Closed keyed.
Proof.
  constructor.
  - intros b d ok d' [] H. apply insert_user_inv in H.
    destruct H as [row [Hnew [_ [_ ->]]]]. keyed_fields.
    now apply NoDup_new.
  - intros b uid d ok d' Hk H. apply update_user_inv in H.
    destruct H as [-> | [old [i [f [l [u [p [s H]]]]]]]]; [assumption |].
    cbv zeta in H. destruct H as [_ [_ [Hid [_ ->]]]].
    destruct Hk. keyed_fields.
    + apply (NoDup_patched N.eqb (fun x => x) user_id i _ _ (users d));
        [apply N.eqb_eq | exact Hid | reflexivity | assumption].
    + apply (NoDup_by_ids session_id (sessions d)); [| assumption].
      apply cascade_column. intros. apply sessions_of_renumbered_ids.
    + apply (below_by_ids session_id (sessions d)); [| assumption].
      apply cascade_column. intros. apply sessions_of_renumbered_ids.
    + apply (NoDup_by_ids permission_id (permissions d)); [| assumption].
      apply cascade_column. intros. apply permissions_of_renumbered_ids.
    + apply (below_by_ids permission_id (permissions d)); [| assumption].
      apply cascade_column. intros. apply permissions_of_renumbered_ids.
  - intros uid d ok d' [] H. unfold delete_user in H.
    injection H as _ <-. keyed_fields.
  - intros uid t d ok d' [] H. unfold insert_session in H.
    destruct uid as [u |]; [| discriminate].
    destruct (user_exists d u); [| discriminate].
    injection H as _ <-. keyed_fields.
    + now apply NoDup_map_snoc.
    + now apply below_snoc.
  - intros sid d ok d' [] H. unfold delete_session in H.
    injection H as _ <-. keyed_fields.
  - intros b d ok d'. apply keyed_insert_list.
  - intros b lid d ok d' Hk H. apply update_list_inv in H.
    destruct H as [-> | [i [n H]]]; [assumption |].
    cbv zeta in H. destruct H as [_ [Hid ->]].
    destruct Hk. keyed_fields.
    + apply (NoDup_patched N.eqb (fun x => x) list_id i _ _ (lists d));
        [apply N.eqb_eq | exact Hid | reflexivity | assumption].
    + apply (NoDup_by_ids item_id (items d)); [| assumption].
      apply cascade_column. intros. apply items_of_renumbered_ids.
    + apply (NoDup_by_ids permission_id (permissions d)); [| assumption].
      apply cascade_column. intros. apply permissions_of_relisted_ids.
    + apply (below_by_ids permission_id (permissions d)); [| assumption].
      apply cascade_column. intros. apply permissions_of_relisted_ids.
  - intros hit d []. unfold drop_lists. keyed_fields.
  - intros b uid d ok d1 ok' d2 Hk H1 H2.
    eapply keyed_insert_permission; [| exact H2].
    exact (keyed_insert_list b d d1 ok Hk H1).
  - intros uid lid r d ok d' [] H. unfold upsert_permission in H.
    destruct (existsb _ _).
    + injection H as _ <-. keyed_fields.
      * now rewrite replace_role_ids.
      * apply (below_by_ids permission_id (permissions d));
          [apply replace_role_ids | assumption].
    + destruct (negb _); [discriminate |].
      injection H as _ <-. keyed_fields.
      * now apply NoDup_map_snoc.
      * now apply below_snoc.
  - intros uid lid d ok d' [] H. unfold delete_permission in H.
    injection H as _ <-. keyed_fields.
  - intros b lid d ok d' [] H. apply insert_item_inv in H.
    destruct H as [row [Hnew [_ [_ [_ ->]]]]]. keyed_fields.
    now apply NoDup_new.
  - intros b lid iid d ok d' Hk H. apply update_item_inv in H.
    destruct H as [-> | [i [l [n [t [s H]]]]]]; [assumption |].
    cbv zeta in H. destruct H as [_ [Hid [_ ->]]].
    destruct Hk. keyed_fields.
    apply (NoDup_patched N.eqb (fun x => x) item_id i _ _ (items d));
      [apply N.eqb_eq | exact Hid | reflexivity | assumption].
  - intros lid iid d ok d' [] H. unfold delete_item in H.
    injection H as _ <-. keyed_fields.
  - intros t d ok d' [] H. unfold delete_expired_sessions in H.
    injection H as _ <-. keyed_fields.
Qed.

Lemma init_keyed : keyed init.
Proof.
  constructor; simpl; try constructor; intros x [].
Qed.

(** *** Foreign keys *)

Lemma list_exists_iff (d : Database) (l : Id) :
  list_exists d l = true <-> In l (map list_id (lists d)).
Proof. apply list_exists_in. Qed.

(** The foreign keys hold in new tables when no user and no list has
    gone, and every row of a referencing table either takes its
    references from a row that was there or refers to rows that are
    there now. *)
Lemma referenced_by (d d' : Database) :
  referenced d ->
  (forall u, user_exists d u = true -> user_exists d' u = true) ->
  (forall l, list_exists d l = true -> list_exists d' l = true) ->
  (forall s, In s (sessions d') ->
     (exists s0, In s0 (sessions d) /\ session_userId s0 = session_userId s)
     \/ user_exists d' (session_userId s) = true) ->
  (forall i, In i (items d') ->
     (exists i0, In i0 (items d) /\ item_listId i0 = item_listId i)
     \/ list_exists d' (item_listId i) = true) ->
  (forall p, In p (permissions d') ->
     (exists p0, In p0 (permissions d)
                 /\ permission_userId p0 = permission_userId p
                 /\ permission_listId p0 = permission_listId p)
     \/ ((forall u, permission_userId p = Some u -> user_exists d' u = true)
         /\ list_exists d' (permission_listId p) = true)) ->
  referenced d'.
Proof.
  intros [Hs Hi Hpu Hpl] Hu Hl Hs' Hi' Hp'. constructor.
  - intros s Hin. destruct (Hs' s Hin) as [[s0 [Hin0 Heq]] | H]; [| exact H].
    rewrite <- Heq. apply Hu. now apply Hs.
  - intros i Hin. destruct (Hi' i Hin) as [[i0 [Hin0 Heq]] | H]; [| exact H].
    rewrite <- Heq. apply Hl. now apply Hi.
  - intros p u Hin Hsome.
    destruct (Hp' p Hin) as [[p0 [Hin0 [Heq _]]] | [H _]]; [| now apply H].
    apply Hu. apply (Hpu p0 u Hin0). now rewrite Heq.
  - intros p Hin.
    destruct (Hp' p Hin) as [[p0 [Hin0 [_ Heq]]] | [_ H]]; [| exact H].
    rewrite <- Heq. apply Hl. now apply Hpl.
Qed.

Lemma kept {A B} (f : A -> B) (l : list A) (x : A) :
  In x l -> exists x0, In x0 l /\ f x0 = f x.
Proof. intros H. now exists x. Qed.

Lemma kept_filter {A B} (f : A -> B) (g : A -> bool) (l : list A) (x : A) :
  In x (filter g l) -> exists x0, In x0 l /\ f x0 = f x.
Proof. intros H. apply filter_In in H. exists x. now split. Qed.

Lemma kept_patched {A B} (f : A -> B) (hit : A -> bool) (g : A -> A)
    (l : list A) (x : A) :
  (forall y, f (g y) = f y) ->
  In x (map (fun y => if hit y then g y else y) l) ->
  exists x0, In x0 l /\ f x0 = f x.
Proof.
  intros Hg H. apply in_map_iff in H. destruct H as [x0 [<- Hin]].
  exists x0. split; [assumption |]. destruct (hit x0); [now rewrite Hg | reflexivity].
Qed.

Lemma exists_after_snoc {A} (f : A -> bool) (l : list A) (x : A) :
  existsb f l = true -> existsb f (l ++ [x]) = true.
Proof. intros H. rewrite existsb_app, H. reflexivity. Qed.


Lemma exists_after_patch {A} (f : A -> N) (hit : A -> bool) (g : A -> A)
    (l : list A) (n : N) :
  (forall y, f (g y) = f y) ->
  existsb (fun y => f y =? n) l = true ->
  existsb (fun y => f y =? n) (map (fun y => if hit y then g y else y) l) = true.
Proof.
  intros Hg H. apply existsb_exists in H. destruct H as [y [Hin Hy]].
  apply existsb_exists. exists (if hit y then g y else y). split.
  - apply in_map_iff. now exists y.
  - destruct (hit y); [now rewrite Hg | assumption].
Qed.

Lemma replace_role_kept (uid : option Id) (lid : Id) (r : Role)
    (l : list PermissionRow) (p : PermissionRow) :
  In p (replace_role uid lid r l) ->
  exists p0, In p0 l /\ permission_userId p0 = permission_userId p
             /\ permission_listId p0 = permission_listId p.
Proof.
  induction l as [| q l IH]; simpl; [intros [] |].
  destruct (collides uid lid q).
  - intros [<- | Hin]; [exists q; simpl; auto | exists p; auto].
  - intros [<- | Hin]; [exists q; auto |].
    destruct (IH Hin) as [p0 [H0 H1]]. exists p0. auto.
Qed.

Ltac old_rows :=
  intros ? ?; left;
  first [ eapply kept; eassumption
        | eapply kept_filter; eassumption
        | eapply kept_patched; [intro; reflexivity | eassumption] ].

Ltac old_permissions :=
  let p := fresh "p" in
  let Hin := fresh "Hin" in
  intros p Hin; left;
  first [ exists p; split; [exact Hin | split; reflexivity]
        | apply filter_In in Hin; exists p; split; [apply Hin | split; reflexivity] ].

Lemma exists_kept_patch {A} (f : A -> N) (hit : A -> bool) (g : A -> A)
    (l : list A) (n : N) :
  (forall y, hit y = true -> f y <> n) ->
  existsb (fun y => f y =? n) l = true ->
  existsb (fun y => f y =? n) (map (fun y => if hit y then g y else y) l) = true.
Proof.
  intros Hg H. apply existsb_exists in H. destruct H as [y [Hin Hy]].
  apply existsb_exists. exists y. split; [| assumption].
  apply in_map_iff. exists y. split; [| assumption].
  destruct (hit y) eqn:Hh; [| reflexivity].
  apply N.eqb_eq in Hy. now apply Hg in Hh.
Qed.

Lemma exists_new_patch {A} (f : A -> N) (hit : A -> bool) (g : A -> A)
    (l : list A) (n : N) :
  filter hit l <> [] -> (forall y, f (g y) = n) ->
  existsb (fun y => f y =? n) (map (fun y => if hit y then g y else y) l) = true.
Proof.
  intros Hne Hg. destruct (filter hit l) as [| x m] eqn:Hf; [congruence |].
  apply filter_cons_in in Hf. destruct Hf as [Hin Hx].
  apply existsb_exists. exists (g x). split.
  - apply in_map_iff. exists x. now rewrite Hx.
  - rewrite Hg. apply N.eqb_refl.
Qed.

Lemma referenced_insert_list (b : Body) (d d' : Database) (ok : OkPacket) :
  referenced d -> insert_list engine b d = inr (ok, d') -> referenced d'.
Proof.
  intros Hr H. apply insert_list_inv in H. destruct H as [row [_ [_ ->]]].
  apply (referenced_by d); simpl;
    [assumption | auto | | old_rows | old_rows | old_permissions].
  intros l. unfold list_exists. simpl. apply exists_after_snoc.
Qed.

Lemma referenced_insert_permission (uid : option Id) (lid : Id) (r : Role)
    (d d' : Database) (ok : OkPacket) :
  referenced d -> insert_permission uid lid r d = inr (ok, d') -> referenced d'.
Proof.
  intros Hr H. unfold insert_permission in H.
  destruct (permission_refs_ok uid lid d) eqn:Hrefs; simpl in H;
    [| discriminate].
  destruct (existsb _ _); [discriminate |].
  injection H as _ <-. apply (referenced_by d); simpl;
    [assumption | auto | auto | old_rows | old_rows |].
  intros p Hin. apply in_app_iff in Hin.
  destruct Hin as [Hin | [<- | []]]; [left; exists p; auto |].
  right. simpl. apply andb_true_iff in Hrefs. destruct Hrefs as [Hu Hl].
  split; [| exact Hl]. intros u ->. exact Hu.
Qed.

Lemma referenced_upsert (uid lid : Id) (r : Role) (d d' : Database)
    (ok : OkPacket) :
  referenced d -> upsert_permission (Some uid) lid r d = inr (ok, d') ->
  referenced d'.
Proof.
  intros Hr H. unfold upsert_permission in H.
  destruct (existsb _ _).
  - injection H as _ <-. apply (referenced_by d); simpl;
      [assumption | auto | auto | old_rows | old_rows |].
    intros p Hin. left. now apply (replace_role_kept (Some uid) lid r).
  - destruct (permission_refs_ok (Some uid) lid d) eqn:Hrefs; simpl in H;
      [| discriminate].
    injection H as _ <-. apply (referenced_by d); simpl;
      [assumption | auto | auto | old_rows | old_rows |].
    intros p Hin. apply in_app_iff in Hin.
    destruct Hin as [Hin | [<- | []]]; [left; exists p; auto |].
    right. simpl. apply andb_true_iff in Hrefs. destruct Hrefs as [Hu Hl].
    split; [| exact Hl]. intros u [= <-]. exact Hu.
Qed.

Lemma referenced_closed : Closed referenced.
Proof.
  constructor.
  - intros b d ok d' Hr H. apply insert_user_inv in H.
    destruct H as [row [_ [_ [_ ->]]]]. apply (referenced_by d); simpl;
      [assumption | | auto | old_rows | old_rows | old_permissions].
    intros u. unfold user_exists. simpl. apply exists_after_snoc.
  - intros b uid d ok d' Hr H. apply update_user_inv in H.
    destruct H as [-> | [old [i [f [l [u [p [s H]]]]]]]]; [assumption |].
    cbv zeta in H. destruct H as [_ [Hhit [_ [_ ->]]]].
    destruct i as [new |]; unfold cascade.
    + destruct Hr as [Hs Hi Hpu Hpl].
      assert (Hstay : forall v,
                user_exists d v = true -> v <> old ->
                existsb (fun r => user_id r =? v)
                  (map (fun r => if sql_eq (user_id r) (Some old)
                                 then patch_user (Some new) f l u p s r else r)
                     (users d)) = true).
      { intros v Hv Hne. apply (exists_kept_patch user_id); [| exact Hv].
        intros y Hy. simpl in Hy. apply N.eqb_eq in Hy. congruence. }
      assert (Hnew : existsb (fun r => user_id r =? new)
                       (map (fun r => if sql_eq (user_id r) (Some old)
                                      then patch_user (Some new) f l u p s r
                                      else r)
                          (users d)) = true).
      { apply (exists_new_patch user_id); [exact Hhit | reflexivity]. }
      constructor; unfold user_exists, list_exists; simpl.
      * intros s' Hin. unfold sessions_of_renumbered in Hin.
        apply in_map_iff in Hin. destruct Hin as [s0 [<- Hin]].
        destruct (session_userId s0 =? old) eqn:E; simpl; [exact Hnew |].
        apply Hstay; [now apply Hs | now apply N.eqb_neq].
      * exact Hi.
      * intros q v Hin Hsome. unfold permissions_of_renumbered in Hin.
        apply in_map_iff in Hin. destruct Hin as [q0 [<- Hin]].
        destruct (same_user (permission_userId q0) (Some old)) eqn:E;
          simpl in Hsome.
        -- injection Hsome as <-. exact Hnew.
        -- apply Hstay; [now apply (Hpu q0) |].
           intros ->. rewrite Hsome in E. simpl in E.
           now rewrite N.eqb_refl in E.
      * intros q Hin. unfold permissions_of_renumbered in Hin.
        apply in_map_iff in Hin. destruct Hin as [q0 [<- Hin]].
        destruct (same_user (permission_userId q0) (Some old)); simpl;
          now apply Hpl.
    + apply (referenced_by d); simpl;
        [assumption | | auto | old_rows | old_rows | old_permissions].
      intros v. unfold user_exists. simpl.
      apply (exists_after_patch user_id). intro. reflexivity.
  - intros uid d ok d' [Hs Hi Hpu Hpl] H. unfold delete_user in H.
    injection H as _ <-.
    assert (Hstay : forall u,
              user_exists d u = true ->
              mem_id u (map user_id
                          (filter (fun r => sql_eq (user_id r) uid) (users d)))
              = false ->
              existsb (fun r => user_id r =? u)
                (filter (fun r => negb (sql_eq (user_id r) uid)) (users d))
              = true).
    { intros u Hex Hgone. unfold user_exists in Hex.
      apply existsb_exists in Hex. destruct Hex as [r [Hin Heq]].
      apply existsb_exists. exists r. split; [| assumption].
      apply filter_In. split; [assumption |].
      apply negb_true_iff. apply not_true_iff_false. intros Hhit.
      apply not_true_iff_false in Hgone. apply Hgone. apply mem_id_in.
      apply N.eqb_eq in Heq. rewrite <- Heq. apply in_map.
      apply filter_In. now split. }
    constructor; unfold user_exists, list_exists; simpl.
    + intros s Hin. apply filter_In in Hin. destruct Hin as [Hin Hkeep].
      apply Hstay; [now apply Hs | now apply negb_true_iff in Hkeep].
    + assumption.
    + intros p u Hin Hsome. apply filter_In in Hin. destruct Hin as [Hin Hkeep].
      rewrite Hsome in Hkeep.
      apply Hstay; [now apply (Hpu p) | now apply negb_true_iff in Hkeep].
    + intros p Hin. apply filter_In in Hin. now apply Hpl.
  - intros uid t d ok d' Hr H. unfold insert_session in H.
    destruct uid as [u |]; [| discriminate].
    destruct (user_exists d u) eqn:Hu; [| discriminate].
    injection H as _ <-. apply (referenced_by d); simpl;
      [assumption | auto | auto | | old_rows | old_permissions].
    intros s Hin. apply in_app_iff in Hin.
    destruct Hin as [Hin | [<- | []]]; [left; now exists s | right; exact Hu].
  - intros sid d ok d' Hr H. unfold delete_session in H.
    injection H as _ <-. apply (referenced_by d); simpl;
      [assumption | auto | auto | old_rows | old_rows | old_permissions].
  - intros b d ok d'. apply referenced_insert_list.
  - intros b lid d ok d' Hr H. apply update_list_inv in H.
    destruct H as [-> | [i [n H]]]; [assumption |].
    cbv zeta in H. destruct H as [Hhit [_ ->]].
    destruct i as [new |]; unfold cascade.
    + destruct Hr as [Hs Hi Hpu Hpl].
      assert (Hstay : forall v,
                list_exists d v = true -> v <> lid ->
                existsb (fun r => list_id r =? v)
                  (map (fun r => if list_id r =? lid
                                 then mkList (or_keep (Some new) (list_id r))
                                        (or_keep n (list_name r))
                                 else r)
                     (lists d)) = true).
      { intros v Hv Hne. apply (exists_kept_patch list_id); [| exact Hv].
        intros y Hy. apply N.eqb_eq in Hy. congruence. }
      assert (Hnew : existsb (fun r => list_id r =? new)
                       (map (fun r => if list_id r =? lid
                                      then mkList (or_keep (Some new) (list_id r))
                                             (or_keep n (list_name r))
                                      else r)
                          (lists d)) = true).
      { apply (exists_new_patch list_id); [exact Hhit | reflexivity]. }
      constructor; unfold user_exists, list_exists; simpl.
      * exact Hs.
      * intros it Hin. unfold items_of_renumbered in Hin.
        apply in_map_iff in Hin. destruct Hin as [i0 [<- Hin]].
        destruct (item_listId i0 =? lid) eqn:E; simpl; [exact Hnew |].
        apply Hstay; [now apply Hi | now apply N.eqb_neq].
      * intros q v Hin Hsome. unfold permissions_of_relisted in Hin.
        apply in_map_iff in Hin. destruct Hin as [q0 [<- Hin]].
        apply (Hpu q0); [assumption |].
        destruct (permission_listId q0 =? lid); exact Hsome.
      * intros q Hin. unfold permissions_of_relisted in Hin.
        apply in_map_iff in Hin. destruct Hin as [q0 [<- Hin]].
        destruct (permission_listId q0 =? lid) eqn:E; simpl; [exact Hnew |].
        apply Hstay; [now apply Hpl | now apply N.eqb_neq].
    + apply (referenced_by d); simpl;
        [assumption | auto | | old_rows | old_rows | old_permissions].
      intros v. unfold list_exists. simpl.
      apply (exists_after_patch list_id). intro. reflexivity.
  - intros hit d [Hs Hi Hpu Hpl]. unfold drop_lists.
    assert (Hstay : forall l,
              list_exists d l = true ->
              mem_id l (map list_id (filter hit (lists d))) = false ->
              existsb (fun r => list_id r =? l)
                (filter (fun r => negb (hit r)) (lists d)) = true).
    { intros l Hex Hgone. unfold list_exists in Hex.
      apply existsb_exists in Hex. destruct Hex as [r [Hin Heq]].
      apply existsb_exists. exists r. split; [| assumption].
      apply filter_In. split; [assumption |].
      apply negb_true_iff. apply not_true_iff_false. intros Hhit.
      apply not_true_iff_false in Hgone. apply Hgone. apply mem_id_in.
      apply N.eqb_eq in Heq. rewrite <- Heq. apply in_map.
      apply filter_In. now split. }
    constructor; unfold user_exists, list_exists; simpl.
    + assumption.
    + intros i Hin. apply filter_In in Hin. destruct Hin as [Hin Hkeep].
      apply Hstay; [now apply Hi | now apply negb_true_iff in Hkeep].
    + intros p u Hin Hsome. apply filter_In in Hin. destruct Hin as [Hin _].
      now apply (Hpu p).
    + intros p Hin. apply filter_In in Hin. destruct Hin as [Hin Hkeep].
      apply Hstay; [now apply Hpl | now apply negb_true_iff in Hkeep].
  - intros b uid d ok d1 ok' d2 Hr H1 H2.
    eapply referenced_insert_permission; [| exact H2].
    exact (referenced_insert_list b d d1 ok Hr H1).
  - intros uid lid r d ok d'. apply referenced_upsert.
  - intros uid lid d ok d' Hr H. unfold delete_permission in H.
    injection H as _ <-. apply (referenced_by d); simpl;
      [assumption | auto | auto | old_rows | old_rows | old_permissions].
  - intros b lid d ok d' Hr H. apply insert_item_inv in H.
    destruct H as [row [_ [Hlid [Hl [_ ->]]]]].
    apply (referenced_by d); simpl;
      [assumption | auto | auto | old_rows | | old_permissions].
    intros it Hin. apply in_app_iff in Hin.
    destruct Hin as [Hin | [<- | []]]; [left; now exists it |].
    right. now rewrite Hlid.
  - intros b lid iid d ok d' Hr H. apply update_item_inv in H.
    destruct H as [-> | [i [l [n [t [s H]]]]]]; [assumption |].
    cbv zeta in H. destruct H as [_ [_ [Hl ->]]].
    apply (referenced_by d); simpl;
      [assumption | auto | auto | old_rows | | old_permissions].
    intros it Hin. apply in_patched in Hin.
    destruct Hin as [[x [Hx [Hh ->]]] | [Hin Hh]]; [| left; now exists it].
    destruct l as [l' |]; simpl.
    + right. now apply Hl.
    + left. now exists x.
  - intros lid iid d ok d' Hr H. unfold delete_item in H.
    injection H as _ <-. apply (referenced_by d); simpl;
      [assumption | auto | auto | old_rows | old_rows | old_permissions].
  - intros t d ok d' Hr H. unfold delete_expired_sessions in H.
    injection H as _ <-. apply (referenced_by d); simpl;
      [assumption | auto | auto | old_rows | old_rows | old_permissions].
Qed.

Lemma init_referenced : referenced init.
Proof. constructor; simpl; intros; contradiction. Qed.

(** ** The uniqueness of permission keys in every reachable state *)

Lemma holds_key (uid : option Id) (lid : Id) (p : PermissionRow) :
  holds uid lid p = true <-> key p = (uid, lid).
Proof.
  unfold holds, key. rewrite andb_true_iff, same_user_eq, N.eqb_eq.
  split; [intros [-> ->]; reflexivity | intros H; inversion H; auto].
Qed.

Lemma holds_none_filter (uid : option Id) (lid : Id) (l : list PermissionRow) :
  ~ In (uid, lid) (map key l) -> filter (holds uid lid) l = [].
Proof.
  induction l as [| p l IH]; simpl; intros Hn; [reflexivity |].
  destruct (holds uid lid p) eqn:Hp.
  - exfalso. apply Hn. left. now apply holds_key.
  - apply IH. intros Hin. apply Hn. now right.
Qed.

Lemma unique_key_once (uid : option Id) (lid : Id) (l : list PermissionRow) :
  NoDup (map key l) -> (List.length (filter (holds uid lid) l) <= 1)%nat.
Proof.
  induction l as [| p l IH]; simpl; intros Hnd; [lia |].
  inversion Hnd as [| k ks Hnotin Hrest]; subst.
  destruct (holds uid lid p) eqn:Hp.
  - apply holds_key in Hp. rewrite Hp in Hnotin.
    rewrite (holds_none_filter uid lid l Hnotin). simpl. lia.
  - now apply IH.
Qed.

Lemma replace_role_keys (uid : option Id) (lid : Id) (r : Role)
    (l : list PermissionRow) :
  map key (replace_role uid lid r l) = map key l.
Proof.
  induction l as [| p l IH]; simpl; [reflexivity |].
  destruct (collides uid lid p); simpl; [reflexivity | now rewrite IH].
Qed.

Lemma collides_some (u lid : Id) (p : PermissionRow) :
  collides (Some u) lid p = holds (Some u) lid p.
Proof. reflexivity. Qed.

(** The keys stay apart under a change of the rows that sends different
    keys to different keys. *)
Lemma NoDup_keys_moved (h : PermissionRow -> PermissionRow)
    (l : list PermissionRow) :
  (forall p q, In p l -> In q l -> key (h p) = key (h q) -> key p = key q) ->
  NoDup (map key l) -> NoDup (map key (map h l)).
Proof.
  induction l as [| a l IH]; simpl; intros Hinj Hnd; [constructor |].
  inversion Hnd as [| k ks Hk Hl]; subst. constructor.
  - intros Hin. apply in_map_iff in Hin. destruct Hin as [y [Hy Hin]].
    apply in_map_iff in Hin. destruct Hin as [q [<- Hq]].
    apply Hk. apply in_map_iff. exists q. split; [| assumption].
    apply Hinj; [now right | now left | assumption].
  - apply IH; [| assumption]. intros p q Hp Hq. apply Hinj; now right.
Qed.

(** [ON UPDATE CASCADE] from [todo.users]: no permission row has the new
    id yet. *)
Lemma renumbered_keys (old new : Id) (l : list PermissionRow) :
  (new = old \/ forall p, In p l -> permission_userId p <> Some new) ->
  NoDup (map key l) -> NoDup (map key (permissions_of_renumbered old new l)).
Proof.
  intros Hfree. unfold permissions_of_renumbered. apply NoDup_keys_moved.
  intros p q Hp Hq. unfold key.
  destruct Hfree as [-> | Hfree].
  - destruct (same_user (permission_userId p) (Some old)) eqn:Ep;
      destruct (same_user (permission_userId q) (Some old)) eqn:Eq; simpl;
      try apply same_user_eq in Ep; try apply same_user_eq in Eq;
      congruence.
  - pose proof (Hfree p Hp) as Hp'. pose proof (Hfree q Hq) as Hq'.
    destruct (same_user (permission_userId p) (Some old)) eqn:Ep;
      destruct (same_user (permission_userId q) (Some old)) eqn:Eq; simpl;
      try apply same_user_eq in Ep; try apply same_user_eq in Eq;
      congruence.
Qed.

(** [ON UPDATE CASCADE] from [todo.lists]. *)
Lemma relisted_keys (old new : Id) (l : list PermissionRow) :
  (new = old \/ forall p, In p l -> permission_listId p <> new) ->
  NoDup (map key l) -> NoDup (map key (permissions_of_relisted old new l)).
Proof.
  intros Hfree. unfold permissions_of_relisted. apply NoDup_keys_moved.
  intros p q Hp Hq. unfold key.
  destruct Hfree as [-> | Hfree].
  - destruct (permission_listId p =? old) eqn:Ep;
      destruct (permission_listId q =? old) eqn:Eq; simpl;
      try apply N.eqb_eq in Ep; try apply N.eqb_eq in Eq; congruence.
  - pose proof (Hfree p Hp) as Hp'. pose proof (Hfree q Hq) as Hq'.
    destruct (permission_listId p =? old) eqn:Ep;
      destruct (permission_listId q =? old) eqn:Eq; simpl;
      try apply N.eqb_eq in Ep; try apply N.eqb_eq in Eq; congruence.
Qed.

(** An id that is assigned is the id of no other row. *)
Lemma assigned_is_new {A} (f : A -> Id) (new old : Id) (l : list A) :
  clash N.eqb f (Some new) (fun r => f r =? old) l = false ->
  In new (map f l) -> new = old.
Proof.
  intros Hclash Hin. apply in_map_iff in Hin. destruct Hin as [r [Hr Hin]].
  destruct (f r =? old) eqn:E; [apply N.eqb_eq in E; congruence |].
  pose proof (clash_others N.eqb f new _ l r Hclash Hin E) as Hne.
  apply N.eqb_neq in Hne. congruence.
Qed.

Lemma keys_add (uid : option Id) (lid : Id) (r : Role) (d : Database) :
  NoDup (keys d) -> ~ In (uid, lid) (keys d) ->
  NoDup (keys (snd (add_permission uid lid r d))).
Proof.
  intros Hu Hfresh. unfold keys in *. simpl. rewrite map_app. simpl.
  now apply NoDup_snoc.
Qed.

Lemma upsert_consistent (u lid : Id) (r : Role) (d d' : Database)
    (ok : OkPacket) :
  consistent d -> upsert_permission (Some u) lid r d = inr (ok, d') ->
  consistent d'.
Proof.
  intros [Hu Hr] H. constructor; [| exact (referenced_upsert _ _ _ _ _ _ Hr H)].
  unfold upsert_permission in H.
  destruct (existsb (collides (Some u) lid) (permissions d)) eqn:Hex.
  - injection H as _ <-. unfold keys. simpl. now rewrite replace_role_keys.
  - destruct (negb _); [discriminate |]. injection H as _ <-.
    apply keys_add; [exact Hu |]. unfold keys. intros Hin.
    apply in_map_iff in Hin. destruct Hin as [q [Hkey Hq]].
    assert (Hno : existsb (collides (Some u) lid) (permissions d) = true).
    { apply existsb_exists. exists q. split; [assumption |].
      rewrite collides_some. now apply holds_key. }
    congruence.
Qed.

Lemma consistent_closed : Closed consistent.
Proof.
  constructor.
  - intros b d ok d' [Hu Hr] H. constructor;
      [| exact (closed_insert_user _ referenced_closed _ _ _ _ Hr H)].
    apply insert_user_inv in H. destruct H as [row [_ [_ [_ ->]]]]. exact Hu.
  - intros b uid d ok d' [Hu Hr] H. constructor;
      [| exact (closed_update_user _ referenced_closed _ _ _ _ _ Hr H)].
    apply update_user_inv in H.
    destruct H as [-> | [old [i [f [l [u [p [s H]]]]]]]]; [assumption |].
    cbv zeta in H. destruct H as [_ [_ [Hid [_ ->]]]].
    unfold keys. simpl. destruct i as [new |]; simpl; [| exact Hu].
    apply renumbered_keys; [| exact Hu].
    destruct (N.eq_dec new old) as [Heq | Hne]; [now left | right].
    intros q Hq Hsome. apply Hne.
    apply (assigned_is_new user_id new old (users d)); [exact Hid |].
    apply user_exists_in. exact (permission_user d Hr q new Hq Hsome).
  - intros uid d ok d' [Hu Hr] H. constructor;
      [| exact (closed_delete_user _ referenced_closed _ _ _ _ Hr H)].
    unfold delete_user in H. injection H as _ <-. unfold keys. simpl.
    now apply NoDup_map_filter.
  - intros uid t d ok d' [Hu Hr] H. constructor;
      [| exact (closed_insert_session _ referenced_closed _ _ _ _ _ Hr H)].
    unfold insert_session in H. destruct uid; [| discriminate].
    destruct (user_exists d i); [| discriminate].
    injection H as _ <-. exact Hu.
  - intros sid d ok d' [Hu Hr] H. constructor;
      [| exact (closed_delete_session _ referenced_closed _ _ _ _ Hr H)].
    unfold delete_session in H. injection H as _ <-. exact Hu.
  - intros b d ok d' [Hu Hr] H. constructor;
      [| exact (closed_insert_list _ referenced_closed _ _ _ _ Hr H)].
    apply insert_list_inv in H. destruct H as [row [_ [_ ->]]]. exact Hu.
  - intros b lid d ok d' [Hu Hr] H. constructor;
      [| exact (closed_update_list _ referenced_closed _ _ _ _ _ Hr H)].
    apply update_list_inv in H.
    destruct H as [-> | [i [n H]]]; [assumption |].
    cbv zeta in H. destruct H as [_ [Hid ->]].
    unfold keys. simpl. destruct i as [new |]; simpl; [| exact Hu].
    apply relisted_keys; [| exact Hu].
    destruct (N.eq_dec new lid) as [Heq | Hne]; [now left | right].
    intros q Hq Hsome. apply Hne.
    apply (assigned_is_new list_id new lid (lists d)); [exact Hid |].
    apply list_exists_in. rewrite <- Hsome. exact (permission_list d Hr q Hq).
  - intros hit d [Hu Hr]. constructor;
      [| exact (closed_drop_lists _ referenced_closed _ _ Hr)].
    unfold drop_lists, keys. simpl. now apply NoDup_map_filter.
  - intros b uid d ok d1 ok' d2 [Hu Hr] H1 H2. constructor;
      [| exact (closed_insert_owner _ referenced_closed _ _ _ _ _ _ _ Hr H1 H2)].
    apply insert_list_inv in H1. destruct H1 as [row [Hnew [-> ->]]].
    unfold insert_permission in H2. simpl in H2.
    destruct (negb _); [discriminate |].
    destruct (existsb _ _); [discriminate |].
    injection H2 as _ <-. apply keys_add; [exact Hu |].
    unfold keys. simpl. intros Hin. apply in_map_iff in Hin.
    destruct Hin as [q [Hkey Hq]]. unfold key in Hkey.
    injection Hkey as _ Hlist.
    pose proof (permission_list d Hr q Hq) as Hex. rewrite Hlist in Hex.
    congruence.
  - intros u lid r d ok d'. apply upsert_consistent.
  - intros uid lid d ok d' [Hu Hr] H. constructor;
      [| exact (closed_delete_permission _ referenced_closed _ _ _ _ _ Hr H)].
    unfold delete_permission in H. injection H as _ <-. unfold keys. simpl.
    now apply NoDup_map_filter.
  - intros b lid d ok d' [Hu Hr] H. constructor;
      [| exact (closed_insert_item _ referenced_closed _ _ _ _ _ Hr H)].
    apply insert_item_inv in H. destruct H as [row [_ [_ [_ [_ ->]]]]].
    exact Hu.
  - intros b lid iid d ok d' [Hu Hr] H. constructor;
      [| exact (closed_update_item _ referenced_closed _ _ _ _ _ _ Hr H)].
    apply update_item_inv in H.
    destruct H as [-> | [i [l [n [t [s H]]]]]]; [assumption |].
    cbv zeta in H. destruct H as [_ [_ [_ ->]]]. exact Hu.
  - intros lid iid d ok d' [Hu Hr] H. constructor;
      [| exact (closed_delete_item _ referenced_closed _ _ _ _ _ Hr H)].
    unfold delete_item in H. injection H as _ <-. exact Hu.
  - intros t d ok d' [Hu Hr] H. constructor;
      [| exact (closed_delete_expired _ referenced_closed _ _ _ _ Hr H)].
    unfold delete_expired_sessions in H. injection H as _ <-. exact Hu.
Qed.

Lemma init_consistent : consistent init.
Proof.
  constructor; [constructor | exact init_referenced].
Qed.

Lemma reachable_consistent (d : Database) : reachable d -> consistent d.
Proof. exact (reachable_closed consistent d init_consistent consistent_closed). Qed.

Lemma grant_keeps (target lid : Id) (given : option string) :
  maintains consistent (grant target lid given).
Proof.
  unfold grant. repeat maintains_step.
  apply maintains_query. intros d ok d'. apply upsert_consistent.
Qed.

(** *** What the upsert does to the rows *)

Lemma replace_role_other (k : option Id) (lid : Id) (r : Role)
    (k' : option Id) (lid' : Id) (l : list PermissionRow) :
  (k', lid') <> (k, lid) ->
  filter (holds k' lid') (replace_role k lid r l) = filter (holds k' lid') l.
Proof.
  intros Hne. induction l as [| p l IH]; simpl; [reflexivity |].
  destruct (collides k lid p) eqn:Hc; simpl.
  - destruct k as [u |]; [| discriminate]. rewrite collides_some in Hc.
    apply holds_key in Hc.
    assert (H1 : holds k' lid' p = false).
    { apply not_true_iff_false. intros H. apply holds_key in H. congruence. }
    assert (H2 : holds k' lid'
                   (mkPermission (permission_id p) (permission_userId p)
                      (permission_listId p) r) = false).
    { apply not_true_iff_false. intros H. apply holds_key in H.
      unfold key in *. simpl in *. congruence. }
    now rewrite H1, H2.
  - now rewrite IH.
Qed.

Lemma replace_role_found (u lid : Id) (r : Role) (l : list PermissionRow)
    (p : PermissionRow) :
  find (holds (Some u) lid) l = Some p ->
  find (holds (Some u) lid) (replace_role (Some u) lid r l)
    = Some (mkPermission (permission_id p) (Some u) lid r)
  /\ List.length (replace_role (Some u) lid r l) = List.length l
  /\ replace_role (Some u) lid r (replace_role (Some u) lid r l)
       = replace_role (Some u) lid r l.
Proof.
  induction l as [| q l IH]; simpl; [discriminate |].
  destruct (holds (Some u) lid q) eqn:Hq; simpl.
  - intros H. inversion H; subst q. clear H.
    assert (Hk := Hq). apply holds_key in Hk. unfold key in Hk.
    inversion Hk as [[Hu Hl]].
    assert (Hnew : holds (Some u) lid
                     (mkPermission (permission_id p) (Some u) lid r) = true).
    { apply holds_key. reflexivity. }
    rewrite Hu, Hl. simpl. rewrite Hnew. auto.
  - intros H. destruct (IH H) as [Hf [Hlen Hidem]].
    rewrite Hq, Hf, Hlen, Hidem. auto.
Qed.

Lemma find_holds_exists (uid : option Id) (lid : Id) (l : list PermissionRow) :
  existsb (holds uid lid) l = true <-> exists p, find (holds uid lid) l = Some p.
Proof.
  induction l as [| q l IH]; simpl.
  - split; [discriminate | intros [p H]; discriminate].
  - destruct (holds uid lid q); simpl; [| exact IH].
    split; [intros _; now exists q | reflexivity].
Qed.

Lemma find_snoc_fresh (uid : option Id) (lid : Id) (l : list PermissionRow)
    (p : PermissionRow) :
  existsb (holds uid lid) l = false -> holds uid lid p = true ->
  find (holds uid lid) (l ++ [p]) = Some p
  /\ existsb (holds uid lid) (l ++ [p]) = true
  /\ filter (holds uid lid) l = [].
Proof.
  induction l as [| q l IH]; simpl; intros Hex Hp.
  - now rewrite Hp.
  - apply orb_false_iff in Hex. destruct Hex as [Hq Hex]. rewrite Hq. simpl.
    now apply IH.
Qed.

(** The outcome of the write path of the grant for a role of the closed
    set: that of the upsert statement, journalled. *)
Lemma grant_upserts (target lid : Id) (s : string) (r : Role) (w : World) :
  role_of_string s = Some r ->
  grant target lid (Some s) w
    = match upsert_permission (Some target) lid r (db w) with
      | inl err =>
          (inl (Sql err),
           mkWorld (db w) (journal w ++ [UPSERT_permissions]) (console w) (leased w))
      | inr (_, d') =>
          (inr tt,
           mkWorld d' (journal w ++ [UPSERT_permissions]) (console w) (leased w))
      end.
Proof.
  intros Hr. unfold grant. rewrite Hr. unfold bind, query, query_on, ret. simpl.
  destruct (upsert_permission (Some target) lid r (db w)) as [err | [ok d']];
    reflexivity.
Qed.

Lemma replace_role_fresh_snoc (u lid : Id) (r : Role) (l : list PermissionRow)
    (i : Id) :
  existsb (holds (Some u) lid) l = false ->
  replace_role (Some u) lid r (l ++ [mkPermission i (Some u) lid r])
    = l ++ [mkPermission i (Some u) lid r].
Proof.
  induction l as [| q l IH]; simpl; intros Hex.
  - assert (H : holds (Some u) lid (mkPermission i (Some u) lid r) = true)
      by (apply holds_key; reflexivity).
    now rewrite H.
  - apply orb_false_iff in Hex. destruct Hex as [Hq Hex].
    rewrite Hq. now rewrite IH.
Qed.

Lemma filter_snoc_other (uid uid' : option Id) (lid lid' : Id) (r : Role)
    (i : Id) (l : list PermissionRow) :
  (uid', lid') <> (uid, lid) ->
  filter (holds uid' lid') (l ++ [mkPermission i uid lid r])
    = filter (holds uid' lid') l.
Proof.
  intros Hne. rewrite filter_app. simpl.
  assert (H : holds uid' lid' (mkPermission i uid lid r) = false).
  { apply not_true_iff_false. intros H. apply holds_key in H.
    unfold key in H. simpl in H. congruence. }
  rewrite H. apply app_nil_r.
Qed.

(** C2: in every state a server can reach there is at most one permission
    row per (userId, listId), the anonymous key included.  The grant is
    an upsert: when it succeeds, the pair has exactly one row and that row
    carries the granted role; a row that was there keeps its id and its
    place (its role is replaced), otherwise one row is appended; the rows
    of every other pair are as before; and the same grant once more
    succeeds and changes no table. *)
Theorem permission_unique (d : Database) :
  reachable d ->
  (forall uid lid, (grants d uid lid <= 1)%nat)
  /\ (forall target lid s r w,
        db w = d -> role_of_string s = Some r ->
        fst (grant target lid (Some s) w) = inr tt ->
        let w1 := snd (grant target lid (Some s) w) in
        grants (db w1) (Some target) lid = 1%nat
        /\ (forall p, lookup_permission d (Some target) lid = Some p ->
              lookup_permission (db w1) (Some target) lid
                = Some (mkPermission (permission_id p) (Some target) lid r)
              /\ List.length (permissions (db w1)) = List.length (permissions d))
        /\ (lookup_permission d (Some target) lid = None ->
              permissions (db w1)
                = permissions d
                    ++ [mkPermission (next_permission d) (Some target) lid r])
        /\ (forall uid' lid', (uid', lid') <> (Some target, lid) ->
              filter (holds uid' lid') (permissions (db w1))
                = filter (holds uid' lid') (permissions d))
        /\ fst (grant target lid (Some s) w1) = inr tt
        /\ db (snd (grant target lid (Some s) w1)) = db w1).
Proof.
  intros Hreach. assert (Hc := reachable_consistent d Hreach). split.
  { intros uid lid. unfold grants. apply unique_key_once.
    exact (unique_keys d Hc). }
  intros target lid s r w Hw Hr Hok. cbv zeta.
  assert (Hc1 : consistent (db (snd (grant target lid (Some s) w)))).
  { apply grant_keeps. now rewrite Hw. }
  rewrite (grant_upserts target lid s r w Hr) in Hok, Hc1 |- *.
  rewrite Hw in *.
  destruct (upsert_permission (Some target) lid r d) as [err | [ok d1]] eqn:Hup;
    [discriminate |]. simpl in *. clear Hok.
  rewrite (grant_upserts target lid s r _ Hr). simpl.
  unfold upsert_permission in Hup.
  change (existsb (collides (Some target) lid) (permissions d))
    with (existsb (holds (Some target) lid) (permissions d)) in Hup.
  destruct (existsb (holds (Some target) lid) (permissions d)) eqn:Hex.
  - inversion Hup; subst d1 ok. clear Hup. simpl in *.
    destruct (proj1 (find_holds_exists _ _ _) Hex) as [p0 Hfind].
    destruct (replace_role_found target lid r _ p0 Hfind) as [Hf [Hlen Hidem]].
    assert (Hex1 : existsb (holds (Some target) lid)
                     (replace_role (Some target) lid r (permissions d)) = true).
    { apply find_holds_exists. eexists. exact Hf. }
    split.
    { assert (Hle := unique_key_once (Some target) lid _ (unique_keys _ Hc1)).
      unfold grants. simpl in *.
      apply find_some in Hf. destruct Hf as [Hin Hh].
      assert (Hin' : In (mkPermission (permission_id p0) (Some target) lid r)
                       (filter (holds (Some target) lid)
                          (replace_role (Some target) lid r (permissions d))))
        by (apply filter_In; split; assumption).
      destruct (filter (holds (Some target) lid)
                  (replace_role (Some target) lid r (permissions d)));
        [destruct Hin' | simpl in *; lia]. }
    split.
    { intros p Hp. unfold lookup_permission in *. simpl.
      rewrite Hfind in Hp. inversion Hp; subst p0. split; assumption. }
    split.
    { intros Hnone. unfold lookup_permission in Hnone. congruence. }
    split.
    { intros uid' lid' Hne. now apply replace_role_other. }
    unfold upsert_permission. simpl.
    change (existsb (collides (Some target) lid)
              (replace_role (Some target) lid r (permissions d)))
      with (existsb (holds (Some target) lid)
              (replace_role (Some target) lid r (permissions d))).
    rewrite Hex1. simpl. split; [reflexivity |].
    unfold with_permissions. simpl. now rewrite Hidem.
  - destruct (permission_refs_ok (Some target) lid d); simpl in Hup;
      [| discriminate].
    inversion Hup; subst d1 ok. clear Hup. simpl in *.
    assert (Hnew : holds (Some target) lid
                     (mkPermission (next_permission d) (Some target) lid r) = true)
      by (apply holds_key; reflexivity).
    destruct (find_snoc_fresh _ _ _ _ Hex Hnew) as [Hf [Hex1 Hnil]].
    split.
    { unfold grants. simpl. rewrite filter_app, Hnil. simpl.
      now rewrite Hnew. }
    split.
    { intros p Hp. unfold lookup_permission in Hp.
      assert (Hsome : existsb (holds (Some target) lid) (permissions d) = true)
        by (apply find_holds_exists; now exists p).
      congruence. }
    split; [reflexivity |].
    split.
    { intros uid' lid' Hne. now apply filter_snoc_other. }
    unfold upsert_permission. simpl.
    change (existsb (collides (Some target) lid)
              (permissions d
                 ++ [mkPermission (next_permission d) (Some target) lid r]))
      with (existsb (holds (Some target) lid)
              (permissions d
                 ++ [mkPermission (next_permission d) (Some target) lid r])).
    rewrite Hex1. simpl. split; [reflexivity |].
    unfold with_permissions. simpl.
    now rewrite (replace_role_fresh_snoc target lid r _ _ Hex).
Qed.

(** ** The role check *)

Lemma grant_then_lookup (target lid : Id) (s : string) (r : Role) (w : World) :
  role_of_string s = Some r ->
  fst (grant target lid (Some s) w) = inr tt ->
  exists p, lookup_permission (db (snd (grant target lid (Some s) w)))
              (Some target) lid = Some p /\ role p = r.
Proof.
  intros Hr Hok. rewrite (grant_upserts target lid s r w Hr) in Hok |- *.
  destruct (upsert_permission (Some target) lid r (db w)) as [err | [ok d1]] eqn:Hup;
    [discriminate |]. simpl. clear Hok.
  unfold upsert_permission in Hup.
  change (existsb (collides (Some target) lid) (permissions (db w)))
    with (existsb (holds (Some target) lid) (permissions (db w))) in Hup.
  destruct (existsb (holds (Some target) lid) (permissions (db w))) eqn:Hex.
  - inversion Hup; subst d1. unfold lookup_permission. simpl.
    destruct (proj1 (find_holds_exists _ _ _) Hex) as [p0 Hfind].
    destruct (replace_role_found target lid r _ p0 Hfind) as [Hf _].
    eexists. split; [exact Hf | reflexivity].
  - destruct (permission_refs_ok (Some target) lid (db w)); simpl in Hup;
      [| discriminate].
    inversion Hup; subst d1. unfold lookup_permission. simpl.
    assert (Hnew : holds (Some target) lid
                     (mkPermission (next_permission (db w)) (Some target) lid r)
                   = true) by (apply holds_key; reflexivity).
    destruct (find_snoc_fresh _ _ _ _ Hex Hnew) as [Hf _].
    eexists. split; [exact Hf | reflexivity].
Qed.

Lemma lookup_none (d : Database) (uid : option Id) (lid : Id) :
  lookup_permission d uid lid = None <->
  forall p, In p (permissions d) -> holds uid lid p = false.
Proof.
  unfold lookup_permission. split.
  - intros H p Hp. exact (find_none _ _ H p Hp).
  - intros H. destruct (find (holds uid lid) (permissions d)) as [p |] eqn:Hf;
      [| reflexivity].
    apply find_some in Hf. destruct Hf as [Hin Hh].
    rewrite (H p Hin) in Hh. discriminate.
Qed.

(** C3: the roles are totally ordered, owner above write above read.
    [requireAtLeast] is Denied exactly when no permission row exists for
    the pair or the role held is strictly below the role asked for, and
    otherwise returns the role held.  After a successful grant of a role,
    a check at any role is Denied exactly when the granted role is
    strictly below it, so the check at the granted role succeeds.  An
    owner passes the checks for write and read; a writer passes the check
    for read and fails the one for owner.  In the handlers, a reader is
    refused by [PUT /list/:listId], which asks for write, and a writer by
    [DELETE /list/:listId], which asks for owner, with the 403 error and
    without a statement. *)
Theorem role_check :
  (rank read < rank write /\ rank write < rank owner)
  /\ (forall a b : Role, rank a = rank b -> a = b)
  /\ (forall d uid lid m,
        requireAtLeast d uid lid m = Denied <->
        (forall p, In p (permissions d) -> holds uid lid p = false)
        \/ (exists p, lookup_permission d uid lid = Some p
                      /\ rank (role p) < rank m))
  /\ (forall d uid lid m r,
        requireAtLeast d uid lid m = Granted r ->
        exists p, lookup_permission d uid lid = Some p /\ role p = r
                  /\ rank m <= rank r)
  /\ (forall target lid s r w,
        role_of_string s = Some r ->
        fst (grant target lid (Some s) w) = inr tt ->
        let d1 := db (snd (grant target lid (Some s) w)) in
        requireAtLeast d1 (Some target) lid r = Granted r
        /\ forall m, requireAtLeast d1 (Some target) lid m = Denied
                     <-> rank r < rank m)
  /\ (forall d uid lid p,
        lookup_permission d uid lid = Some p -> role p = owner ->
        requireAtLeast d uid lid write = Granted owner
        /\ requireAtLeast d uid lid read = Granted owner)
  /\ (forall d uid lid p,
        lookup_permission d uid lid = Some p -> role p = write ->
        requireAtLeast d uid lid read = Granted write
        /\ requireAtLeast d uid lid owner = Denied)
  /\ (forall e req w who p,
        fst (authenticate e req optional w) = inr who ->
        lookup_permission (db w) (userId who) (param_listId req) = Some p ->
        (role p = read -> put_list e req w = (inl Forbidden, w))
        /\ (role p <> owner ->
              delete_list_handler e req w = (inl Forbidden, w)))
  /\ failure_response Forbidden = (403, "denied").
Proof.
  split; [simpl; lia |].
  split; [intros [] []; simpl; intros H; try reflexivity; lia |].
  split.
  { intros d uid lid m. unfold requireAtLeast. rewrite <- lookup_none.
    destruct (lookup_permission d uid lid) as [p |] eqn:Hl.
    - destruct (rank (role p) <? rank m) eqn:Hlt.
      + apply N.ltb_lt in Hlt. split; [| reflexivity].
        intros _. right. now exists p.
      + apply N.ltb_ge in Hlt. split; [discriminate |].
        intros [H | [q [Hq Hlt']]]; [discriminate |].
        inversion Hq; subst q. lia.
    - split; [now left | reflexivity]. }
  split.
  { intros d uid lid m r. unfold requireAtLeast.
    destruct (lookup_permission d uid lid) as [p |]; [| discriminate].
    destruct (rank (role p) <? rank m) eqn:Hlt; [discriminate |].
    apply N.ltb_ge in Hlt. intros H. inversion H; subst r.
    exists p. auto. }
  split.
  { intros target lid s r w Hr Hok. cbv zeta.
    destruct (grant_then_lookup target lid s r w Hr Hok) as [p [Hl Hp]].
    unfold requireAtLeast. rewrite Hl, Hp. rewrite N.ltb_irrefl.
    split; [reflexivity |]. intros m.
    destruct (rank r <? rank m) eqn:Hlt.
    - apply N.ltb_lt in Hlt. split; [intros _; exact Hlt | reflexivity].
    - apply N.ltb_ge in Hlt. split; [discriminate | lia]. }
  split.
  { intros d uid lid p Hl Hp. unfold requireAtLeast. rewrite Hl, Hp.
    simpl. auto. }
  split.
  { intros d uid lid p Hl Hp. unfold requireAtLeast. rewrite Hl, Hp.
    simpl. auto. }
  split; [| reflexivity].
  intros e req w who p Hwho Hl.
  unfold put_list, delete_list_handler, bind, authenticate, checkPermissions,
    requireAtLeast in *.
  cbv beta iota in *.
  destruct (by_token (db w) (now e) req false) as [err | who']; [discriminate |].
  injection Hwho as ->. rewrite Hl. split.
  - intros Hp. now rewrite Hp.
  - intros Hp. destruct (role p); [congruence | reflexivity | reflexivity].
Qed.

(** ** Sessions and their expiry *)

(** C4: a session found in the store is usable exactly when its
    [expirationDate] is strictly after the instant of use.  With a token
    that opens to the id of a stored session, [authenticate] in required
    mode fails with Unauthorized when [expirationDate <= now], whether or
    not the sweep has removed the row, and so does [GET /user]; when
    [now < expirationDate] it yields the user and the session.  Under no
    policy does an identity carry a session that is missing or expired. *)
Theorem session_expiry (e : Env) (req : Request) (w : World) :
  (forall token sid s,
      bearer req = Some token -> decrypt token = Some sid ->
      resolve (db w) sid = Some s ->
      (expirationDate s <= now e ->
         authenticate e req required w = (inl Unauthorized, w)
         /\ fst (get_user e req w) = inl Unauthorized
         /\ failure_response Unauthorized = (401, "unauthorized"))
      /\ (now e < expirationDate s ->
            authenticate e req required w
              = (inr (mkIdentity (Some (session_userId s)) (Some sid)), w))
      /\ ((exists who, fst (authenticate e req required w) = inr who)
          <-> now e < expirationDate s))
  /\ (forall policy who sid,
        fst (authenticate e req policy w) = inr who ->
        sessionId who = Some sid ->
        exists s, resolve (db w) sid = Some s
                  /\ now e < expirationDate s
                  /\ userId who = Some (session_userId s)).
Proof.
  split.
  - intros token sid s Hb Hd Hs.
    assert (Hexp : expirationDate s <= now e ->
                   authenticate e req required w = (inl Unauthorized, w)).
    { intros Hle. unfold authenticate, by_token. rewrite Hb, Hd, Hs.
      apply N.leb_le in Hle. now rewrite Hle. }
    assert (Hlive : now e < expirationDate s ->
                    authenticate e req required w
                      = (inr (mkIdentity (Some (session_userId s)) (Some sid)), w)).
    { intros Hlt. unfold authenticate, by_token. rewrite Hb, Hd, Hs.
      apply N.leb_gt in Hlt. now rewrite Hlt. }
    split; [| split].
    + intros Hle. split; [now apply Hexp |]. split; [| reflexivity].
      unfold get_user, bind. now rewrite (Hexp Hle).
    + exact Hlive.
    + split.
      * intros [who Hwho]. destruct (N.lt_ge_cases (now e) (expirationDate s))
          as [Hlt | Hle]; [assumption |].
        rewrite (Hexp Hle) in Hwho. discriminate.
      * intros Hlt. rewrite (Hlive Hlt). eexists. reflexivity.
  - intros policy who sid Hwho Hsid.
    unfold authenticate in Hwho. simpl in Hwho.
    assert (Htok : forall must, by_token (db w) (now e) req must = inr who ->
              exists s, resolve (db w) sid = Some s
                        /\ now e < expirationDate s
                        /\ userId who = Some (session_userId s)).
    { intros must H. unfold by_token in H.
      destruct (bearer req) as [token |].
      - destruct (decrypt token) as [sid' |]; [| discriminate].
        destruct (resolve (db w) sid') as [s |] eqn:Hs; [| discriminate].
        destruct (expirationDate s <=? now e) eqn:Hle; [discriminate |].
        apply N.leb_gt in Hle. inversion H; subst who. simpl in Hsid.
        inversion Hsid; subst sid'. exists s. auto.
      - destruct must; [discriminate |]. inversion H; subst who. discriminate. }
    destruct policy.
    + now apply (Htok true).
    + now apply (Htok false).
    + unfold by_credentials in Hwho.
      destruct (login req) as [[name pass] |]; [| discriminate].
      destruct (find (fun u => String.eqb (username u) name) (users (db w)))
        as [u |]; [| discriminate].
      destruct (String.eqb (hashPassword pass (salt u)) (password u));
        [| discriminate].
      inversion Hwho; subst who. discriminate.
Qed.

(** ** Signup *)

Lemma get_set_same (k v : string) (b : Body) : get k (set_key k v b) = Some v.
Proof.
  induction b as [| [k' v'] b IH]; simpl.
  - now rewrite String.eqb_refl.
  - destruct (String.eqb k k') eqn:Hk; simpl.
    + now rewrite String.eqb_refl.
    + now rewrite Hk.
Qed.

Lemma get_set_other (k k' v : string) (b : Body) :
  String.eqb k' k = false -> get k' (set_key k v b) = get k' b.
Proof.
  intros Hne. induction b as [| [k0 v0] b IH]; simpl.
  - now rewrite Hne.
  - destruct (String.eqb k k0) eqn:Hk; simpl.
    + apply String.eqb_eq in Hk. subst k0. now rewrite Hne.
    + now rewrite IH.
Qed.

Lemma keys_within_set (columns : list string) (k v : string) (b : Body) :
  existsb (String.eqb k) columns = true ->
  keys_within columns b = true -> keys_within columns (set_key k v b) = true.
Proof.
  intros Hk. induction b as [| [k0 v0] b IH]; simpl; intros Hb.
  - now rewrite Hk.
  - apply andb_true_iff in Hb. destruct Hb as [H0 Hb].
    destruct (String.eqb k k0); simpl.
    + now rewrite Hk, Hb.
    + rewrite H0. now apply IH.
Qed.

Lemma keys_within_more (columns columns' : list string) (b : Body) :
  (forall k, existsb (String.eqb k) columns = true ->
             existsb (String.eqb k) columns' = true) ->
  keys_within columns b = true -> keys_within columns' b = true.
Proof.
  intros Hincl. unfold keys_within. rewrite !forallb_forall.
  intros H kv Hkv. apply Hincl. now apply H.
Qed.

Lemma get_outside (columns : list string) (k : string) (b : Body) :
  keys_within columns b = true ->
  existsb (String.eqb k) columns = false -> get k b = None.
Proof.
  intros Hb Hk. induction b as [| [k' v] b IH]; [reflexivity |].
  simpl in Hb. apply andb_true_iff in Hb. destruct Hb as [H0 Hb].
  cbn [get]. destruct (String.eqb k k') eqn:Heq.
  - apply String.eqb_eq in Heq. subst k'. simpl in H0. congruence.
  - now apply IH.
Qed.

Lemma set_key_filled (k v : string) (b : Body) : set_key k v b <> [].
Proof.
  destruct b as [| [k' v'] b]; simpl; [discriminate |].
  destruct (String.eqb k k'); discriminate.
Qed.

Lemma no_keys_set (k v : string) (b : Body) : no_keys (set_key k v b) = false.
Proof.
  destruct b as [| [k' v'] b]; simpl; [reflexivity |].
  now destruct (String.eqb k k').
Qed.

Lemma username_used (d : Database) (name : string) :
  (exists u, In u (users d) /\ username u = name) ->
  name_used engine name (users d) = true.
Proof.
  intros [u [Hu Hn]]. apply existsb_exists. exists u. split; [assumption |].
  subst name. apply String.eqb_refl.
Qed.

Lemma varchar_fits (n : nat) (v : string) :
  fits n v = true -> varchar engine n v = inr v.
Proof. intros H. unfold varchar. now rewrite H. Qed.

Lemma binary_exact (n : nat) (v : string) :
  String.length v = n -> binary engine n v = inr v.
Proof.
  intros H. unfold binary, fits.
  rewrite H, PeanoNat.Nat.leb_refl, PeanoNat.Nat.sub_diag. simpl.
  f_equal. clear H. induction v as [| c v IH]; simpl; [reflexivity |].
  f_equal. exact IH.
Qed.

(** A signup whose [INSERT] fails: the catch block turns a duplicate
    entry into the client error and rethrows any other failure. *)
Lemma post_user_refused (e : Env) (req : Request) (w : World) (b : Body)
    (pass : string) (err : SqlError) :
  jsonValidate (body req)
    [("firstName", true); ("lastName", true);
     ("username", false); ("password", false)] = inr b ->
  get "password" b = Some pass ->
  insert_user engine (signup_body e b pass) (db w) = inl err ->
  post_user e req w
    = (inl (match err with
            | ER_DUP_ENTRY => username_taken (signup_body e b pass)
            | _ => Sql err
            end),
       mkWorld (db w) (journal w ++ [INSERT_users]) (console w) (leased w)).
Proof.
  intros Hv Hpass Hins.
  unfold post_user, bind, await, hash_with, try_catch, query, query_on, ret,
    throw. rewrite Hv, Hpass. fold (signup_body e b pass). simpl.
  rewrite Hins. now destruct err.
Qed.

(** No [INSERT] stores a second row under a username that is taken. *)
Lemma insert_taken (b : Body) (d : Database) (name : string) :
  get "username" b = Some name -> fits 255 name = true ->
  name_used engine name (users d) = true ->
  exists err, insert_user engine b d = inl err.
Proof.
  intros Hname Hfits Hused. unfold insert_user.
  destruct (no_keys b); [eauto |].
  destruct (negb _); [eauto |].
  destruct (new_id _ _ _); [eauto |].
  destruct (assigned _ (get "firstName" b)); [eauto |].
  destruct (assigned _ (get "lastName" b)); [eauto |].
  rewrite Hname. simpl. rewrite (varchar_fits 255 name Hfits).
  destruct (not_null _ _ (get "password" b)); [eauto |].
  destruct (not_null _ _ (get "salt" b)); [eauto |].
  rewrite Hused, orb_true_r. eauto.
Qed.

(** C6 (as the code has it): a signup whose validated body carries the
    username of an existing user is refused, issues the insert into
    [todo.users] and nothing after it, and leaves the rows of users and
    sessions as they were.  When the body has no key outside the
    template and its values, the hash and the salt fit their columns,
    the [INSERT] fails on the unique index and the request is answered
    with the client error of status 409 and code [username-taken], which
    reports the username. *)
Theorem duplicate_username (e : Env) (req : Request) (w : World)
    (b : Body) (name pass : string) :
  jsonValidate (body req)
    [("firstName", true); ("lastName", true);
     ("username", false); ("password", false)] = inr b ->
  get "username" b = Some name ->
  get "password" b = Some pass ->
  fits 255 name = true ->
  (exists u, In u (users (db w)) /\ username u = name) ->
  (exists err, fst (post_user e req w) = inl err)
  /\ users (db (snd (post_user e req w))) = users (db w)
  /\ sessions (db (snd (post_user e req w))) = sessions (db w)
  /\ journal (snd (post_user e req w)) = journal w ++ [INSERT_users]
  /\ (keys_within ["firstName"; "lastName"; "username"; "password"] b = true ->
      (forall v, get "firstName" b = Some v -> fits 255 v = true) ->
      (forall v, get "lastName" b = Some v -> fits 255 v = true) ->
      String.length (hashPassword pass (fresh_salt e)) = key_size engine ->
      String.length (fresh_salt e) = salt_size engine ->
      fst (post_user e req w)
        = inl (Client (mkClientError 409 "username-taken"
                         "Username already in use." (Some name)))
      /\ (forall err, fst (post_user e req w) = inl err ->
            failure_response err = (409, "username-taken"))).
Proof.
  intros Hv Hname Hpass Hfits Hdup.
  pose proof (username_used (db w) name Hdup) as Hused.
  assert (Hu2 : get "username" (signup_body e b pass) = Some name).
  { unfold signup_body. rewrite !get_set_other by reflexivity. assumption. }
  destruct (insert_taken _ (db w) name Hu2 Hfits Hused) as [err Hins].
  rewrite (post_user_refused e req w b pass err Hv Hpass Hins). simpl.
  split; [eauto |]. do 3 (split; [reflexivity |]).
  intros Hkeys Hfirst Hlast Hhash Hsalt.
  assert (Hk2 : keys_within user_columns (signup_body e b pass) = true).
  { unfold signup_body. apply keys_within_set; [reflexivity |].
    apply keys_within_set; [reflexivity |].
    apply (keys_within_more
             ["firstName"; "lastName"; "username"; "password"]); [| assumption].
    intros k. simpl. intros H.
    repeat (apply orb_true_iff in H; destruct H as [H | H];
            [rewrite H; rewrite ?orb_true_r; reflexivity |]).
    discriminate. }
  assert (Hp2 : get "password" (signup_body e b pass)
                = Some (hashPassword pass (fresh_salt e))).
  { unfold signup_body. rewrite get_set_other by reflexivity.
    apply get_set_same. }
  assert (Hs2 : get "salt" (signup_body e b pass) = Some (fresh_salt e)).
  { unfold signup_body. apply get_set_same. }
  assert (Hid : get "id" (signup_body e b pass) = None).
  { unfold signup_body. rewrite !get_set_other by reflexivity.
    apply (get_outside ["firstName"; "lastName"; "username"; "password"]);
      [assumption | reflexivity]. }
  assert (Hf2 : get "firstName" (signup_body e b pass) = get "firstName" b).
  { unfold signup_body. now rewrite !get_set_other by reflexivity. }
  assert (Hl2 : get "lastName" (signup_body e b pass) = get "lastName" b).
  { unfold signup_body. now rewrite !get_set_other by reflexivity. }
  assert (Herr : err = ER_DUP_ENTRY).
  { unfold insert_user in Hins.
    assert (Hsome : no_keys (signup_body e b pass) = false)
      by apply no_keys_set.
    rewrite Hsome, Hk2, Hid, Hu2, Hp2, Hs2, Hf2, Hl2 in Hins. simpl in Hins.
    rewrite (varchar_fits 255 name Hfits) in Hins.
    rewrite (binary_exact _ _ Hhash), (binary_exact _ _ Hsalt) in Hins.
    destruct (get "firstName" b) as [v1 |]; simpl in Hins;
      [rewrite (varchar_fits 255 v1 (Hfirst v1 eq_refl)) in Hins |];
      (destruct (get "lastName" b) as [v2 |]; simpl in Hins;
       [rewrite (varchar_fits 255 v2 (Hlast v2 eq_refl)) in Hins |]);
      rewrite Hused, orb_true_r in Hins; congruence. }
  subst err. unfold username_taken. rewrite Hu2.
  split; [reflexivity |]. intros err Herr. inversion Herr. reflexivity.
Qed.

(** ** Invalid roles *)

Lemma role_outside (s : string) :
  s <> "owner" -> s <> "write" -> s <> "read" -> role_of_string s = None.
Proof.
  intros Ho Hw Hr. unfold role_of_string.
  apply String.eqb_neq in Ho, Hw, Hr. now rewrite Ho, Hw, Hr.
Qed.

(** C7: for a role value outside owner, write and read (an absent one
    included), the grant throws the client error [invalid-role] of status
    400 and leaves the world, the permission rows with it, as it was; so
    does the whole of [PUT /list/:listId/user/:userId], which answers
    with that error once the caller is authenticated as an owner of the
    list. *)
Theorem invalid_role_rejected (given : option string) :
  (forall s, given = Some s -> s <> "owner" /\ s <> "write" /\ s <> "read") ->
  (forall target lid w,
      grant target lid given w = (inl (invalid_role given), w))
  /\ failure_response (invalid_role given) = (400, "invalid-role")
  /\ (forall e req w b,
        jsonValidate (body req) [("role", false)] = inr b ->
        get "role" b = given ->
        snd (put_list_user e req w) = w
        /\ forall who r,
             fst (authenticate e req required w) = inr who ->
             requireAtLeast (db w) (userId who) (param_listId req) owner
               = Granted r ->
             fst (put_list_user e req w) = inl (invalid_role given)).
Proof.
  intros Hout.
  assert (Hnone : match given with
                  | Some s => role_of_string s
                  | None => None
                  end = None).
  { destruct given as [s |]; [| reflexivity].
    destruct (Hout s eq_refl) as [Ho [Hw Hr]]. now apply role_outside. }
  assert (Hgrant : forall target lid w,
             grant target lid given w = (inl (invalid_role given), w)).
  { intros target lid w. unfold grant. now rewrite Hnone. }
  split; [exact Hgrant |]. split; [reflexivity |].
  intros e req w b Hv Hrole.
  unfold put_list_user, bind, authenticate, checkPermissions, await.
  split.
  - destruct (by_token (db w) (now e) req true) as [err | who]; [reflexivity |].
    destruct (requireAtLeast (db w) (userId who) (param_listId req) owner);
      [| reflexivity].
    rewrite Hv, Hrole, Hgrant. reflexivity.
  - intros who r Hwho Hreq. simpl in Hwho.
    destruct (by_token (db w) (now e) req true) as [err | who']; [discriminate |].
    inversion Hwho; subst who'. rewrite Hreq, Hv, Hrole, Hgrant. reflexivity.
Qed.

(** ** Revoking and deleting twice *)

Lemma filter_none {A} (f : A -> bool) (l : list A) :
  (forall x, In x l -> f x = false) ->
  filter (fun x => negb (f x)) l = l /\ count f l = 0.
Proof.
  intros H. unfold count. induction l as [| a l IH]; simpl; [auto |].
  rewrite (H a (or_introl eq_refl)). simpl.
  destruct IH as [IH1 IH2]; [intros x Hx; apply H; now right |].
  now rewrite IH1.
Qed.

Lemma with_permissions_same (d : Database) : with_permissions d (permissions d) = d.
Proof. now destruct d. Qed.

Lemma with_sessions_same (d : Database) : with_sessions d (sessions d) = d.
Proof. now destruct d. Qed.

Lemma with_items_same (d : Database) : with_items d (items d) = d.
Proof. now destruct d. Qed.

(** The [WHERE] clause of the revoke selects the rows of the key. *)
Lemma revoke_hits (target lid : Id) (p : PermissionRow) :
  (match permission_userId p with
   | Some u => sql_eq u (Some target)
   | None => false
   end && (permission_listId p =? lid)) = holds (Some target) lid p.
Proof. unfold holds, same_user, sql_eq. now destruct (permission_userId p). Qed.

Lemma delete_permission_filter (target lid : Id) (d : Database) :
  delete_permission (Some target) lid d
    = inr (mkOk 0 (count (holds (Some target) lid) (permissions d)),
           with_permissions d
             (filter (fun p => negb (holds (Some target) lid p)) (permissions d))).
Proof.
  unfold delete_permission, count.
  rewrite (filter_ext _ (holds (Some target) lid) (revoke_hits target lid)).
  rewrite (filter_ext _ (fun p => negb (holds (Some target) lid p))
             (fun p => f_equal negb (revoke_hits target lid p))).
  reflexivity.
Qed.

Lemma revoke_runs (target lid : Id) (w : World) :
  revoke target lid w
    = (inr tt,
       mkWorld
         (with_permissions (db w)
            (filter (fun p => negb (holds (Some target) lid p))
               (permissions (db w))))
         (journal w ++ [DELETE_permissions]) (console w) (leased w)).
Proof.
  unfold revoke, bind, query, query_on, ret.
  now rewrite delete_permission_filter.
Qed.

Lemma revoke_absent (target lid : Id) (w : World) :
  (forall p, In p (permissions (db w)) -> holds (Some target) lid p = false) ->
  fst (revoke target lid w) = inr tt /\ db (snd (revoke target lid w)) = db w.
Proof.
  intros Hno. rewrite revoke_runs. simpl. split; [reflexivity |].
  destruct (filter_none (holds (Some target) lid) (permissions (db w)) Hno)
    as [Hf _].
  rewrite Hf. apply with_permissions_same.
Qed.

Lemma delete_session_absent (sid : Id) (d : Database) :
  resolve d sid = None -> delete_session (Some sid) d = inr (mkOk 0 0, d).
Proof.
  intros Hno. unfold delete_session, resolve in *. simpl.
  destruct (filter_none (fun s => session_id s =? sid) (sessions d)
              (find_none _ _ Hno)) as [Hf Hc].
  now rewrite Hf, Hc, with_sessions_same.
Qed.

(** C8: revoking a pair that has no permission row is not an error and
    changes no table, in particular as a second call right after a first
    one; the handler of [DELETE /list/:listId/user/:userId] answers such
    a request of an owner with success.  Deleting a session by an id that
    no row has is not an error either: the statement succeeds, affects no
    row and changes no table, also right after a first deletion; and a
    logout that carries no session returns without a statement. *)
Theorem revoke_and_session_delete_idempotent :
  (forall target lid w,
      (forall p, In p (permissions (db w)) -> holds (Some target) lid p = false) ->
      fst (revoke target lid w) = inr tt
      /\ db (snd (revoke target lid w)) = db w)
  /\ (forall target lid w,
        fst (revoke target lid w) = inr tt
        /\ fst (revoke target lid (snd (revoke target lid w))) = inr tt
        /\ db (snd (revoke target lid (snd (revoke target lid w))))
             = db (snd (revoke target lid w)))
  /\ (forall e req w who r,
        fst (authenticate e req optional w) = inr who ->
        requireAtLeast (db w) (userId who) (param_listId req) owner = Granted r ->
        (forall p, In p (permissions (db w)) ->
                   holds (Some (param_userId req)) (param_listId req) p = false) ->
        fst (delete_list_user e req w) = inr tt
        /\ db (snd (delete_list_user e req w)) = db w)
  /\ (forall sid d,
        resolve d sid = None ->
        delete_session (Some sid) d = inr (mkOk 0 0, d))
  /\ (forall sid d ok d1,
        delete_session (Some sid) d = inr (ok, d1) ->
        delete_session (Some sid) d1 = inr (mkOk 0 0, d1))
  /\ (forall e req w,
        bearer req = None -> post_logout e req w = (inr tt, w)).
Proof.
  split; [exact revoke_absent |].
  split.
  { intros target lid w. split; [now rewrite revoke_runs |].
    apply revoke_absent. rewrite revoke_runs. simpl.
    intros p Hp. apply filter_In in Hp. destruct Hp as [_ Hp].
    now apply negb_true_iff in Hp. }
  split.
  { intros e req w who r Hwho Hreq Hno.
    unfold delete_list_user, bind, authenticate, checkPermissions in *.
    simpl in Hwho.
    destruct (by_token (db w) (now e) req false) as [err | who']; [discriminate |].
    inversion Hwho; subst who'. rewrite Hreq.
    now apply revoke_absent. }
  split; [exact delete_session_absent |].
  split.
  { intros sid d ok d1 H. apply delete_session_absent.
    unfold delete_session in H. inversion H; subst. unfold resolve. simpl.
    match goal with
    | |- find ?f ?l = None => destruct (find f l) as [s |] eqn:Hf
    end; [| reflexivity].
    apply find_some in Hf. destruct Hf as [Hin Hs].
    apply filter_In in Hin. destruct Hin as [_ Hn]. simpl in Hn.
    rewrite Hs in Hn. discriminate. }
  intros e req w Hb. unfold post_logout, bind, authenticate, by_token.
  now rewrite Hb.
Qed.

(** ** Items are reached through their list *)

Lemma item_hit_list (lid iid : Id) (i : ItemRow) :
  item_hit lid iid i = true -> item_listId i = lid /\ item_id i = iid.
Proof.
  unfold item_hit. rewrite andb_true_iff, !N.eqb_eq. intros H. exact H.
Qed.

Lemma item_not_hit (lid iid : Id) (l : list ItemRow) :
  (forall i, In i l -> item_id i = iid -> item_listId i <> lid) ->
  forall i, In i l -> item_hit lid iid i = false.
Proof.
  intros H i Hi. apply not_true_iff_false. intros Hh.
  apply item_hit_list in Hh. destruct Hh as [Hl Hid]. exact (H i Hi Hid Hl).
Qed.

Lemma foreign_after_delete (lid iid : Id) (l : list ItemRow) :
  filter (foreign lid) (filter (fun i => negb (item_hit lid iid i)) l)
    = filter (foreign lid) l.
Proof.
  induction l as [| a l IH]; simpl; [reflexivity |].
  destruct (item_hit lid iid a) eqn:Hh; simpl.
  - apply item_hit_list in Hh. destruct Hh as [Hl _].
    assert (H2 : foreign lid a = false)
      by (unfold foreign; now rewrite Hl, N.eqb_refl).
    now rewrite H2.
  - destruct (foreign lid a); simpl; now rewrite IH.
Qed.

Lemma map_same {A} (f : A -> bool) (l : list A) :
  l = map (fun x => if f x then x else x) l.
Proof.
  induction l as [| a l IH]; simpl; [reflexivity |].
  rewrite <- IH. now destruct (f a).
Qed.

(** An [UPDATE] changes no row but those its [WHERE] clause selects. *)
Lemma update_item_selected (b : Body) (lid iid : Id) (d d' : Database)
    (ok : OkPacket) :
  update_item engine b lid iid d = inr (ok, d') ->
  exists g, items d' = map (fun i => if item_hit lid iid i then g i else i)
                         (items d).
Proof.
  intros H. apply update_item_inv in H.
  destruct H as [-> | [i [l [n [t [s H]]]]]].
  - exists (fun i => i). apply map_same.
  - cbv zeta in H. destruct H as [_ [_ [_ ->]]]. simpl.
    now exists (patch_item i l n t s).
Qed.

Lemma update_item_absent (b : Body) (lid iid : Id) (d d' : Database)
    (ok : OkPacket) :
  (forall i, In i (items d) -> item_id i = iid -> item_listId i <> lid) ->
  update_item engine b lid iid d = inr (ok, d') -> affectedRows ok = 0 /\ d' = d.
Proof.
  intros Hno Hup. assert (Hh := item_not_hit lid iid (items d) Hno).
  pose proof (filter_empty (item_hit lid iid) (items d) Hh) as Hf.
  split; [rewrite (update_item_rows _ _ _ _ _ _ Hup); unfold count;
          now rewrite Hf |].
  apply update_item_inv in Hup.
  destruct Hup as [-> | [i [l [n [t [s H]]]]]]; [reflexivity |].
  cbv zeta in H. destruct H as [Hne _]. now apply Hne in Hf.
Qed.

(** A [SET] list with a key and no key that is not a column is accepted
    when the [WHERE] clause selects no row. *)
Lemma update_item_none (b : Body) (lid iid : Id) (d : Database) :
  b <> [] -> keys_within item_columns b = true ->
  filter (item_hit lid iid) (items d) = [] ->
  update_item engine b lid iid d = inr (mkOk 0 0, d).
Proof.
  intros Hb Hkeys Hf. unfold update_item.
  destruct b as [| kv b']; [congruence |].
  cbn [no_keys]. rewrite Hkeys. simpl negb. cbv beta iota zeta.
  now rewrite Hf.
Qed.

Lemma delete_item_absent (lid iid : Id) (d : Database) :
  (forall i, In i (items d) -> item_id i = iid -> item_listId i <> lid) ->
  delete_item lid iid d = inr (mkOk 0 0, d).
Proof.
  intros Hno. assert (Hh := item_not_hit lid iid (items d) Hno).
  unfold delete_item.
  destruct (filter_none (item_hit lid iid) (items d) Hh) as [Hf Hc].
  now rewrite Hf, Hc, with_items_same.
Qed.

(** The tables after [PUT /list/:listId/item/:itemId]: those before, or
    those a successful [UPDATE] produced. *)
Lemma put_item_db (e : Env) (req : Request) (w : World) :
  db (snd (put_item e req w)) = db w
  \/ exists b ok,
       update_item engine b (param_listId req) (param_itemId req) (db w)
         = inr (ok, db (snd (put_item e req w))).
Proof.
  unfold put_item, bind, authenticate, checkPermissions, await, check_state,
    query, query_on, ret, throw. simpl.
  destruct (by_token (db w) (now e) req true) as [err | who]; [now left |].
  destruct (requireAtLeast (db w) (userId who) (param_listId req) write);
    [| now left].
  destruct (no_keys (body req)); [now left |].
  destruct (jsonValidate (body req) _) as [err | b]; [now left |].
  destruct (get "state" b) as [s |];
    [destruct (state_of_string s); [| now left] |];
    (destruct (update_item engine b (param_listId req) (param_itemId req) (db w))
       as [err | [ok d']] eqn:Hup; simpl; [now left |];
     right; exists b, ok;
     destruct (affectedRows ok =? 0); simpl; exact Hup).
Qed.

Lemma delete_item_db (e : Env) (req : Request) (w : World) :
  db (snd (delete_item_handler e req w)) = db w
  \/ db (snd (delete_item_handler e req w))
     = with_items (db w)
         (filter (fun i => negb (item_hit (param_listId req) (param_itemId req) i))
            (items (db w))).
Proof.
  unfold delete_item_handler, bind, authenticate, checkPermissions, query,
    query_on, ret, throw. simpl.
  destruct (by_token (db w) (now e) req false) as [err | who]; [now left |].
  destruct (requireAtLeast (db w) (userId who) (param_listId req) write);
    [| now left].
  simpl. right.
  destruct (count _ _ =? 0); reflexivity.
Qed.

Lemma get_item_reads (e : Env) (req : Request) (w : World) :
  snd (get_item e req w) = w
  \/ (snd (get_item e req w)
      = mkWorld (db w) (journal w ++ [SELECT_items]) (console w) (leased w)
      /\ fst (get_item e req w)
         = match map item_view
                   (filter (item_hit (param_listId req) (param_itemId req))
                      (items (db w))) with
           | [] => inl missing_item
           | v :: _ => inr v
           end
      /\ exists who r,
           fst (authenticate e req optional w) = inr who
           /\ requireAtLeast (db w) (userId who) (param_listId req) read
              = Granted r).
Proof.
  unfold get_item, bind, authenticate, checkPermissions, query, query_on, ret,
    throw. simpl.
  destruct (by_token (db w) (now e) req false) as [err | who]; [now left |].
  destruct (requireAtLeast (db w) (userId who) (param_listId req) read) as [r |]
    eqn:Hreq; [| now left].
  simpl. right.
  destruct (map item_view _) eqn:Hm; simpl; (split; [reflexivity |]);
    (split; [reflexivity |]); exists who, r; auto.
Qed.

(** C9 (as the code has it): the per-item handlers select on both the
    [listId] and the [itemId] of the route.  [GET] returns only a row of
    that list, [PUT] changes no row but the one of that list and id, and
    [DELETE] leaves the rows of every other list as they were.  When the
    [itemId] names no item of the list (one of
    another list, say), no row is returned and no table changes; [GET]
    and [DELETE] answer a permitted caller with the client error
    [missing-item], and so does [PUT] when its [UPDATE] is issued with a
    well-formed [SET] list; a [PUT] whose body has no key returns
    success before any statement. *)
Theorem item_scoped_to_list (e : Env) (req : Request) (w : World) :
  let lid := param_listId req in
  let iid := param_itemId req in
  (forall v, fst (get_item e req w) = inr v ->
     exists i, In i (items (db w)) /\ item_listId i = lid /\ item_id i = iid
               /\ v = item_view i)
  /\ db (snd (get_item e req w)) = db w
  /\ (exists g,
        items (db (snd (put_item e req w)))
          = map (fun i => if item_hit lid iid i then g i else i) (items (db w)))
  /\ filter (foreign lid) (items (db (snd (delete_item_handler e req w))))
       = filter (foreign lid) (items (db w))
  /\ ((forall i, In i (items (db w)) -> item_id i = iid -> item_listId i <> lid) ->
      (forall v, fst (get_item e req w) <> inr v)
      /\ db (snd (put_item e req w)) = db w
      /\ db (snd (delete_item_handler e req w)) = db w
      /\ (forall who r,
            fst (authenticate e req optional w) = inr who ->
            requireAtLeast (db w) (userId who) lid read = Granted r ->
            fst (get_item e req w) = inl missing_item)
      /\ (forall who r,
            fst (authenticate e req optional w) = inr who ->
            requireAtLeast (db w) (userId who) lid write = Granted r ->
            fst (delete_item_handler e req w) = inl missing_item)
      /\ (forall who r b,
            fst (authenticate e req required w) = inr who ->
            requireAtLeast (db w) (userId who) lid write = Granted r ->
            body req <> [] ->
            jsonValidate (body req)
              [("name", true); ("description", true); ("state", true)] = inr b ->
            b <> [] ->
            keys_within item_columns b = true ->
            (forall s, get "state" b = Some s -> state_of_string s <> None) ->
            fst (put_item e req w) = inl missing_item)
      /\ (forall who r,
            fst (authenticate e req required w) = inr who ->
            requireAtLeast (db w) (userId who) lid write = Granted r ->
            body req = [] ->
            put_item e req w = (inr tt, w))
      /\ failure_response missing_item = (400, "missing-item")).
Proof.
  cbv zeta.
  assert (Hget : forall v, fst (get_item e req w) = inr v ->
            exists i, In i (items (db w)) /\ item_listId i = param_listId req
                      /\ item_id i = param_itemId req /\ v = item_view i).
  { intros v Hv. destruct (get_item_reads e req w) as [Hsame | [_ [Hfst _]]].
    - unfold get_item, bind, authenticate, checkPermissions in Hv, Hsame.
      simpl in Hv, Hsame.
      destruct (by_token (db w) (now e) req false); [discriminate |].
      destruct (requireAtLeast (db w) (userId i) (param_listId req) read);
        [| discriminate].
      unfold query, query_on in Hsame. simpl in Hsame.
      destruct (map item_view _); simpl in Hsame;
        apply (f_equal journal) in Hsame; simpl in Hsame;
        rewrite <- (app_nil_r (journal w)) in Hsame at 2;
        apply app_inv_head in Hsame; discriminate.
    - rewrite Hfst in Hv.
      destruct (filter (item_hit (param_listId req) (param_itemId req))
                  (items (db w))) as [| i l] eqn:Hf; simpl in Hv;
        [discriminate |].
      inversion Hv; subst v. exists i.
      assert (Hin : In i (filter (item_hit (param_listId req) (param_itemId req))
                            (items (db w)))) by (rewrite Hf; now left).
      apply filter_In in Hin. destruct Hin as [Hin Hh].
      apply item_hit_list in Hh. destruct Hh as [Hl Hi]. now repeat split. }
  split; [exact Hget |].
  split.
  { destruct (get_item_reads e req w) as [-> | [-> _]]; reflexivity. }
  split.
  { destruct (put_item_db e req w) as [-> | [b [ok Hup]]].
    - exists (fun i => i). apply map_same.
    - exact (update_item_selected _ _ _ _ _ _ Hup). }
  split.
  { destruct (delete_item_db e req w) as [-> | ->]; [reflexivity |].
    simpl. apply foreign_after_delete. }
  intros Hno.
  split.
  { intros v Hv. destruct (Hget v Hv) as [i [Hin [Hl [Hi _]]]].
    exact (Hno i Hin Hi Hl). }
  split.
  { destruct (put_item_db e req w) as [-> | [b [ok Hup]]]; [reflexivity |].
    now destruct (update_item_absent _ _ _ _ _ _ Hno Hup). }
  split.
  { destruct (delete_item_db e req w) as [-> | ->]; [reflexivity |].
    destruct (filter_none _ _ (item_not_hit _ _ _ Hno)) as [Hf _].
    rewrite Hf. apply with_items_same. }
  split.
  { intros who r Hwho Hreq.
    unfold get_item, bind, authenticate, checkPermissions, query, query_on in *.
    simpl in *.
    destruct (by_token (db w) (now e) req false) as [err | who']; [discriminate |].
    inversion Hwho; subst who'. rewrite Hreq. simpl.
    destruct (filter_none _ _ (item_not_hit _ _ _ Hno)) as [_ Hc].
    unfold count in Hc.
    destruct (filter (item_hit (param_listId req) (param_itemId req))
                (items (db w))); [reflexivity | discriminate]. }
  split.
  { intros who r Hwho Hreq.
    unfold delete_item_handler, bind, authenticate, checkPermissions, query,
      query_on in *. cbv beta iota in *.
    destruct (by_token (db w) (now e) req false) as [err | who']; [discriminate |].
    inversion Hwho; subst who'. rewrite Hreq.
    rewrite (delete_item_absent _ _ _ Hno). reflexivity. }
  split.
  { intros who r b Hwho Hreq Hbody Hv Hb Hkeys Hstate.
    unfold put_item, bind, authenticate, checkPermissions, await, query,
      query_on in *. cbv beta iota in *.
    destruct (by_token (db w) (now e) req true) as [err | who']; [discriminate |].
    inversion Hwho; subst who'. rewrite Hreq.
    destruct (body req) as [| kv rest]; [congruence |]. cbv beta iota.
    unfold no_keys. rewrite Hv.
    assert (Hcs : forall w0, check_state b w0 = (inr tt, w0)).
    { intros w0. unfold check_state.
      destruct (get "state" b) as [s |] eqn:Hs; [| reflexivity].
      specialize (Hstate s eq_refl).
      destruct (state_of_string s); [reflexivity | congruence]. }
    rewrite Hcs.
    pose proof (filter_empty _ _ (item_not_hit _ _ _ Hno)) as Hf.
    rewrite (update_item_none b _ _ (db w) Hb Hkeys Hf). reflexivity. }
  split; [| reflexivity].
  intros who r Hwho Hreq Hbody.
  unfold put_item, bind, authenticate, checkPermissions in *. simpl in *.
  destruct (by_token (db w) (now e) req true) as [err | who']; [discriminate |].
  inversion Hwho; subst who'. rewrite Hreq, Hbody. reflexivity.
Qed.

(** ** Updates without a field *)

(** C10: [PUT /user] and [PUT /list/:listId] test the validated body and
    return success without a statement when it has no key, and
    [PUT /list/:listId/item/:itemId] does so when the body as received
    has no key.  The item handler makes its test before validation: a
    body that has keys and validates to an object without keys passes the
    test, the [UPDATE] is issued with an empty [SET] list, the statement
    is refused and the request fails with the internal error, where the
    two other handlers return success on a body of that kind.  Whatever
    the validator does, a body with a key never ends in a success without
    a statement there. *)
Theorem empty_update (e : Env) (req : Request) (w : World) :
  (forall who,
      fst (authenticate e req required w) = inr who ->
      jsonValidate (body req)
        [("firstName", true); ("lastName", true); ("password", true)] = inr [] ->
      put_user e req w = (inr tt, w))
  /\ (forall who r,
        fst (authenticate e req optional w) = inr who ->
        requireAtLeast (db w) (userId who) (param_listId req) write = Granted r ->
        jsonValidate (body req) [("name", true)] = inr [] ->
        put_list e req w = (inr tt, w))
  /\ (forall who r,
        fst (authenticate e req required w) = inr who ->
        requireAtLeast (db w) (userId who) (param_listId req) write = Granted r ->
        body req = [] ->
        put_item e req w = (inr tt, w))
  /\ (forall who r,
        fst (authenticate e req required w) = inr who ->
        requireAtLeast (db w) (userId who) (param_listId req) write = Granted r ->
        body req <> [] ->
        jsonValidate (body req)
          [("name", true); ("description", true); ("state", true)] = inr [] ->
        put_item e req w
          = (inl (Sql ER_PARSE_ERROR),
             mkWorld (db w) (journal w ++ [UPDATE_items]) (console w) (leased w))
        /\ failure_response (Sql ER_PARSE_ERROR) = (500, "internal-error"))
  /\ (forall who r,
        fst (authenticate e req required w) = inr who ->
        requireAtLeast (db w) (userId who) (param_listId req) write = Granted r ->
        body req <> [] ->
        (exists err, fst (put_item e req w) = inl err)
        \/ journal (snd (put_item e req w)) = journal w ++ [UPDATE_items]).
Proof.
  split.
  { intros who Hwho Hv. unfold put_user, bind, authenticate, await in *.
    cbv beta iota in *.
    destruct (by_token (db w) (now e) req true) as [err | who']; [discriminate |].
    rewrite Hv. reflexivity. }
  split.
  { intros who r Hwho Hreq Hv.
    unfold put_list, bind, authenticate, checkPermissions, await in *.
    cbv beta iota in *.
    destruct (by_token (db w) (now e) req false) as [err | who']; [discriminate |].
    inversion Hwho; subst who'. rewrite Hreq, Hv. reflexivity. }
  split.
  { intros who r Hwho Hreq Hbody.
    unfold put_item, bind, authenticate, checkPermissions in *.
    cbv beta iota in *.
    destruct (by_token (db w) (now e) req true) as [err | who']; [discriminate |].
    inversion Hwho; subst who'. rewrite Hreq, Hbody. reflexivity. }
  split.
  { intros who r Hwho Hreq Hbody Hv. split; [| reflexivity].
    unfold put_item, bind, authenticate, checkPermissions, await in *.
    cbv beta iota in *.
    destruct (by_token (db w) (now e) req true) as [err | who']; [discriminate |].
    inversion Hwho; subst who'. rewrite Hreq.
    destruct (body req) as [| kv rest]; [congruence |].
    unfold no_keys. rewrite Hv. reflexivity. }
  intros who r Hwho Hreq Hbody.
  unfold put_item, bind, authenticate, checkPermissions, await, check_state,
    query, query_on, ret, throw in *.
  cbv beta iota in *.
  destruct (by_token (db w) (now e) req true) as [err | who']; [discriminate |].
  inversion Hwho; subst who'. rewrite Hreq.
  destruct (body req) as [| kv rest]; [congruence |].
  unfold no_keys.
  destruct (jsonValidate (kv :: rest) _) as [err | b];
    [left; eexists; reflexivity |].
  destruct (get "state" b) as [s |];
    [destruct (state_of_string s); [| left; eexists; reflexivity] |];
    (destruct (update_item engine b (param_listId req) (param_itemId req) (db w))
       as [err | [ok d']]; [left; eexists; reflexivity |];
     right; simpl; destruct (affectedRows ok =? 0); reflexivity).
Qed.

(** *** Usernames *)

Ltac same_users H :=
  repeat match type of H with
         | context [match ?x with _ => _ end] => destruct x; try discriminate
         end;
  injection H as _ <-; assumption.

Lemma collated_closed : Closed collated.
Proof.
  constructor.
  - intros b d ok d' Hn H. apply insert_user_inv in H.
    destruct H as [row [_ [Hfree [_ ->]]]]. unfold collated in *. simpl.
    rewrite map_app. simpl. apply NoDup_snoc; [assumption |].
    intros Hin. apply name_used_in in Hin. congruence.
  - intros b uid d ok d' Hn H. apply update_user_inv in H.
    destruct H as [-> | [old [i [f [l [u [p [s H]]]]]]]]; [assumption |].
    cbv zeta in H. destruct H as [_ [_ [_ [Hname ->]]]].
    unfold collated in *. simpl.
    apply (NoDup_patched (same_name engine) (weight engine) username u _ _
             (users d));
      [apply same_name_weight | exact Hname | reflexivity | assumption].
  - intros uid d ok d' Hn H. unfold delete_user in H.
    injection H as _ <-. unfold collated in *. simpl.
    now apply NoDup_map_filter.
  - intros uid t d ok d' Hn H. unfold insert_session in H. same_users H.
  - intros sid d ok d' Hn H. unfold delete_session in H. same_users H.
  - intros b d ok d' Hn H. apply insert_list_inv in H.
    destruct H as [row [_ [_ ->]]]. exact Hn.
  - intros b lid d ok d' Hn H. apply update_list_inv in H.
    destruct H as [-> | [i [n H]]]; [assumption |].
    cbv zeta in H. destruct H as [_ [_ ->]]. exact Hn.
  - intros hit d Hn. exact Hn.
  - intros b uid d ok d1 ok' d2 Hn H1 H2. apply insert_list_inv in H1.
    destruct H1 as [row [_ [_ ->]]]. unfold insert_permission in H2.
    same_users H2.
  - intros uid lid r d ok d' Hn H. unfold upsert_permission in H. same_users H.
  - intros uid lid d ok d' Hn H. unfold delete_permission in H. same_users H.
  - intros b lid d ok d' Hn H. apply insert_item_inv in H.
    destruct H as [row [_ [_ [_ [_ ->]]]]]. exact Hn.
  - intros b lid iid d ok d' Hn H. apply update_item_inv in H.
    destruct H as [-> | [i [l [n [t [s H]]]]]]; [assumption |].
    cbv zeta in H. destruct H as [_ [_ [_ ->]]]. exact Hn.
  - intros lid iid d ok d' Hn H. unfold delete_item in H. same_users H.
  - intros t d ok d' Hn H. unfold delete_expired_sessions in H. same_users H.
Qed.

Lemma init_collated : collated init.
Proof. constructor. Qed.

(** Names that differ under the collation differ. *)
Lemma collated_named (d : Database) : collated d -> named d.
Proof.
  unfold collated, named. intros H.
  rewrite <- (map_map username (weight engine)) in H.
  exact (NoDup_map_inv _ _ H).
Qed.

Lemma reachable_keyed (d : Database) : reachable d -> keyed d.
Proof. exact (reachable_closed keyed d init_keyed keyed_closed). Qed.

Lemma reachable_referenced (d : Database) : reachable d -> referenced d.
Proof. exact (reachable_closed referenced d init_referenced referenced_closed). Qed.

(** X1: in every state a server can reach, the ids of each of the five
    tables are pairwise different, and the ids of the sessions and of the
    permissions, which are always generated, are below the
    [AUTO_INCREMENT] counter of their table. *)
Theorem primary_keys (d : Database) : reachable d -> keyed d.
Proof.
  intros [history <-]. unfold run.
  assert (Hrun : forall w, keyed (db w) ->
                   keyed (db (fold_left (fun w a => perform a w) history w))).
  { induction history as [| a h IH]; cbn [fold_left]; intros w Hw;
      [exact Hw |].
    apply IH. apply perform_maintains; [exact keyed_closed | exact Hw]. }
  apply Hrun. exact init_keyed.
Qed.

(** X2: in every state a server can reach, every session and every
    permission of a user refers to a stored user, and every item and
    every permission refers to a stored list: what the cascades of the
    schema and the order of the inserts in the handlers leave behind
    never dangles. *)
Theorem foreign_keys (d : Database) : reachable d -> referenced d.
Proof.
  intros [history <-]. unfold run.
  assert (Hrun : forall w, referenced (db w) ->
                   referenced (db (fold_left (fun w a => perform a w) history w))).
  { induction history as [| a h IH]; cbn [fold_left]; intros w Hw;
      [exact Hw |].
    apply IH. apply perform_maintains; [exact referenced_closed | exact Hw]. }
  apply Hrun. exact init_referenced.
Qed.

(** X3: in every state a server can reach, no two users share a
    username: the unique index refuses the signup and the update that
    would give a second user the name. *)
Theorem usernames_unique (d : Database) : reachable d -> named d.
Proof.
  intros [history <-]. unfold run.
  assert (Hrun : forall w, collated (db w) ->
                   collated (db (fold_left (fun w a => perform a w) history w))).
  { induction history as [| a h IH]; cbn [fold_left]; intros w Hw;
      [exact Hw |].
    apply IH. apply perform_maintains; [exact collated_closed | exact Hw]. }
  apply collated_named. apply Hrun. exact init_collated.
Qed.

(** ** Users and their sessions *)




Lemma assigned_within (n : nat) (v : option string) :
  within n v = true -> assigned (varchar engine n) v = inr v.
Proof.
  destruct v as [s |]; simpl; [| reflexivity].
  intros H. now rewrite (varchar_fits n s H).
Qed.





Lemma find_snoc_new {A} (f : A -> bool) (l : list A) (x : A) :
  (forall y, In y l -> f y = false) -> f x = true -> find f (l ++ [x]) = Some x.
Proof.
  intros Hl Hx. induction l as [| y l IH]; simpl.
  - now rewrite Hx.
  - rewrite (Hl y (or_introl eq_refl)). apply IH.
    intros z Hz. apply Hl. now right.
Qed.



Lemma union_with_false (l : list UserRow) :
  hd_error (distinct (map (fun _ => true) l ++ [false]))
  = Some (match l with [] => false | _ => true end).
Proof. destruct l; reflexivity. Qed.

Lemma filter_nonempty {A} (f : A -> bool) (l : list A) :
  match filter f l with [] => false | _ => true end = existsb f l.
Proof.
  induction l as [| x l IH]; simpl; [reflexivity |].
  destruct (f x); simpl; [reflexivity | assumption].
Qed.

(** X5: [GET /user/name-taken] asks for no credentials; on a validated
    query with a username it answers [true] exactly when a stored user has
    a username that equals it under the collation of the column, and
    leaves every table as it was. *)
Theorem name_taken_answer (params b : Body) (name : string) (w : World) :
  jsonValidate params [("username", false)] = inr b ->
  get "username" b = Some name ->
  exists taken,
    fst (get_name_taken params w) = inr taken
    /\ (taken = true
        <-> exists u, In u (users (db w))
                      /\ weight engine (username u) = weight engine name)
    /\ db (snd (get_name_taken params w)) = db w.
Proof.
  intros Hv Hname.
  exists (existsb (fun u => same_name engine (username u) name) (users (db w))).
  unfold get_name_taken.
  rewrite (bind_ok _ _ _ _ _ (f_equal (fun r => (r, w)) Hv)).
  rewrite Hname.
  rewrite (bind_ok _ _ _ _ _
             (query_ok SELECT_users (select_name_taken engine (Some name)) w _ _
                eq_refl)).
  pose proof (union_with_false
                (filter (fun r => same_name engine (username r) name)
                   (users (db w))))
    as Hhd.
  rewrite filter_nonempty in Hhd.
  destruct (distinct _) as [| t rest]; [discriminate |].
  injection Hhd as ->.
  split; [reflexivity |]. split; [| reflexivity].
  rewrite existsb_exists.
  split; intros [u [Hin Hu]]; exists u; (split; [assumption |]);
    now apply same_name_weight.
Qed.

Lemma count_hit {A} (f : A -> bool) (l : list A) (x : A) :
  In x l -> f x = true -> (count f l =? 0) = false.
Proof.
  intros Hin Hx. apply N.eqb_neq. unfold count.
  assert (Hf : In x (filter f l)) by (apply filter_In; now split).
  destruct (filter f l); [contradiction | simpl; lia].
Qed.

(** What [authenticate] yields under the [required] policy: the user and
    the id of a stored session that has not expired. *)
Lemma token_identity (e : Env) (req : Request) (w : World) (who : Identity) :
  fst (authenticate e req required w) = inr who ->
  exists s, In s (sessions (db w))
            /\ who = mkIdentity (Some (session_userId s)) (Some (session_id s))
            /\ now e < expirationDate s.
Proof.
  unfold authenticate, by_token, resolve. simpl.
  destruct (bearer req) as [token |]; [| discriminate].
  destruct (decrypt token) as [sid |]; [| discriminate].
  destruct (find _ _) as [s |] eqn:Hfind; [| discriminate].
  destruct (expirationDate s <=? now e) eqn:Hexp; [discriminate |].
  intros H. injection H as <-. apply find_some in Hfind.
  destruct Hfind as [Hin Hid]. apply N.eqb_eq in Hid. subst sid.
  exists s. split; [assumption |]. split; [reflexivity |].
  apply N.leb_gt in Hexp. exact Hexp.
Qed.

(** X7: on a server reached by requests, [GET /user] with a token that
    authenticates answers the id, the names and the username of a stored
    user, the one the token's session belongs to; it never fails with
    [Unexpected missing user], and it changes no table. *)
Theorem profile_of_session_user (e : Env) (req : Request) (w : World)
    (who : Identity) :
  reachable (db w) ->
  fst (authenticate e req required w) = inr who ->
  exists u, In u (users (db w))
            /\ userId who = Some (user_id u)
            /\ fst (get_user e req w)
               = inr (mkUserView (user_id u) (firstName u) (lastName u)
                        (username u))
            /\ db (snd (get_user e req w)) = db w.
Proof.
  intros Hreach Hauth.
  pose proof (reachable_referenced (db w) Hreach) as Href.
  destruct (token_identity e req w who Hauth) as [s [Hs [Hwho _]]].
  pose proof (session_user _ Href s Hs) as Hex.
  unfold user_exists in Hex.
  unfold get_user. rewrite (bind_ok _ _ _ _ _ (authenticate_ok _ _ _ _ _ Hauth)).
  rewrite (bind_ok _ _ _ _ _
             (query_ok SELECT_users (select_user (userId who)) w _ _ eq_refl)).
  subst who. cbv beta iota delta [userId sql_eq].
  pose proof (filter_nonempty (fun r => user_id r =? session_userId s)
                (users (db w))) as Hne.
  rewrite Hex in Hne.
  destruct (filter _ _) as [| u rest] eqn:Hf; [discriminate |].
  assert (Hu : In u (filter (fun r => user_id r =? session_userId s)
                       (users (db w)))) by (rewrite Hf; now left).
  apply filter_In in Hu. destruct Hu as [Hin Hid]. apply N.eqb_eq in Hid.
  exists u. split; [assumption |]. split; [now rewrite Hid |].
  split; reflexivity.
Qed.

Lemma NoDup_single {A} (f : A -> Id) (l : list A) (i : Id) :
  NoDup (map f l) -> single (filter (fun r => f r =? i) l) = true.
Proof.
  induction l as [| a l IH]; simpl; intros Hnd; [reflexivity |].
  inversion Hnd as [| k ks Hk Hl]; subst.
  destruct (f a =? i) eqn:E; [| now apply IH].
  apply N.eqb_eq in E. subst i.
  rewrite (filter_empty (fun r => f r =? f a) l); [reflexivity |].
  intros x Hx. apply N.eqb_neq. intros Heq. apply Hk.
  rewrite <- Heq. now apply in_map.
Qed.

Lemma no_clash {A K} (same : K -> K -> bool) (column : A -> K)
    (v : option K) (hit : A -> bool) (l : list A) :
  single (filter hit l) = true ->
  (forall v' r, v = Some v' -> In r l -> hit r = false ->
                same (column r) v' = false) ->
  clash same column v hit l = false.
Proof.
  intros Hone Hfree. unfold clash. destruct v as [v' |]; [| reflexivity].
  rewrite Hone. cbn [negb orb]. apply not_true_iff_false. intros Hex.
  apply existsb_exists in Hex. destruct Hex as [r [Hin Hs]].
  apply filter_In in Hin. destruct Hin as [Hin Hh].
  apply negb_true_iff in Hh. rewrite (Hfree v' r eq_refl Hin Hh) in Hs.
  discriminate.
Qed.

Lemma assigned_exact (n : nat) (v : option string) :
  (forall h, v = Some h -> String.length h = n) ->
  assigned (binary engine n) v = inr v.
Proof.
  destruct v as [h |]; simpl; [| reflexivity].
  intros H. now rewrite (binary_exact n h (H h eq_refl)).
Qed.

(** An [UPDATE] of a stored user that leaves the id alone, with values
    that fit their columns and a username no other user has. *)
Lemma update_user_runs (b : Body) (uid : Id) (d : Database) :
  b <> [] ->
  keys_within ["firstName"; "lastName"; "username"; "password"; "salt"] b
    = true ->
  within 255 (get "firstName" b) = true ->
  within 255 (get "lastName" b) = true ->
  within 255 (get "username" b) = true ->
  (forall h, get "password" b = Some h -> String.length h = key_size engine) ->
  (forall s, get "salt" b = Some s -> String.length s = salt_size engine) ->
  filter (fun r => user_id r =? uid) (users d) <> [] ->
  clash (same_name engine) username (get "username" b)
    (fun r => user_id r =? uid) (users d) = false ->
  update_user engine b (Some uid) d
  = inr (mkOk 0 (count (fun r => user_id r =? uid) (users d)),
         with_users d
           (map (fun r => if user_id r =? uid
                          then patch_user None (get "firstName" b)
                                 (get "lastName" b) (get "username" b)
                                 (get "password" b) (get "salt" b) r
                          else r)
              (users d))).
Proof.
  intros Hb Hk Hf Hl Hu Hp Hs Hhit Hclash. unfold update_user.
  assert (Hnk : no_keys b = false) by (destruct b; [congruence | reflexivity]).
  assert (Hcols : keys_within user_columns b = true).
  { apply (keys_within_more
             ["firstName"; "lastName"; "username"; "password"; "salt"]);
      [| assumption].
    intros k. simpl. intros H.
    repeat (apply orb_true_iff in H; destruct H as [H | H];
            [rewrite H; rewrite ?orb_true_r; reflexivity |]).
    discriminate. }
  assert (Hid : get "id" b = None).
  { apply (get_outside
             ["firstName"; "lastName"; "username"; "password"; "salt"]);
      [assumption | reflexivity]. }
  rewrite Hnk, Hcols. cbn [negb sql_eq].
  destruct (filter (fun r => user_id r =? uid) (users d)) as [| x m] eqn:Hfl;
    [congruence |].
  rewrite Hid. cbn [assigned].
  rewrite (assigned_within 255 _ Hf), (assigned_within 255 _ Hl),
    (assigned_within 255 _ Hu), (assigned_exact _ _ Hp), (assigned_exact _ _ Hs).
  rewrite Hclash. cbn [clash orb]. unfold count. rewrite Hfl. reflexivity.
Qed.

(** X8: [PUT /user] with a validated body that has a field rewrites the
    row of the caller and no other: the names given replace the stored
    ones, a username the validator lets through replaces the stored one
    when no other user has it under the collation, and a password given
    is stored as its hash under a fresh salt together with that salt; the
    id stays.  Sessions, lists, items and permissions are as before.  The
    values, the hash and the salt are such as fit their columns. *)
Theorem put_user_effect (e : Env) (req : Request) (w : World) (who : Identity)
    (u : UserRow) (b : Body) :
  reachable (db w) ->
  fst (authenticate e req required w) = inr who ->
  userId who = Some (user_id u) ->
  In u (users (db w)) ->
  jsonValidate (body req)
    [("firstName", true); ("lastName", true); ("password", true)] = inr b ->
  keys_within ["firstName"; "lastName"; "username"; "password"] b = true ->
  b <> [] ->
  within 255 (get "firstName" b) = true ->
  within 255 (get "lastName" b) = true ->
  within 255 (get "username" b) = true ->
  (forall p, get "password" b = Some p ->
     String.length (hashPassword p (fresh_salt e)) = key_size engine
     /\ String.length (fresh_salt e) = salt_size engine) ->
  (forall n r, get "username" b = Some n -> In r (users (db w)) ->
     user_id r <> user_id u ->
     weight engine (username r) <> weight engine n) ->
  let d := db w in
  let d' := db (snd (put_user e req w)) in
  let stored r :=
    mkUser (user_id r)
      (or_else (get "firstName" b) (firstName r))
      (or_else (get "lastName" b) (lastName r))
      (or_keep (get "username" b) (username r))
      (match get "password" b with
       | Some p => hashPassword p (fresh_salt e)
       | None => password r
       end)
      (match get "password" b with
       | Some _ => fresh_salt e
       | None => salt r
       end) in
  fst (put_user e req w) = inr tt
  /\ users d'
     = map (fun r => if user_id r =? user_id u then stored r else r) (users d)
  /\ sessions d' = sessions d /\ lists d' = lists d /\ items d' = items d
  /\ permissions d' = permissions d.
Proof.
  intros Hreach Hauth Hwho Hin Hv Hkeys Hfilled Hf Hl Hu Hpass Hfree.
  cbv zeta.
  pose proof (reachable_keyed (db w) Hreach) as Hkeyed.
  assert (Hwide : keys_within
                    ["firstName"; "lastName"; "username"; "password"; "salt"] b
                  = true).
  { apply (keys_within_more ["firstName"; "lastName"; "username"; "password"]);
      [| assumption].
    intros k. simpl. intros H.
    repeat (apply orb_true_iff in H; destruct H as [H | H];
            [rewrite H; rewrite ?orb_true_r; reflexivity |]).
    discriminate. }
  assert (Hhit : (count (fun r => user_id r =? user_id u) (users (db w)) =? 0)
                 = false).
  { apply (count_hit _ _ u Hin). apply N.eqb_refl. }
  assert (Hsome : filter (fun r => user_id r =? user_id u) (users (db w)) <> []).
  { intros Hnil.
    assert (Hu' : In u (filter (fun r => user_id r =? user_id u) (users (db w))))
      by (apply filter_In; split; [assumption | apply N.eqb_refl]).
    rewrite Hnil in Hu'. destruct Hu'. }
  assert (Hclash : forall b2,
            get "username" b2 = get "username" b ->
            clash (same_name engine) username (get "username" b2)
              (fun r => user_id r =? user_id u) (users (db w)) = false).
  { intros b2 ->. apply no_clash.
    - apply NoDup_single. exact (user_ids _ Hkeyed).
    - intros n r Hn Hr Hh. apply not_true_iff_false. intros Hs.
      apply same_name_weight in Hs. apply N.eqb_neq in Hh.
      exact (Hfree n r Hn Hr Hh Hs). }
  unfold put_user.
  rewrite (bind_ok _ _ _ _ _ (authenticate_ok _ _ _ _ _ Hauth)).
  rewrite (bind_ok _ _ _ _ _ (f_equal (fun r => (r, w)) Hv)).
  rewrite Hwho.
  assert (Hnk : no_keys b = false) by (destruct b; [congruence | reflexivity]).
  rewrite Hnk. unfold has_key, hash_with.
  destruct (get "password" b) as [p |] eqn:Hp.
  - destruct (Hpass p eq_refl) as [Hhash Hsalt].
    set (b2 := set_key "salt" (fresh_salt e)
                 (set_key "password" (hashPassword p (fresh_salt e)) b)).
    assert (Hk2 : keys_within
                    ["firstName"; "lastName"; "username"; "password"; "salt"]
                    b2 = true).
    { unfold b2. apply keys_within_set; [reflexivity |].
      apply keys_within_set; [reflexivity | assumption]. }
    assert (Hg : get "salt" b2 = Some (fresh_salt e)
                 /\ get "password" b2 = Some (hashPassword p (fresh_salt e))
                 /\ get "firstName" b2 = get "firstName" b
                 /\ get "lastName" b2 = get "lastName" b
                 /\ get "username" b2 = get "username" b).
    { unfold b2. rewrite get_set_same.
      rewrite !(get_set_other "salt") by reflexivity.
      rewrite get_set_same.
      rewrite !(get_set_other "password") by reflexivity.
      auto. }
    destruct Hg as [Hg1 [Hg2 [Hg3 [Hg4 Hg5]]]].
    rewrite (bind_ok _ _ w w b2 eq_refl).
    rewrite (bind_ok _ _ _ _ _
               (query_ok UPDATE_users _ w _ _
                  (update_user_runs b2 (user_id u) (db w)
                     (set_key_filled _ _ _) Hk2
                     ltac:(now rewrite Hg3) ltac:(now rewrite Hg4)
                     ltac:(now rewrite Hg5)
                     ltac:(intros h Hh; rewrite Hg2 in Hh; now injection Hh as <-)
                     ltac:(intros h Hh; rewrite Hg1 in Hh; now injection Hh as <-)
                     Hsome (Hclash b2 Hg5)))).
    cbv beta iota delta [affectedRows]. rewrite Hhit.
    unfold ret, issued, with_users. simpl.
    repeat split. apply map_ext. intros r. unfold patch_user.
    now rewrite Hg1, Hg2, Hg3, Hg4, Hg5.
  - assert (Hsalt : get "salt" b = None).
    { apply (get_outside ["firstName"; "lastName"; "username"; "password"]);
        [assumption | reflexivity]. }
    rewrite (bind_ok _ _ w w b eq_refl).
    rewrite (bind_ok _ _ _ _ _
               (query_ok UPDATE_users _ w _ _
                  (update_user_runs b (user_id u) (db w) Hfilled Hwide Hf Hl Hu
                     ltac:(intros h Hh; congruence)
                     ltac:(intros h Hh; congruence)
                     Hsome (Hclash b eq_refl)))).
    cbv beta iota delta [affectedRows]. rewrite Hhit.
    unfold ret, issued, with_users. simpl.
    repeat split. apply map_ext. intros r. unfold patch_user.
    now rewrite Hp, Hsalt.
Qed.

Lemma mem_gone {A} (f : A -> Id) (l : list A) (x : A) (i : Id) :
  In x l ->
  mem_id i (map f (filter (fun r => f r =? f x) l)) = (i =? f x).
Proof.
  intros Hin. apply eq_true_iff_eq. rewrite mem_id_in, in_map_iff, N.eqb_eq.
  split.
  - intros [r [Hr Hf]]. apply filter_In in Hf. destruct Hf as [_ Hf].
    apply N.eqb_eq in Hf. congruence.
  - intros ->. exists x. split; [reflexivity |].
    apply filter_In. split; [assumption | apply N.eqb_refl].
Qed.

Lemma delete_user_runs (e : Env) (req : Request) (w : World) (who : Identity)
    (u : UserRow) :
  fst (authenticate e req required w) = inr who ->
  userId who = Some (user_id u) ->
  In u (users (db w)) ->
  delete_user_handler e req w
  = (inr tt, issued DELETE_users (without_user (user_id u) (db w)) w).
Proof.
  intros Hauth Hwho Hin. unfold delete_user_handler.
  rewrite (bind_ok _ _ _ _ _ (authenticate_ok _ _ _ _ _ Hauth)).
  rewrite Hwho.
  rewrite (bind_ok _ _ _ _ _
             (query_ok DELETE_users (delete_user (Some (user_id u))) w _ _
                eq_refl)).
  cbv beta iota delta [affectedRows sql_eq].
  rewrite (count_hit _ _ u Hin (N.eqb_refl _)).
  unfold ret, without_user. do 2 f_equal. f_equal.
  - apply filter_ext. intros s. now rewrite (mem_gone user_id _ u _ Hin).
  - apply filter_ext. intros p. destruct (permission_userId p) as [v |];
      [| reflexivity].
    now rewrite (mem_gone user_id _ u _ Hin).
Qed.

(** X9: [DELETE /user] removes the caller's row, and the cascade removes
    the sessions and the permission rows of that user and of nobody else;
    no list and no item is removed, also not the lists the user owned. *)
Theorem delete_user_cascade (e : Env) (req : Request) (w : World)
    (who : Identity) (u : UserRow) :
  fst (authenticate e req required w) = inr who ->
  userId who = Some (user_id u) ->
  In u (users (db w)) ->
  let d := db w in
  let d' := db (snd (delete_user_handler e req w)) in
  fst (delete_user_handler e req w) = inr tt
  /\ users d' = filter (fun r => negb (user_id r =? user_id u)) (users d)
  /\ sessions d'
     = filter (fun s => negb (session_userId s =? user_id u)) (sessions d)
  /\ permissions d'
     = filter (fun p => negb (same_user (permission_userId p)
                                (Some (user_id u)))) (permissions d)
  /\ lists d' = lists d /\ items d' = items d.
Proof.
  intros Hauth Hwho Hin. cbv zeta.
  rewrite (delete_user_runs e req w who u Hauth Hwho Hin).
  simpl. repeat split.
Qed.

(** What [authenticate] yields under the [credentials] policy: a stored
    user, and no session. *)
Lemma credentials_identity (e : Env) (req : Request) (w : World)
    (who : Identity) :
  fst (authenticate e req credentials w) = inr who ->
  exists u, In u (users (db w)) /\ who = mkIdentity (Some (user_id u)) None.
Proof.
  unfold authenticate, by_credentials. simpl.
  destruct (login req) as [[name pass] |]; [| discriminate].
  destruct (find _ _) as [u |] eqn:Hfind; [| discriminate].
  destruct (String.eqb _ _); [| discriminate].
  intros H. injection H as <-. apply find_some in Hfind.
  exists u. split; [apply Hfind | reflexivity].
Qed.

(** X10: a login that authenticates opens one more session of that user,
    expiring [tokenLifetime] after now, and closes none; on a server
    reached by requests the token it returns authenticates as that user
    until the expiry, given that [decrypt] opens the token [encrypt] made
    of the new session id. *)
Theorem login_opens_session (e e' : Env) (req req' : Request) (w : World)
    (who : Identity) :
  reachable (db w) ->
  fst (authenticate e req credentials w) = inr who ->
  decrypt (encrypt (next_session (db w))) = Some (next_session (db w)) ->
  bearer req' = Some (encrypt (next_session (db w))) ->
  now e' < now e + tokenLifetime ->
  let d := db w in
  let w' := snd (post_login e req w) in
  exists uid,
    userId who = Some uid
    /\ fst (post_login e req w)
       = inr (encrypt (next_session d), now e + tokenLifetime)
    /\ sessions (db w')
       = sessions d ++ [mkSession (next_session d) uid (now e + tokenLifetime)]
    /\ fst (authenticate e' req' required w')
       = inr (mkIdentity (Some uid) (Some (next_session d))).
Proof.
  intros Hreach Hauth Hopen Hbearer Hlive. cbv zeta.
  pose proof (reachable_keyed (db w) Hreach) as Hkeyed.
  destruct (credentials_identity e req w who Hauth) as [u [Hu Hwho]].
  exists (user_id u). split; [now rewrite Hwho |].
  assert (Hex : user_exists (db w) (user_id u) = true).
  { apply user_exists_in. now apply in_map. }
  assert (Hrun : post_login e req w
                 = (inr (encrypt (next_session (db w)), now e + tokenLifetime),
                    issued INSERT_sessions
                      (mkDatabase (users (db w))
                         (sessions (db w)
                            ++ [mkSession (next_session (db w)) (user_id u)
                                  (now e + tokenLifetime)])
                         (lists (db w)) (items (db w)) (permissions (db w))
                         (next_user (db w)) (next_session (db w) + 1)
                         (next_list (db w)) (next_item (db w))
                         (next_permission (db w))) w)).
  { unfold post_login.
    rewrite (bind_ok _ _ _ _ _ (authenticate_ok _ _ _ _ _ Hauth)).
    rewrite Hwho. cbv beta iota delta [userId].
    erewrite bind_ok;
      [| apply query_ok; unfold insert_session; rewrite Hex; reflexivity].
    reflexivity. }
  rewrite Hrun. cbv beta iota delta [fst snd].
  split; [reflexivity |]. split; [reflexivity |].
  unfold authenticate, by_token. rewrite Hbearer, Hopen.
  unfold resolve, issued. simpl.
  rewrite (find_snoc_new _ (sessions (db w))
             (mkSession (next_session (db w)) (user_id u)
                (now e + tokenLifetime))).
  - simpl. apply N.ltb_lt in Hlive. rewrite N.ltb_antisym in Hlive.
    apply negb_true_iff in Hlive. now rewrite Hlive.
  - intros s Hs. apply N.eqb_neq.
    pose proof (session_ids_below _ Hkeyed s Hs). lia.
  - simpl. apply N.eqb_refl.
Qed.

(** X11: a logout with a token that authenticates deletes the session of
    the token and no other; from then on the token is refused, at any
    time, with the failure of status 401. *)
Theorem logout_closes_session (e e' : Env) (req : Request) (w : World)
    (who : Identity) (sid : Id) :
  fst (authenticate e req optional w) = inr who ->
  sessionId who = Some sid ->
  let d := db w in
  let w' := snd (post_logout e req w) in
  fst (post_logout e req w) = inr tt
  /\ sessions (db w')
     = filter (fun s => negb (session_id s =? sid)) (sessions d)
  /\ users (db w') = users d /\ lists (db w') = lists d
  /\ items (db w') = items d /\ permissions (db w') = permissions d
  /\ fst (authenticate e' req required w') = inl Unauthorized.
Proof.
  intros Hauth Hsid. cbv zeta.
  assert (Hrun : post_logout e req w
                 = (inr tt,
                    issued DELETE_sessions
                      (with_sessions (db w)
                         (filter (fun s => negb (session_id s =? sid))
                            (sessions (db w)))) w)).
  { unfold post_logout.
    rewrite (bind_ok _ _ _ _ _ (authenticate_ok _ _ _ _ _ Hauth)).
    rewrite Hsid.
    now rewrite (bind_ok _ _ _ _ _
                   (query_ok DELETE_sessions (delete_session (Some sid)) w _ _
                      eq_refl)). }
  rewrite Hrun. cbv beta iota delta [fst snd].
  repeat (split; [reflexivity |]).
  unfold authenticate, by_token, resolve in *. simpl in *.
  destruct (bearer req) as [token |];
    [| injection Hauth as <-; discriminate].
  destruct (decrypt token) as [sid' |]; [| reflexivity].
  destruct (find _ (sessions (db w))) as [s |]; [| discriminate].
  destruct (expirationDate s <=? now e); [discriminate |].
  injection Hauth as <-. simpl in Hsid. injection Hsid as ->.
  destruct (find _ (filter _ _)) as [s' |] eqn:Hfind; [| reflexivity].
  apply find_some in Hfind. destruct Hfind as [Hin Hid].
  apply filter_In in Hin. destruct Hin as [_ Hin].
  rewrite Hid in Hin. discriminate.
Qed.

(** ** Lists and their permissions *)

(** What [authenticate] yields under the [optional] policy: the anonymous
    identity, or the user and the id of a stored session that has not
    expired. *)
Lemma optional_identity (e : Env) (req : Request) (w : World) (who : Identity) :
  fst (authenticate e req optional w) = inr who ->
  who = mkIdentity None None
  \/ exists s, In s (sessions (db w))
               /\ who = mkIdentity (Some (session_userId s)) (Some (session_id s))
               /\ now e < expirationDate s.
Proof.
  unfold authenticate, by_token, resolve. simpl.
  destruct (bearer req) as [token |];
    [| intros H; injection H as <-; now left].
  destruct (decrypt token) as [sid |]; [| discriminate].
  destruct (find _ _) as [s |] eqn:Hfind; [| discriminate].
  destruct (expirationDate s <=? now e) eqn:Hexp; [discriminate |].
  intros H. injection H as <-. apply find_some in Hfind.
  destruct Hfind as [Hin Hid]. apply N.eqb_eq in Hid. subst sid.
  right. exists s. split; [assumption |]. split; [reflexivity |].
  apply N.leb_gt in Hexp. exact Hexp.
Qed.


Lemma in_select_lists (uid : option Id) (d : Database) (l : ListRow) :
  In l (select_lists uid d)
  <-> In l (lists d)
      /\ exists p, In p (permissions d)
                   /\ permission_userId p = uid
                   /\ permission_listId p = list_id l.
Proof.
  unfold select_lists. rewrite filter_In, mem_id_in, in_map_iff.
  split; intros [Hl [p Hp]]; (split; [assumption |]); exists p.
  - destruct Hp as [Hid Hp]. apply filter_In in Hp. destruct Hp as [Hp Hu].
    apply same_user_eq in Hu. auto.
  - destruct Hp as [Hp [Hu Hid]]. split; [assumption |].
    apply filter_In. split; [assumption |]. now apply same_user_eq.
Qed.

Lemma readable_iff (d : Database) (uid : option Id) (lid : Id) :
  requireAtLeast d uid lid read <> Denied
  <-> exists p, In p (permissions d)
                /\ permission_userId p = uid /\ permission_listId p = lid.
Proof.
  unfold requireAtLeast, lookup_permission. split.
  - destruct (find _ _) as [p |] eqn:Hf; [| congruence].
    intros _. apply find_some in Hf. destruct Hf as [Hin Hh].
    apply holds_key in Hh. unfold key in Hh. injection Hh as Hu Hl.
    exists p. auto.
  - intros [p [Hin [Hu Hl]]].
    destruct (find _ _) as [q |] eqn:Hf.
    + now destruct (role q).
    + apply (find_none _ _ Hf) in Hin.
      assert (Hh : holds uid lid p = true)
        by (apply holds_key; unfold key; congruence).
      congruence.
Qed.

(** X12: [GET /lists] answers the stored lists on which the caller, or
    for a request without a token the anonymous identity, has a
    permission row, and no other list: these are the lists on which the
    check for the [read] role lets the caller through.  It changes no
    table. *)
Theorem lists_of_caller (e : Env) (req : Request) (w : World) (who : Identity) :
  fst (authenticate e req optional w) = inr who ->
  exists answer,
    fst (get_lists e req w) = inr answer
    /\ (forall l, In l answer
                  <-> In l (lists (db w))
                      /\ exists p, In p (permissions (db w))
                                   /\ permission_userId p = userId who
                                   /\ permission_listId p = list_id l)
    /\ (forall l, In l answer
                  <-> In l (lists (db w))
                      /\ requireAtLeast (db w) (userId who) (list_id l) read
                         <> Denied)
    /\ db (snd (get_lists e req w)) = db w.
Proof.
  intros Hauth. exists (select_lists (userId who) (db w)).
  unfold get_lists.
  rewrite (bind_ok _ _ _ _ _ (authenticate_ok _ _ _ _ _ Hauth)).
  split; [reflexivity |]. split; [intros l; apply in_select_lists |].
  split; [| reflexivity].
  intros l. rewrite in_select_lists, readable_iff. reflexivity.
Qed.






(** A role granted by the check belongs to a stored permission row. *)
Lemma granted_row (d : Database) (uid : option Id) (lid : Id) (m r : Role) :
  requireAtLeast d uid lid m = Granted r ->
  exists p, In p (permissions d)
            /\ permission_userId p = uid /\ permission_listId p = lid
            /\ role p = r.
Proof.
  unfold requireAtLeast, lookup_permission.
  destruct (find _ _) as [p |] eqn:Hf; [| discriminate].
  destruct (rank (role p) <? rank m); [discriminate |].
  intros H. injection H as <-. apply find_some in Hf. destruct Hf as [Hin Hh].
  apply holds_key in Hh. unfold key in Hh. injection Hh as Hu Hl.
  exists p. auto.
Qed.

(** On a server reached by requests a role is only ever granted on a
    stored list. *)
Lemma granted_list (d : Database) (uid : option Id) (lid : Id) (m r : Role) :
  reachable d ->
  requireAtLeast d uid lid m = Granted r ->
  exists l, In l (lists d) /\ list_id l = lid.
Proof.
  intros Hreach Hg.
  pose proof (reachable_referenced d Hreach) as Href.
  destruct (granted_row d uid lid m r Hg) as [p [Hin [_ [Hl _]]]].
  pose proof (permission_list _ Href p Hin) as Hex. rewrite Hl in Hex.
  apply list_exists_iff, in_map_iff in Hex. destruct Hex as [l [Hid Hl']].
  exists l. auto.
Qed.

Lemma read_when_granted (d : Database) (uid : option Id) (lid : Id) (m r : Role) :
  requireAtLeast d uid lid m = Granted r ->
  requireAtLeast d uid lid read = Granted r.
Proof.
  unfold requireAtLeast. destruct (lookup_permission d uid lid) as [p |];
    [| discriminate].
  destruct (rank (role p) <? rank m); [discriminate |].
  intros H. injection H as <-. now destruct (role p).
Qed.

(** An [UPDATE] of a stored list that assigns a name that fits its
    column, and nothing else. *)
Lemma update_list_runs (b : Body) (n : string) (lid : Id) (d : Database) :
  keys_within ["name"] b = true ->
  get "name" b = Some n ->
  fits 255 n = true ->
  filter (fun l => list_id l =? lid) (lists d) <> [] ->
  update_list engine b lid d
  = inr (mkOk 0 (count (fun l => list_id l =? lid) (lists d)),
         with_lists d
           (map (fun l => if list_id l =? lid then mkList (list_id l) n else l)
              (lists d))).
Proof.
  intros Hk Hn Hfits Hhit. unfold update_list.
  assert (Hnk : no_keys b = false) by (destruct b; [discriminate | reflexivity]).
  assert (Hcols : keys_within list_columns b = true).
  { apply (keys_within_more ["name"]); [| assumption].
    intros k. simpl. intros H. apply orb_true_iff in H.
    destruct H as [H | H]; [| discriminate]. rewrite H. apply orb_true_r. }
  assert (Hid : get "id" b = None)
    by (apply (get_outside ["name"]); [assumption | reflexivity]).
  rewrite Hnk, Hcols. cbn [negb].
  destruct (filter (fun l => list_id l =? lid) (lists d)) as [| x m] eqn:Hf;
    [congruence |].
  rewrite Hid, Hn. cbn [assigned]. rewrite (varchar_fits 255 n Hfits).
  cbn [clash]. unfold count. rewrite Hf. reflexivity.
Qed.

Lemma renamed_first (lid : Id) (n : string) (ls : list ListRow) (l : ListRow) :
  In l ls -> list_id l = lid ->
  exists rest,
    filter (fun l => list_id l =? lid)
      (map (fun l => if list_id l =? lid then mkList (list_id l) n else l) ls)
    = mkList lid n :: rest.
Proof.
  intros Hl Hid. induction ls as [| x xs IH]; [contradiction |].
  cbn [map filter]. destruct (list_id x =? lid) eqn:Hx.
  - cbn [list_id]. rewrite Hx. apply N.eqb_eq in Hx. rewrite Hx. eauto.
  - rewrite Hx. destruct Hl as [-> | Hl].
    + apply N.eqb_neq in Hx. contradiction.
    + now apply IH.
Qed.

(** X14: on a server reached by requests, [PUT /list/:listId] from a
    caller who passes the check for [write], with a validated body that
    carries a name which fits its column and no other key, gives that
    name to the list of the route and changes nothing else; it never
    fails with [Unexpected missing list], and [GET /list/:listId] then
    answers the id with the new name to that caller. *)
Theorem rename_list (e e' : Env) (req req' : Request) (w : World)
    (who who' : Identity) (r : Role) (b : Body) (n : string) :
  reachable (db w) ->
  fst (authenticate e req optional w) = inr who ->
  requireAtLeast (db w) (userId who) (param_listId req) write = Granted r ->
  jsonValidate (body req) [("name", true)] = inr b ->
  keys_within ["name"] b = true ->
  get "name" b = Some n ->
  fits 255 n = true ->
  let d := db w in
  let lid := param_listId req in
  let w' := snd (put_list e req w) in
  fst (put_list e req w) = inr tt
  /\ lists (db w')
     = map (fun l => if list_id l =? lid then mkList (list_id l) n else l)
         (lists d)
  /\ users (db w') = users d /\ sessions (db w') = sessions d
  /\ items (db w') = items d /\ permissions (db w') = permissions d
  /\ (fst (authenticate e' req' optional w') = inr who' ->
      userId who' = userId who ->
      param_listId req' = lid ->
      fst (get_list e' req' w') = inr (mkList lid n)).
Proof.
  intros Hreach Hauth Hrole Hv Hkeys Hname Hfits. cbv zeta.
  destruct (granted_list _ _ _ _ _ Hreach Hrole) as [l [Hl Hid]].
  assert (Hnk : no_keys b = false) by (destruct b; [discriminate | reflexivity]).
  assert (Hsome : filter (fun l => list_id l =? param_listId req)
                    (lists (db w)) <> []).
  { intros Hnil.
    assert (Hl' : In l (filter (fun l => list_id l =? param_listId req)
                          (lists (db w))))
      by (apply filter_In; split; [assumption | now apply N.eqb_eq]).
    rewrite Hnil in Hl'. destruct Hl'. }
  assert (Hrun : put_list e req w
                 = (inr tt,
                    issued UPDATE_lists
                      (with_lists (db w)
                         (map (fun l => if list_id l =? param_listId req
                                        then mkList (list_id l) n else l)
                            (lists (db w)))) w)).
  { unfold put_list.
    rewrite (bind_ok _ _ _ _ _ (authenticate_ok _ _ _ _ _ Hauth)).
    rewrite (bind_ok _ _ _ _ _ (checkPermissions_ok _ _ _ _ _ Hrole)).
    rewrite (bind_ok _ _ _ _ _ (f_equal (fun r => (r, w)) Hv)).
    rewrite Hnk.
    rewrite (bind_ok _ _ _ _ _
               (query_ok UPDATE_lists _ w _ _
                  (update_list_runs b n (param_listId req) (db w) Hkeys Hname
                     Hfits Hsome))).
    cbn [affectedRows].
    now rewrite (count_hit _ _ l Hl (proj2 (N.eqb_eq _ _) Hid)). }
  rewrite Hrun. cbn [fst snd].
  repeat (split; [reflexivity |]).
  set (w' := issued UPDATE_lists _ w).
  assert (Hread : requireAtLeast (db w') (userId who) (param_listId req) read
                  = Granted r)
    by exact (read_when_granted _ _ _ _ _ Hrole).
  intros Hauth' Hsame Hlid. unfold get_list.
  rewrite (bind_ok _ _ _ _ _ (authenticate_ok _ _ _ _ _ Hauth')).
  rewrite Hsame, Hlid.
  rewrite (bind_ok _ _ _ _ _ (checkPermissions_ok _ _ _ _ _ Hread)).
  unfold bind, peek, select_list, w', issued. cbn [db lists with_lists].
  destruct (renamed_first (param_listId req) n (lists (db w)) l Hl Hid)
    as [rest Hrest].
  now rewrite Hrest.
Qed.

(** X15: on a server reached by requests, [DELETE /list/:listId] from a
    caller who passes the check for [owner] removes the list of the route
    with its items and its permission rows, and nothing of any other
    list; it never fails with [Unexpected missing list], and afterwards
    the check refuses every identity at every role on that list. *)
Theorem delete_list_cascade (e : Env) (req : Request) (w : World)
    (who : Identity) (r : Role) :
  reachable (db w) ->
  fst (authenticate e req optional w) = inr who ->
  requireAtLeast (db w) (userId who) (param_listId req) owner = Granted r ->
  let d := db w in
  let lid := param_listId req in
  let d' := db (snd (delete_list_handler e req w)) in
  fst (delete_list_handler e req w) = inr tt
  /\ lists d' = filter (fun l => negb (list_id l =? lid)) (lists d)
  /\ items d' = filter (fun i => negb (item_listId i =? lid)) (items d)
  /\ permissions d'
     = filter (fun p => negb (permission_listId p =? lid)) (permissions d)
  /\ users d' = users d /\ sessions d' = sessions d
  /\ forall uid m, requireAtLeast d' uid lid m = Denied.
Proof.
  intros Hreach Hauth Hrole. cbv zeta.
  destruct (granted_list _ _ _ _ _ Hreach Hrole) as [l [Hl Hid]].
  assert (Hrun : delete_list_handler e req w
                 = (inr tt,
                    issued DELETE_lists (without_list (param_listId req) (db w))
                      w)).
  { unfold delete_list_handler.
    rewrite (bind_ok _ _ _ _ _ (authenticate_ok _ _ _ _ _ Hauth)).
    rewrite (bind_ok _ _ _ _ _ (checkPermissions_ok _ _ _ _ _ Hrole)).
    rewrite (bind_ok _ _ _ _ _
               (query_ok DELETE_lists (delete_list (param_listId req)) w _ _
                  eq_refl)).
    unfold drop_lists. cbn [fst snd affectedRows].
    rewrite (count_hit _ _ l Hl (proj2 (N.eqb_eq _ _) Hid)).
    unfold ret, without_list. rewrite <- Hid. do 2 f_equal. f_equal.
    - apply filter_ext. intros i. now rewrite (mem_gone list_id _ l _ Hl).
    - apply filter_ext. intros p. now rewrite (mem_gone list_id _ l _ Hl). }
  rewrite Hrun. cbn [fst snd].
  repeat (split; [reflexivity |]).
  intros uid m. unfold requireAtLeast.
  rewrite (proj2 (lookup_none _ uid (param_listId req))); [reflexivity |].
  intros p Hp. unfold issued, without_list in Hp. cbn [db permissions] in Hp.
  apply filter_In in Hp. destruct Hp as [_ Hp].
  apply negb_true_iff in Hp. unfold holds. rewrite Hp. apply andb_false_r.
Qed.

Lemma role_of_set (k k' : option Id) (r : Role) (o : Roles) :
  role_of k (set_role k' r o) = if same_user k' k then Some r else role_of k o.
Proof.
  induction o as [| [k0 r0] o IH]; cbn [set_role role_of]; [reflexivity |].
  destruct (same_user k0 k') eqn:H0; cbn [role_of].
  - apply same_user_eq in H0. subst k0.
    now destruct (same_user k' k).
  - rewrite IH. destruct (same_user k0 k) eqn:H1; [| reflexivity].
    apply same_user_eq in H1. subst k0.
    destruct (same_user k' k) eqn:H2; [| reflexivity].
    apply same_user_eq in H2. subst k'.
    assert (H3 : same_user k k = true) by now apply same_user_eq.
    congruence.
Qed.

(** The object the loop of [GET /list/:listId/users] builds, read at a
    key, when no two rows have the same user. *)
Lemma role_of_rows (k : option Id) (rows acc : Roles) :
  NoDup (map fst rows) ->
  role_of k (fold_left (fun users user => set_role (fst user) (snd user) users)
               rows acc)
  = match find (fun x => same_user (fst x) k) rows with
    | Some x => Some (snd x)
    | None => role_of k acc
    end.
Proof.
  revert acc. induction rows as [| x rows IH]; intros acc Hnd; [reflexivity |].
  cbn [fold_left find map] in *. apply NoDup_cons_iff in Hnd.
  destruct Hnd as [Hnew Hnd]. rewrite (IH _ Hnd), role_of_set.
  destruct (same_user (fst x) k) eqn:Hx; [| reflexivity].
  apply same_user_eq in Hx.
  destruct (find _ rows) as [y |] eqn:Hf; [| reflexivity].
  apply find_some in Hf. destruct Hf as [Hin Hy]. apply same_user_eq in Hy.
  exfalso. apply Hnew. rewrite Hx, <- Hy. now apply in_map.
Qed.

Lemma find_selected {A B} (f : A -> B) (h : A -> bool) (g : B -> bool)
    (l : list A) :
  find g (map f (filter h l)) = option_map f (find (fun a => h a && g (f a)) l).
Proof.
  induction l as [| a l IH]; [reflexivity |]. cbn [filter find].
  destruct (h a); cbn [map find andb]; [| exact IH].
  destruct (g (f a)); [reflexivity | exact IH].
Qed.

Lemma find_same {A} (f g : A -> bool) (l : list A) :
  (forall a, f a = g a) -> find f l = find g l.
Proof.
  intros H. induction l as [| a l IH]; [reflexivity |].
  cbn [find]. now rewrite H, IH.
Qed.

Lemma users_of_list_unique (lid : Id) (l : list PermissionRow) :
  NoDup (map key l) ->
  NoDup (map permission_userId (filter (fun p => permission_listId p =? lid) l)).
Proof.
  induction l as [| p l IH]; intros Hnd; [constructor |].
  cbn [map filter] in *. apply NoDup_cons_iff in Hnd. destruct Hnd as [Hnew Hnd].
  destruct (permission_listId p =? lid) eqn:Hp; [| now apply IH].
  cbn [map]. constructor; [| now apply IH].
  intros Hin. apply in_map_iff in Hin. destruct Hin as [q [Hu Hq]].
  apply filter_In in Hq. destruct Hq as [Hq Hl].
  apply N.eqb_eq in Hp, Hl. apply Hnew. apply in_map_iff. exists q.
  split; [| assumption]. unfold key. congruence.
Qed.

(** X16: on a server reached by requests, the object that
    [GET /list/:listId/users] answers to a caller who passes the check
    for [read] maps a user, or [null] for the anonymous identity, to the
    role of the permission row of that user on the list, the row the
    role check looks up, and has no entry for a user without a row. *)
Theorem roles_of_list (e : Env) (req : Request) (w : World) (who : Identity)
    (r : Role) :
  reachable (db w) ->
  fst (authenticate e req optional w) = inr who ->
  requireAtLeast (db w) (userId who) (param_listId req) read = Granted r ->
  exists answer,
    fst (get_list_users e req w) = inr answer
    /\ (forall uid,
          role_of uid answer
          = option_map role
              (lookup_permission (db w) uid (param_listId req)))
    /\ db (snd (get_list_users e req w)) = db w.
Proof.
  intros Hreach Hauth Hrole.
  pose proof (unique_keys _ (reachable_consistent (db w) Hreach)) as Hnd.
  unfold get_list_users.
  rewrite (bind_ok _ _ _ _ _ (authenticate_ok _ _ _ _ _ Hauth)).
  rewrite (bind_ok _ _ _ _ _ (checkPermissions_ok _ _ _ _ _ Hrole)).
  unfold bind, peek, ret. cbn [fst snd]. eexists.
  split; [reflexivity |]. split; [| reflexivity].
  intros uid. rewrite role_of_rows.
  - unfold select_permissions, lookup_permission.
    rewrite (find_selected (fun p => (permission_userId p, role p))
               (fun p => permission_listId p =? param_listId req)
               (fun x => same_user (fst x) uid)).
    cbn [fst].
    rewrite (find_same (fun p => (permission_listId p =? param_listId req)
                                && same_user (permission_userId p) uid)
               (holds uid (param_listId req)))
      by (intros p; unfold holds; apply andb_comm).
    now destruct (find _ _).
  - unfold select_permissions. rewrite map_map. cbn [fst].
    now apply users_of_list_unique.
Qed.

Lemma select_permission_first (lid target : Id) (d : Database) :
  hd_error (select_permission lid (Some target) d)
  = option_map role (lookup_permission d (Some target) lid).
Proof.
  unfold select_permission, lookup_permission.
  induction (permissions d) as [| p l IH]; [reflexivity |].
  cbn [filter find]. rewrite andb_comm, revoke_hits.
  destruct (holds (Some target) lid p); [reflexivity | exact IH].
Qed.

Lemma get_list_user_runs (e : Env) (req : Request) (w : World) (who : Identity)
    (r : Role) :
  fst (authenticate e req optional w) = inr who ->
  requireAtLeast (db w) (userId who) (param_listId req) read = Granted r ->
  get_list_user e req w
  = (inr (option_map role
            (lookup_permission (db w) (Some (param_userId req))
               (param_listId req))), w).
Proof.
  intros Hauth Hrole. unfold get_list_user.
  rewrite (bind_ok _ _ _ _ _ (authenticate_ok _ _ _ _ _ Hauth)).
  rewrite (bind_ok _ _ _ _ _ (checkPermissions_ok _ _ _ _ _ Hrole)).
  unfold bind, peek, ret. now rewrite select_permission_first.
Qed.

(** X17: a role set with [PUT /list/:listId/user/:userId] is the role
    [GET /list/:listId/user/:userId] reports: after a request of an owner
    that succeeded with a role of the closed set, the read for the same
    list and user answers that role to every caller who passes the check
    for [read]. *)
Theorem role_read_back (e e' : Env) (req req' : Request) (w : World)
    (who who' : Identity) (held held' : Role) (b : Body) (s : string)
    (r : Role) :
  fst (authenticate e req required w) = inr who ->
  requireAtLeast (db w) (userId who) (param_listId req) owner = Granted held ->
  jsonValidate (body req) [("role", false)] = inr b ->
  get "role" b = Some s ->
  role_of_string s = Some r ->
  fst (put_list_user e req w) = inr tt ->
  let w' := snd (put_list_user e req w) in
  fst (authenticate e' req' optional w') = inr who' ->
  requireAtLeast (db w') (userId who') (param_listId req') read
    = Granted held' ->
  param_listId req' = param_listId req ->
  param_userId req' = param_userId req ->
  fst (get_list_user e' req' w') = inr (Some r).
Proof.
  intros Hauth Hrole Hv Hget Hr. cbv zeta.
  assert (Hrun : put_list_user e req w
                 = grant (param_userId req) (param_listId req) (Some s) w).
  { unfold put_list_user.
    rewrite (bind_ok _ _ _ _ _ (authenticate_ok _ _ _ _ _ Hauth)).
    rewrite (bind_ok _ _ _ _ _ (checkPermissions_ok _ _ _ _ _ Hrole)).
    rewrite (bind_ok _ _ _ _ _ (f_equal (fun r => (r, w)) Hv)).
    now rewrite Hget. }
  rewrite Hrun. intros Hok Hauth' Hread Hlid Htarget.
  rewrite (get_list_user_runs e' req' _ who' held' Hauth' Hread).
  rewrite Hlid, Htarget. cbn [fst].
  destruct (grant_then_lookup _ _ s r w Hr Hok) as [p [Hp <-]].
  now rewrite Hp.
Qed.

(** X18: after [DELETE /list/:listId/user/:userId] from a caller who
    passes the check for [owner], the user of the route has no role on
    the list: the check refuses that user at every role, the read of
    the role answers nothing, and the permission rows of every other
    pair of user and list are as before. *)
Theorem revoked_role_gone (e e' : Env) (req req' : Request) (w : World)
    (who who' : Identity) (held held' : Role) :
  fst (authenticate e req optional w) = inr who ->
  requireAtLeast (db w) (userId who) (param_listId req) owner = Granted held ->
  let d := db w in
  let lid := param_listId req in
  let target := param_userId req in
  let w' := snd (delete_list_user e req w) in
  fst (delete_list_user e req w) = inr tt
  /\ permissions (db w')
     = filter (fun p => negb (holds (Some target) lid p)) (permissions d)
  /\ (forall m, requireAtLeast (db w') (Some target) lid m = Denied)
  /\ (fst (authenticate e' req' optional w') = inr who' ->
      requireAtLeast (db w') (userId who') lid read = Granted held' ->
      param_listId req' = lid ->
      param_userId req' = target ->
      fst (get_list_user e' req' w') = inr None).
Proof.
  intros Hauth Hrole. cbv zeta.
  assert (Hrun : delete_list_user e req w
                 = revoke (param_userId req) (param_listId req) w).
  { unfold delete_list_user.
    rewrite (bind_ok _ _ _ _ _ (authenticate_ok _ _ _ _ _ Hauth)).
    now rewrite (bind_ok _ _ _ _ _ (checkPermissions_ok _ _ _ _ _ Hrole)). }
  rewrite Hrun, revoke_runs. cbn [fst snd].
  set (w' := mkWorld _ _ _ _).
  assert (Hgone : lookup_permission (db w') (Some (param_userId req))
                    (param_listId req) = None).
  { apply lookup_none. intros p Hp. unfold w' in Hp.
    cbn [db permissions with_permissions] in Hp.
    apply filter_In in Hp. destruct Hp as [_ Hp].
    now apply negb_true_iff in Hp. }
  split; [reflexivity |]. split; [reflexivity |].
  split; [intros m; unfold requireAtLeast; now rewrite Hgone |].
  intros Hauth' Hread Hlid Htarget.
  rewrite (get_list_user_runs e' req' w' who' held' Hauth');
    [| now rewrite Hlid].
  now rewrite Hlid, Htarget, Hgone.
Qed.

(** X30: on a server reached by requests, a grant to a user id that no
    stored user has is not a client error: the owner's
    [PUT /list/:listId/user/:userId] with a role of the closed set fails
    on the foreign key of [todo.permissions], the error middleware
    answers it with status 500 and code [internal-error], and no table
    changes. *)
Theorem grant_to_unknown_user (e : Env) (req : Request) (w : World)
    (who : Identity) (held : Role) (b : Body) (s : string) (r : Role) :
  reachable (db w) ->
  fst (authenticate e req required w) = inr who ->
  requireAtLeast (db w) (userId who) (param_listId req) owner = Granted held ->
  jsonValidate (body req) [("role", false)] = inr b ->
  get "role" b = Some s ->
  role_of_string s = Some r ->
  user_exists (db w) (param_userId req) = false ->
  fst (put_list_user e req w) = inl (Sql ER_NO_REFERENCED_ROW)
  /\ db (snd (put_list_user e req w)) = db w
  /\ failure_response (Sql ER_NO_REFERENCED_ROW) = (500, "internal-error").
Proof.
  intros Hreach Hauth Hrole Hv Hget Hr Hnone.
  pose proof (reachable_referenced (db w) Hreach) as Href.
  assert (Hrun : put_list_user e req w
                 = grant (param_userId req) (param_listId req) (Some s) w).
  { unfold put_list_user.
    rewrite (bind_ok _ _ _ _ _ (authenticate_ok _ _ _ _ _ Hauth)).
    rewrite (bind_ok _ _ _ _ _ (checkPermissions_ok _ _ _ _ _ Hrole)).
    rewrite (bind_ok _ _ _ _ _ (f_equal (fun r => (r, w)) Hv)).
    now rewrite Hget. }
  assert (Hfree : existsb (collides (Some (param_userId req)) (param_listId req))
                    (permissions (db w)) = false).
  { apply not_true_iff_false. intros Hex. apply existsb_exists in Hex.
    destruct Hex as [p [Hp Hc]]. rewrite collides_some in Hc.
    apply holds_key in Hc. unfold key in Hc. injection Hc as Hu _.
    rewrite (permission_user _ Href p (param_userId req) Hp Hu) in Hnone.
    discriminate. }
  assert (Hup : upsert_permission (Some (param_userId req)) (param_listId req)
                  r (db w) = inl ER_NO_REFERENCED_ROW).
  { unfold upsert_permission, permission_refs_ok. now rewrite Hfree, Hnone. }
  rewrite Hrun, (grant_upserts _ _ s r w Hr), Hup.
  repeat split.
Qed.

(** ** Items *)

Lemma insert_by_id_perm (i : ItemRow) (l : list ItemRow) :
  Permutation (insert_by_id i l) (i :: l).
Proof.
  induction l as [| j l IH]; cbn [insert_by_id]; [apply Permutation_refl |].
  destruct (item_id i <? item_id j); [apply Permutation_refl |].
  apply perm_trans with (j :: i :: l); [now apply perm_skip | apply perm_swap].
Qed.

Lemma order_by_id_perm (l : list ItemRow) : Permutation (order_by_id l) l.
Proof.
  induction l as [| i l IH]; cbn [order_by_id]; [apply perm_nil |].
  apply perm_trans with (i :: order_by_id l);
    [apply insert_by_id_perm | now apply perm_skip].
Qed.

Lemma insert_by_id_sorted (i : ItemRow) (l : list ItemRow) :
  StronglySorted id_order l -> StronglySorted id_order (insert_by_id i l).
Proof.
  induction l as [| j l IH]; cbn [insert_by_id]; intros Hs.
  - constructor; [constructor | constructor].
  - apply StronglySorted_inv in Hs. destruct Hs as [Hs Hj].
    destruct (item_id i <? item_id j) eqn:Hij.
    + apply N.ltb_lt in Hij. constructor.
      * now constructor.
      * constructor; [unfold id_order; lia |].
        rewrite Forall_forall in *. intros x Hx. specialize (Hj x Hx).
        unfold id_order in *. lia.
    + apply N.ltb_ge in Hij. constructor; [now apply IH |].
      rewrite Forall_forall in *. intros x Hx.
      apply (Permutation_in _ (insert_by_id_perm i l)) in Hx.
      destruct Hx as [<- | Hx]; [exact Hij | now apply Hj].
Qed.

Lemma order_by_id_sorted (l : list ItemRow) :
  StronglySorted id_order (order_by_id l).
Proof.
  induction l as [| i l IH]; cbn [order_by_id]; [constructor |].
  now apply insert_by_id_sorted.
Qed.

(** X19: [GET /list/:listId/items] answers, to a caller who passes the
    check for [read], the id, name, description and state of every item
    of the list of the route and of no item of another list, each item
    once, in ascending order of the ids; it changes no table. *)
Theorem items_in_order (e : Env) (req : Request) (w : World) (who : Identity)
    (r : Role) :
  fst (authenticate e req optional w) = inr who ->
  requireAtLeast (db w) (userId who) (param_listId req) read = Granted r ->
  exists rows,
    fst (get_items e req w) = inr (map item_view rows)
    /\ Permutation rows
         (filter (fun i => item_listId i =? param_listId req) (items (db w)))
    /\ StronglySorted id_order rows
    /\ db (snd (get_items e req w)) = db w.
Proof.
  intros Hauth Hrole.
  exists (order_by_id
            (filter (fun i => item_listId i =? param_listId req)
               (items (db w)))).
  unfold get_items.
  rewrite (bind_ok _ _ _ _ _ (authenticate_ok _ _ _ _ _ Hauth)).
  rewrite (bind_ok _ _ _ _ _ (checkPermissions_ok _ _ _ _ _ Hrole)).
  rewrite (query_ok SELECT_items (select_items (param_listId req)) w _ _
             eq_refl).
  split; [reflexivity |]. split; [apply order_by_id_perm |].
  split; [apply order_by_id_sorted | reflexivity].
Qed.




(** An [UPDATE] of a stored item that leaves the id alone, with values
    that fit their columns and, when a list is named, a stored list. *)
Lemma update_item_runs (b : Body) (lid iid : Id) (d : Database) :
  b <> [] ->
  keys_within ["listId"; "name"; "description"; "state"] b = true ->
  (forall s, get "state" b = Some s -> state_of_string s <> None) ->
  within 255 (get "name" b) = true ->
  within 1024 (get "description" b) = true ->
  (forall v, get "listId" b = Some v ->
     exists l, to_id engine v = Some l /\ list_exists d l = true) ->
  filter (item_hit lid iid) (items d) <> [] ->
  update_item engine b lid iid d
  = inr (mkOk 0 (count (item_hit lid iid) (items d)),
         with_items d
           (map (fun i => if item_hit lid iid i then changed b i else i)
              (items d))).
Proof.
  intros Hb Hk Hs Hname Hdesc Hlist Hhit. unfold update_item.
  assert (Hnk : no_keys b = false) by (destruct b; [congruence | reflexivity]).
  assert (Hcols : keys_within item_columns b = true).
  { apply (keys_within_more ["listId"; "name"; "description"; "state"]);
      [| assumption].
    intros k. simpl. intros H.
    repeat (apply orb_true_iff in H; destruct H as [H | H];
            [rewrite H; rewrite ?orb_true_r; reflexivity |]).
    discriminate. }
  assert (Hid : get "id" b = None).
  { apply (get_outside ["listId"; "name"; "description"; "state"]);
      [assumption | reflexivity]. }
  rewrite Hnk, Hcols. cbn [negb].
  destruct (filter (item_hit lid iid) (items d)) as [| x m] eqn:Hf;
    [congruence |].
  rewrite Hid. cbn [assigned].
  rewrite (assigned_within 255 _ Hname), (assigned_within 1024 _ Hdesc).
  unfold changed, count. rewrite Hf.
  destruct (get "listId" b) as [v |]; cbn [assigned].
  - destruct (Hlist v eq_refl) as [l [Hto Hex]]. unfold integer.
    rewrite Hto, Hex. cbn [clash negb].
    destruct (get "state" b) as [s |]; cbn [assigned]; [| reflexivity].
    unfold enum_state. specialize (Hs s eq_refl).
    destruct (state_of_string s); [reflexivity | congruence].
  - cbn [clash].
    destruct (get "state" b) as [s |]; cbn [assigned]; [| reflexivity].
    unfold enum_state. specialize (Hs s eq_refl).
    destruct (state_of_string s); [reflexivity | congruence].
Qed.

(** The rows a [SELECT] by list and id finds after an [UPDATE] of the one
    row under that id. *)
Lemma one_changed (lid iid : Id) (g : ItemRow -> ItemRow) (l : list ItemRow)
    (it : ItemRow) :
  NoDup (map item_id l) -> In it l -> item_id it = iid -> item_id (g it) = iid ->
  filter (item_hit lid iid)
    (map (fun i => if item_id i =? iid then g i else i) l)
  = if item_listId (g it) =? lid then [g it] else [].
Proof.
  intros Hnd Hin Hit Hg.
  induction l as [| x xs IH]; [contradiction |].
  cbn [map] in Hnd. apply NoDup_cons_iff in Hnd. destruct Hnd as [Hx Hnd].
  assert (Hrest : forall i, In i xs -> item_id i = item_id x -> False).
  { intros i Hi Heq. apply Hx. rewrite <- Heq. now apply in_map. }
  cbn [map filter]. destruct Hin as [-> | Hin].
  - rewrite Hit, N.eqb_refl. unfold item_hit at 1. rewrite Hg, N.eqb_refl.
    rewrite andb_true_r.
    assert (Hnone : filter (item_hit lid iid)
                      (map (fun i => if item_id i =? iid then g i else i) xs)
                    = []).
    { apply filter_empty. intros y Hy. apply in_map_iff in Hy.
      destruct Hy as [i [<- Hi]].
      assert (Hne : item_id i <> iid)
        by (intros Heq; apply (Hrest i Hi); congruence).
      apply N.eqb_neq in Hne. rewrite Hne. unfold item_hit.
      rewrite Hne. apply andb_false_r. }
    rewrite Hnone. now destruct (item_listId (g it) =? lid).
  - assert (Hne : item_id x <> iid).
    { intros Heq. apply (Hrest it Hin). congruence. }
    apply N.eqb_neq in Hne. rewrite Hne. unfold item_hit at 1.
    rewrite Hne, andb_false_r. now apply IH.
Qed.


(** X21: on a server reached by requests, [PUT /list/:listId/item/:itemId]
    from a caller who passes the check for [write], with a validated body
    that has a field, names no state outside the closed set and carries
    values that fit their columns, rewrites the item of the route and no
    other row: the fields given replace the stored ones and the others
    stay, and so does the id.  A [listId] the validator lets through,
    when it names a stored list, moves the item to that list.
    [GET /list/:listId/item/:itemId] then answers the item as rewritten
    when it is still in the list of the route, and [missing-item] when it
    has moved. *)
Theorem put_item_effect (e e' : Env) (req : Request) (w : World)
    (who who' : Identity) (r : Role) (b : Body) (it : ItemRow) :
  reachable (db w) ->
  fst (authenticate e req required w) = inr who ->
  requireAtLeast (db w) (userId who) (param_listId req) write = Granted r ->
  body req <> [] ->
  jsonValidate (body req)
    [("name", true); ("description", true); ("state", true)] = inr b ->
  keys_within ["listId"; "name"; "description"; "state"] b = true ->
  b <> [] ->
  (forall s, get "state" b = Some s -> state_of_string s <> None) ->
  within 255 (get "name" b) = true ->
  within 1024 (get "description" b) = true ->
  (forall v, get "listId" b = Some v ->
     exists l, to_id engine v = Some l /\ list_exists (db w) l = true) ->
  In it (items (db w)) ->
  item_listId it = param_listId req ->
  item_id it = param_itemId req ->
  let d := db w in
  let w' := snd (put_item e req w) in
  fst (put_item e req w) = inr tt
  /\ items (db w')
     = map (fun i => if item_id i =? item_id it then changed b i else i)
         (items d)
  /\ users (db w') = users d /\ sessions (db w') = sessions d
  /\ lists (db w') = lists d /\ permissions (db w') = permissions d
  /\ (fst (authenticate e' req optional w') = inr who' ->
      userId who' = userId who ->
      fst (get_item e' req w')
      = if item_listId (changed b it) =? param_listId req
        then inr (item_view (changed b it))
        else inl missing_item).
Proof.
  intros Hreach Hauth Hrole Hbody Hv Hkeys Hfilled Hstate Hname Hdesc Hmove
    Hin Hlist Hitem.
  cbv zeta.
  pose proof (reachable_keyed (db w) Hreach) as Hkeyed.
  assert (Hhit : item_hit (param_listId req) (param_itemId req) it = true).
  { unfold item_hit. now rewrite Hlist, Hitem, !N.eqb_refl. }
  assert (Hsome : filter (item_hit (param_listId req) (param_itemId req))
                    (items (db w)) <> []).
  { intros Hnil.
    assert (Hit : In it (filter (item_hit (param_listId req) (param_itemId req))
                           (items (db w))))
      by (apply filter_In; now split).
    rewrite Hnil in Hit. destruct Hit. }
  assert (Hnk : no_keys (body req) = false)
    by (destruct (body req); [congruence | reflexivity]).
  assert (Hrows : map (fun i => if item_hit (param_listId req)
                                     (param_itemId req) i
                                then changed b i else i) (items (db w))
                  = map (fun i => if item_id i =? item_id it
                                  then changed b i else i) (items (db w))).
  { apply map_ext_in. intros i Hi. unfold item_hit. rewrite Hitem.
    destruct (item_id i =? param_itemId req) eqn:Hid;
      [| now rewrite andb_false_r].
    apply N.eqb_eq in Hid.
    assert (Hsame : i = it).
    { pose proof (item_ids _ Hkeyed) as Hnd. clear - Hnd Hi Hin Hid Hitem.
      induction (items (db w)) as [| x xs IH]; [contradiction |].
      cbn [map] in Hnd. apply NoDup_cons_iff in Hnd. destruct Hnd as [Hx Hnd].
      destruct Hi as [-> | Hi], Hin as [-> | Hin]; auto.
      - exfalso. apply Hx. replace (item_id i) with (item_id it) by congruence.
        now apply in_map.
      - exfalso. apply Hx. replace (item_id it) with (item_id i) by congruence.
        now apply in_map. }
    subst i. now rewrite Hlist, N.eqb_refl. }
  assert (Hrun : put_item e req w
                 = (inr tt,
                    issued UPDATE_items
                      (with_items (db w)
                         (map (fun i => if item_id i =? item_id it
                                        then changed b i else i)
                            (items (db w)))) w)).
  { unfold put_item.
    rewrite (bind_ok _ _ _ _ _ (authenticate_ok _ _ _ _ _ Hauth)).
    rewrite (bind_ok _ _ _ _ _ (checkPermissions_ok _ _ _ _ _ Hrole)).
    rewrite Hnk.
    rewrite (bind_ok _ _ _ _ _ (f_equal (fun r => (r, w)) Hv)).
    rewrite (bind_ok _ _ _ _ _ (check_state_ok b w Hstate)).
    rewrite (bind_ok _ _ _ _ _
               (query_ok UPDATE_items _ w _ _
                  (update_item_runs b (param_listId req) (param_itemId req)
                     (db w) Hfilled Hkeys Hstate Hname Hdesc Hmove Hsome))).
    cbn [affectedRows]. rewrite (count_hit _ _ it Hin Hhit).
    now rewrite Hrows. }
  rewrite Hrun. cbn [fst snd].
  repeat (split; [reflexivity |]).
  set (w' := issued UPDATE_items _ w).
  assert (Hread : requireAtLeast (db w') (userId who) (param_listId req) read
                  = Granted r)
    by exact (read_when_granted _ _ _ _ _ Hrole).
  intros Hauth' Hsame. unfold get_item.
  rewrite (bind_ok _ _ _ _ _ (authenticate_ok _ _ _ _ _ Hauth')).
  rewrite Hsame.
  rewrite (bind_ok _ _ _ _ _ (checkPermissions_ok _ _ _ _ _ Hread)).
  rewrite (bind_ok _ _ _ _ _
             (query_ok SELECT_items
                (select_item (param_listId req) (param_itemId req)) w' _ _
                eq_refl)).
  unfold w', issued, with_items. cbn [db items]. rewrite Hitem.
  rewrite (one_changed _ _ (changed b) _ it (item_ids _ Hkeyed) Hin Hitem Hitem).
  now destruct (item_listId (changed b it) =? param_listId req).
Qed.


(** X23: [DELETE /list/:listId/item/:itemId] from a caller who passes
    the check for [write] removes the item of the route, when the list
    has it, and no other row; the same request again, and a read of
    that item, then fail with the client error [missing-item]. *)
Theorem delete_item_removes (e e' : Env) (req : Request) (w : World)
    (who who' : Identity) (r : Role) (it : ItemRow) :
  fst (authenticate e req optional w) = inr who ->
  requireAtLeast (db w) (userId who) (param_listId req) write = Granted r ->
  In it (items (db w)) ->
  item_listId it = param_listId req ->
  item_id it = param_itemId req ->
  let d := db w in
  let w' := snd (delete_item_handler e req w) in
  fst (delete_item_handler e req w) = inr tt
  /\ items (db w')
     = filter (fun i => negb (item_hit (param_listId req) (param_itemId req) i))
         (items d)
  /\ users (db w') = users d /\ sessions (db w') = sessions d
  /\ lists (db w') = lists d /\ permissions (db w') = permissions d
  /\ (fst (authenticate e' req optional w') = inr who' ->
      userId who' = userId who ->
      fst (delete_item_handler e' req w') = inl missing_item
      /\ fst (get_item e' req w') = inl missing_item).
Proof.
  intros Hauth Hrole Hin Hlist Hitem. cbv zeta.
  assert (Hhit : item_hit (param_listId req) (param_itemId req) it = true).
  { unfold item_hit. now rewrite Hlist, Hitem, !N.eqb_refl. }
  assert (Hrun : delete_item_handler e req w
                 = (inr tt,
                    issued DELETE_items
                      (with_items (db w)
                         (filter (fun i => negb (item_hit (param_listId req)
                                                   (param_itemId req) i))
                            (items (db w)))) w)).
  { unfold delete_item_handler.
    rewrite (bind_ok _ _ _ _ _ (authenticate_ok _ _ _ _ _ Hauth)).
    rewrite (bind_ok _ _ _ _ _ (checkPermissions_ok _ _ _ _ _ Hrole)).
    rewrite (bind_ok _ _ _ _ _
               (query_ok DELETE_items
                  (delete_item (param_listId req) (param_itemId req)) w _ _
                  eq_refl)).
    cbn [affectedRows]. now rewrite (count_hit _ _ it Hin Hhit). }
  rewrite Hrun. cbn [fst snd].
  repeat (split; [reflexivity |]).
  set (w' := issued DELETE_items _ w).
  assert (Hwrite : requireAtLeast (db w') (userId who) (param_listId req) write
                   = Granted r) by exact Hrole.
  assert (Hmiss : forall i, In i (items (db w')) ->
                            item_hit (param_listId req) (param_itemId req) i
                            = false).
  { intros i Hi. unfold w', issued, with_items in Hi. cbn [db items] in Hi.
    apply filter_In in Hi. destruct Hi as [_ Hi].
    now apply negb_true_iff in Hi. }
  intros Hauth' Hsame. split.
  - unfold delete_item_handler.
    rewrite (bind_ok _ _ _ _ _ (authenticate_ok _ _ _ _ _ Hauth')).
    rewrite Hsame.
    rewrite (bind_ok _ _ _ _ _ (checkPermissions_ok _ _ _ _ _ Hwrite)).
    rewrite (bind_ok _ _ _ _ _
               (query_ok DELETE_items
                  (delete_item (param_listId req) (param_itemId req)) w' _ _
                  eq_refl)).
    cbn [affectedRows].
    now rewrite (proj2 (filter_none _ _ Hmiss)).
  - unfold get_item.
    rewrite (bind_ok _ _ _ _ _ (authenticate_ok _ _ _ _ _ Hauth')).
    rewrite Hsame.
    rewrite (bind_ok _ _ _ _ _
               (checkPermissions_ok _ _ _ _ _
                  (read_when_granted _ _ _ _ _ Hwrite))).
    rewrite (bind_ok _ _ _ _ _
               (query_ok SELECT_items
                  (select_item (param_listId req) (param_itemId req)) w' _ _
                  eq_refl)).
    now rewrite (filter_empty _ _ Hmiss).
Qed.

(** ** The sweep, run again *)

Lemma filter_kept {A} (f : A -> bool) (l : list A) :
  (forall x, In x l -> f x = true) -> filter f l = l.
Proof.
  intros H. apply forallb_filter_id. now apply forallb_forall.
Qed.

Lemma count_none {A} (f : A -> bool) (l : list A) :
  (forall x, In x l -> f x = false) -> count f l = 0.
Proof. intros H. unfold count. now rewrite (filter_empty f l H). Qed.

(** The tables a healthy run at [t] leaves hold nothing for a run at [t]
    or before. *)
Lemma swept_clean (t t' : Instant) (d : Database) :
  t' <= t ->
  let d1 := swept t d in
  let d2 := with_sessions d1
              (filter (fun s => negb (expirationDate s <? t')) (sessions d1)) in
  (forall s, In s (sessions d1) -> (expirationDate s <? t') = false)
  /\ d2 = d1
  /\ (forall l, In l (lists d1) -> orphaned d1 l = false).
Proof.
  intros Hle. cbv zeta.
  assert (Hlive : forall s, In s (sessions (swept t d)) ->
                            (expirationDate s <? t') = false).
  { intros s Hs. unfold swept, drop_lists in Hs. cbn [snd sessions] in Hs.
    unfold with_sessions in Hs. cbn [sessions] in Hs.
    apply filter_In in Hs. destruct Hs as [_ Hs].
    apply negb_true_iff, N.ltb_ge in Hs. apply N.ltb_ge. lia. }
  split; [exact Hlive |]. split.
  - rewrite filter_kept by (intros s Hs; now rewrite (Hlive s Hs)).
    apply with_sessions_same.
  - assert (Hperm : permissions (swept t d) = permissions d).
    { unfold swept. cbv zeta. unfold drop_lists. cbn [snd permissions].
      now rewrite orphans_hold_no_permission. }
    intros l Hl. unfold orphaned. rewrite Hperm.
    unfold swept, drop_lists in Hl. cbn [snd lists] in Hl.
    apply filter_In in Hl. destruct Hl as [_ Hl].
    apply negb_true_iff in Hl. exact Hl.
Qed.

(** A healthy run on tables that hold nothing for it. *)
Lemma sweep_quiet (t : Instant) (w : World) :
  (forall s, In s (sessions (db w)) -> (expirationDate s <? t) = false) ->
  (forall l, In l (lists (db w)) -> orphaned (db w) l = false) ->
  sweep healthy t w
  = (inr tt,
     mkWorld (db w)
       (journal w ++ [DELETE_expired_sessions; DELETE_orphaned_lists])
       (console w) (leased w)).
Proof.
  intros Hs Hl.
  assert (H1 : delete_expired_sessions t (db w) = inr (mkOk 0 0, db w)).
  { unfold delete_expired_sessions.
    rewrite (count_none _ _ Hs).
    rewrite filter_kept by (intros s Hin; now rewrite (Hs s Hin)).
    now rewrite with_sessions_same. }
  assert (H2 : delete_orphaned_lists (db w) = inr (mkOk 0 0, db w)).
  { unfold delete_orphaned_lists, drop_lists.
    rewrite (count_none _ _ Hl), (filter_empty _ _ Hl).
    rewrite (filter_kept (fun r => negb (orphaned (db w) r)))
      by (intros x Hx; now rewrite (Hl x Hx)).
    rewrite !filter_kept by reflexivity.
    now destruct (db w). }
  unfold sweep, purge, try_catch, try_finally, bind, getConnection,
    releaseConnection, query_on, healthy.
  cbn [pool_down pass1_down pass2_down db journal console leased fst snd].
  rewrite H1. cbn [affectedRows N.eqb fst snd db journal console leased].
  unfold ret. cbn [db journal console leased fst snd].
  rewrite H2. cbn [affectedRows N.eqb fst snd db journal console leased].
  now rewrite lease_returned, <- app_assoc.
Qed.

(** X24: after a run of the sweep without storage failure, a second such
    run at the same or an earlier instant finds nothing to reclaim: it
    issues its two statements, deletes no row and logs nothing. *)
Theorem sweep_again (t t' : Instant) (w : World) :
  t' <= t ->
  let w1 := snd (sweep healthy t w) in
  let w2 := snd (sweep healthy t' w1) in
  fst (sweep healthy t' w1) = inr tt
  /\ db w2 = db w1
  /\ console w2 = console w1
  /\ journal w2 = journal w1 ++ [DELETE_expired_sessions; DELETE_orphaned_lists].
Proof.
  intros Hle. cbv zeta.
  destruct (sweep_healthy_db t w) as [_ Hdb].
  destruct (swept_clean t t' (db w) Hle) as [Hs [_ Hl]].
  rewrite <- Hdb in Hs, Hl.
  rewrite (sweep_quiet t' (snd (sweep healthy t w)) Hs Hl).
  cbn [fst snd db console journal]. auto.
Qed.

(** ** Nothing happens before the gates *)

Lemma authenticate_fail (e : Env) (req : Request) (p : Policy) (w : World)
    (err : Exception) :
  fst (authenticate e req p w) = inl err ->
  authenticate e req p w = (inl err, w).
Proof. unfold authenticate. cbn [fst]. now intros ->. Qed.

Lemma checkPermissions_denied (uid : option Id) (lid : Id) (m : Role)
    (w : World) :
  requireAtLeast (db w) uid lid m = Denied ->
  checkPermissions uid lid m w = (inl Forbidden, w).
Proof. intros H. unfold checkPermissions. now rewrite H. Qed.

(** X25: every route that authenticates does so before anything else: a
    request that [authenticate] refuses under the policy of the route is
    answered with that failure, and the handler issues no statement and
    changes no table. *)
Theorem unauthenticated_changes_nothing (route : Route) (e : Env)
    (req : Request) (w : World) (err : Exception) :
  fst (authenticate e req (route_policy route) w) = inl err ->
  serve route e req w = (Some err, w).
Proof.
  intros Hauth. apply authenticate_fail in Hauth.
  destruct route; cbn [route_policy] in Hauth; cbn [serve];
    unfold get_user, put_user, delete_user_handler, post_login, post_logout,
      get_lists, post_list, get_list, put_list, delete_list_handler,
      get_list_users, get_list_user, put_list_user, delete_list_user,
      get_items, post_item, get_item, put_item, delete_item_handler;
    now rewrite (bind_fail _ _ _ _ _ Hauth).
Qed.

(** X26: every route under [/list/:listId] checks the role of the caller
    on the list of the route before it reads or writes: a caller whom the
    check refuses at the role the route asks for is answered with the
    failure of the check, and the handler issues no statement and
    changes no table. *)
Theorem denied_changes_nothing (route : Route) (m : Role) (e : Env)
    (req : Request) (w : World) (who : Identity) :
  route_role route = Some m ->
  fst (authenticate e req (route_policy route) w) = inr who ->
  requireAtLeast (db w) (userId who) (param_listId req) m = Denied ->
  serve route e req w = (Some Forbidden, w).
Proof.
  intros Hm Hauth Hdenied. apply authenticate_ok in Hauth.
  apply checkPermissions_denied in Hdenied.
  destruct route; cbn [route_role] in Hm; try discriminate;
    injection Hm as <-; cbn [route_policy] in Hauth; cbn [serve];
    unfold get_list, put_list, delete_list_handler, get_list_users,
      get_list_user, put_list_user, delete_list_user, get_items, post_item,
      get_item, put_item, delete_item_handler;
    rewrite (bind_ok _ _ _ _ _ Hauth);
    now rewrite (bind_fail _ _ _ _ _ Hdenied).
Qed.

(** ** What stays true from a moment on *)

Lemma after_maintains (I : Database -> Prop) (history : list Action) (w : World) :
  Closed I -> I (db w) -> I (db (after history w)).
Proof.
  intros HC. unfold after. revert w.
  induction history as [| a h IH]; cbn [fold_left]; intros w Hw; [exact Hw |].
  apply IH. now apply perform_maintains.
Qed.

(** The sessions after a statement are sessions that were there, by
    their ids, and the counter has not gone back. *)
Lemma closed_session_kept (sid : Id) (d d' : Database) :
  (forall s, In s (sessions d') ->
     exists s0, In s0 (sessions d) /\ session_id s0 = session_id s) ->
  next_session d <= next_session d' ->
  closed_session sid d -> closed_session sid d'.
Proof.
  intros Hold Hnext [Hno Hlt]. split; [| lia].
  intros s Hs. destruct (Hold s Hs) as [s0 [Hs0 <-]]. now apply Hno.
Qed.

Ltac same_sessions :=
  apply closed_session_kept; cbn [sessions next_session];
  [ intros ? ?;
    first [ eapply kept; eassumption | eapply kept_filter; eassumption ]
  | apply N.le_refl ].

Lemma closed_session_closed (sid : Id) : Closed (closed_session sid).
Proof.
  constructor.
  - intros b d ok d' Hc H. apply insert_user_inv in H.
    destruct H as [row [_ [_ [_ ->]]]]. revert Hc. same_sessions.
  - intros b uid d ok d' Hc H. apply update_user_inv in H.
    destruct H as [-> | [old [i [f [l [u [p [s H]]]]]]]]; [assumption |].
    cbv zeta in H. destruct H as [_ [_ [_ [_ ->]]]]. revert Hc.
    apply closed_session_kept; cbn [sessions next_session]; [| apply N.le_refl].
    intros s' Hs'. destruct i as [new |]; cbn [cascade] in Hs';
      [| now exists s'].
    unfold sessions_of_renumbered in Hs'. apply in_map_iff in Hs'.
    destruct Hs' as [s0 [<- Hs0]]. exists s0. split; [assumption |].
    now destruct (session_userId s0 =? old).
  - intros uid d ok d' Hc H. unfold delete_user in H. injection H as _ <-.
    revert Hc. same_sessions.
  - intros uid t d ok d' [Hno Hlt] H. unfold insert_session in H.
    destruct uid as [u |]; [| discriminate].
    destruct (user_exists d u); [| discriminate].
    injection H as _ <-. split; cbn [sessions next_session]; [| lia].
    intros s Hs. apply in_app_iff in Hs. destruct Hs as [Hs | [<- | []]].
    + now apply Hno.
    + cbn. lia.
  - intros sid' d ok d' Hc H. unfold delete_session in H. injection H as _ <-.
    revert Hc. unfold with_sessions. same_sessions.
  - intros b d ok d' Hc H. apply insert_list_inv in H.
    destruct H as [row [_ [_ ->]]]. revert Hc. same_sessions.
  - intros b lid d ok d' Hc H. apply update_list_inv in H.
    destruct H as [-> | [i [n H]]]; [assumption |].
    cbv zeta in H. destruct H as [_ [_ ->]]. revert Hc. same_sessions.
  - intros hit d Hc. revert Hc. unfold drop_lists. cbn [snd]. same_sessions.
  - intros b uid d ok d1 ok' d2 Hc H1 H2. apply insert_list_inv in H1.
    destruct H1 as [row [_ [_ ->]]]. unfold insert_permission in H2.
    destruct (negb _); [discriminate |].
    destruct (existsb _ _); [discriminate |].
    injection H2 as _ <-. revert Hc. unfold add_permission. cbn [snd].
    same_sessions.
  - intros u lid r d ok d' Hc H. unfold upsert_permission in H.
    destruct (existsb _ _).
    + injection H as _ <-. revert Hc. unfold with_permissions. same_sessions.
    + destruct (negb _); [discriminate |]. injection H as _ <-.
      revert Hc. unfold add_permission. cbn [snd]. same_sessions.
  - intros uid lid d ok d' Hc H. unfold delete_permission in H.
    injection H as _ <-. revert Hc. unfold with_permissions. same_sessions.
  - intros b lid d ok d' Hc H. apply insert_item_inv in H.
    destruct H as [row [_ [_ [_ [_ ->]]]]]. revert Hc. same_sessions.
  - intros b lid iid d ok d' Hc H. apply update_item_inv in H.
    destruct H as [-> | [i [l [n [t [s H]]]]]]; [assumption |].
    cbv zeta in H. destruct H as [_ [_ [_ ->]]]. revert Hc. same_sessions.
  - intros lid iid d ok d' Hc H. unfold delete_item in H.
    injection H as _ <-. revert Hc. unfold with_items. same_sessions.
  - intros t d ok d' Hc H. unfold delete_expired_sessions in H.
    injection H as _ <-. revert Hc. unfold with_sessions. same_sessions.
Qed.

(** A token whose session is closed is refused. *)
Lemma closed_session_refused (e : Env) (req : Request) (w : World)
    (token : string) (sid : Id) (must : bool) :
  bearer req = Some token -> decrypt token = Some sid ->
  closed_session sid (db w) ->
  by_token (db w) (now e) req must = inl Unauthorized.
Proof.
  intros Hb Hd [Hno _]. unfold by_token, resolve. rewrite Hb, Hd.
  destruct (find _ _) as [s |] eqn:Hfind; [| reflexivity].
  apply find_some in Hfind. destruct Hfind as [Hin Hid].
  apply N.eqb_eq in Hid. exfalso. exact (Hno s Hin Hid).
Qed.

(** X27: on a server reached by requests, a token that was logged out is
    never accepted again: whatever requests and sweep runs follow the
    logout, [authenticate] refuses the token with the failure of status
    401, because the id of its session is not handed out a second
    time. *)
Theorem logged_out_for_good (e e' : Env) (req : Request) (w : World)
    (who : Identity) (sid : Id) (history : list Action) :
  reachable (db w) ->
  fst (authenticate e req optional w) = inr who ->
  sessionId who = Some sid ->
  fst (authenticate e' req required (after history (snd (post_logout e req w))))
  = inl Unauthorized.
Proof.
  intros Hreach Hauth Hsid.
  pose proof (reachable_keyed (db w) Hreach) as Hkeyed.
  destruct (optional_identity e req w who Hauth) as [-> | [s [Hs [Hwho _]]]];
    [discriminate |].
  subst who. cbn [sessionId] in Hsid. injection Hsid as Hsid.
  assert (Hclosed : closed_session sid (db (snd (post_logout e req w)))).
  { unfold post_logout.
    rewrite (bind_ok _ _ _ _ _ (authenticate_ok _ _ _ _ _ Hauth)).
    cbn [sessionId].
    rewrite (bind_ok _ _ _ _ _
               (query_ok DELETE_sessions
                  (delete_session (Some (session_id s))) w _ _ eq_refl)).
    unfold ret, issued, with_sessions. cbn [snd db]. split.
    - intros s' Hs'. cbn [sessions sql_eq] in Hs'.
      apply filter_In in Hs'. destruct Hs' as [_ Hs'].
      apply negb_true_iff, N.eqb_neq in Hs'. congruence.
    - cbn [next_session]. rewrite <- Hsid.
      exact (session_ids_below _ Hkeyed s Hs). }
  pose proof (after_maintains _ history _ (closed_session_closed sid) Hclosed)
    as [Hno _].
  unfold authenticate, by_token, resolve in Hauth |- *. cbn [fst] in *.
  destruct (bearer req) as [token |]; [| discriminate].
  destruct (decrypt token) as [sid' |]; [| reflexivity].
  destruct (find _ (sessions (db w))) as [s0 |]; [| discriminate].
  destruct (expirationDate s0 <=? now e); [discriminate |].
  injection Hauth as _ Hsid'.
  destruct (find _ (sessions (db (after _ _)))) as [s1 |] eqn:Hfind;
    [| reflexivity].
  apply find_some in Hfind. destruct Hfind as [Hin Hid].
  apply N.eqb_eq in Hid. exfalso. apply (Hno s1 Hin). congruence.
Qed.

(** X28: on a server reached by requests, the sessions of an account
    deleted with [DELETE /user] are closed for good: whatever requests
    and sweep runs follow, no session has the id of one of them, and a
    token of the deleted account, the one that asked for the deletion or
    any other, is refused with the failure of status 401 by the routes
    that require a token and by those that accept one. *)
Theorem deleted_for_good (e e' : Env) (req req' : Request) (w : World)
    (who : Identity) (u : UserRow) (s : SessionRow) (token : string)
    (history : list Action) :
  reachable (db w) ->
  fst (authenticate e req required w) = inr who ->
  userId who = Some (user_id u) ->
  In u (users (db w)) ->
  In s (sessions (db w)) ->
  session_userId s = user_id u ->
  bearer req' = Some token ->
  decrypt token = Some (session_id s) ->
  let w' := after history (snd (delete_user_handler e req w)) in
  (forall s', In s' (sessions (db w')) -> session_id s' <> session_id s)
  /\ fst (authenticate e' req' required w') = inl Unauthorized
  /\ fst (authenticate e' req' optional w') = inl Unauthorized.
Proof.
  intros Hreach Hauth Hwho Hin Hs Hown Hbearer Hopen. cbv zeta.
  pose proof (reachable_keyed (db w) Hreach) as Hkeyed.
  assert (Hgone : closed_session (session_id s)
                    (db (snd (delete_user_handler e req w)))).
  { rewrite (delete_user_runs e req w who u Hauth Hwho Hin).
    unfold issued, without_user. cbn [snd db]. split.
    - intros s' Hs' Hid. cbn [sessions] in Hs'. apply filter_In in Hs'.
      destruct Hs' as [Hs' Hkeep].
      assert (Hsame : s' = s).
      { pose proof (session_ids _ Hkeyed) as Hnd. clear - Hnd Hs Hs' Hid.
        induction (sessions (db w)) as [| x xs IH]; [contradiction |].
        cbn [map] in Hnd. apply NoDup_cons_iff in Hnd.
        destruct Hnd as [Hx Hnd].
        destruct Hs as [-> | Hs], Hs' as [-> | Hs']; auto.
        - exfalso. apply Hx. rewrite <- Hid. now apply in_map.
        - exfalso. apply Hx. rewrite Hid. now apply in_map. }
      subst s'. rewrite Hown, N.eqb_refl in Hkeep. discriminate.
    - cbn [next_session]. exact (session_ids_below _ Hkeyed s Hs). }
  pose proof (after_maintains _ history _
                (closed_session_closed (session_id s)) Hgone) as Hclosed.
  split; [exact (proj1 Hclosed) |].
  unfold authenticate. cbn [fst].
  split; exact (closed_session_refused e' req' _ token _ _ Hbearer Hopen Hclosed).
Qed.

(** X29: the lists of a deleted account are reclaimed: [DELETE /user]
    leaves a list on which only the deleted user had permission rows in
    place, without any permission row, and the next run of the sweep
    without storage failure removes it together with its items. *)
Theorem lists_of_deleted_owner_swept (e : Env) (req : Request) (w : World)
    (who : Identity) (u : UserRow) (t : Instant) (l : ListRow) :
  fst (authenticate e req required w) = inr who ->
  userId who = Some (user_id u) ->
  In u (users (db w)) ->
  In l (lists (db w)) ->
  (forall p, In p (permissions (db w)) ->
             permission_listId p = list_id l ->
             permission_userId p = Some (user_id u)) ->
  let w1 := snd (delete_user_handler e req w) in
  let w2 := snd (sweep healthy t w1) in
  In l (lists (db w1))
  /\ (forall p, In p (permissions (db w1)) -> permission_listId p <> list_id l)
  /\ ~ In l (lists (db w2))
  /\ (forall i, In i (items (db w2)) -> item_listId i <> list_id l).
Proof.
  intros Hauth Hwho Hin Hl Hsole. cbv zeta.
  destruct (sweep_healthy_db t (snd (delete_user_handler e req w)))
    as [_ Hdb].
  rewrite Hdb. clear Hdb.
  rewrite (delete_user_runs e req w who u Hauth Hwho Hin).
  unfold issued. cbn [snd db].
  set (d1 := without_user (user_id u) (db w)).
  assert (Hnone : forall p, In p (permissions d1) ->
                            permission_listId p <> list_id l).
  { intros p Hp Hid. unfold d1, without_user in Hp. cbn [permissions] in Hp.
    apply filter_In in Hp. destruct Hp as [Hp Hother].
    apply negb_true_iff in Hother.
    rewrite (Hsole p Hp Hid) in Hother.
    assert (Hsame : same_user (Some (user_id u)) (Some (user_id u)) = true)
      by now apply same_user_eq.
    congruence. }
  set (d2 := with_sessions d1
               (filter (fun s => negb (expirationDate s <? t)) (sessions d1))).
  assert (Horphan : orphaned d2 l = true).
  { unfold orphaned. apply negb_true_iff, not_true_iff_false. intros Hm.
    apply mem_id_in, in_map_iff in Hm. destruct Hm as [p [Hid Hp]].
    exact (Hnone p Hp Hid). }
  assert (Hgone : In (list_id l) (map list_id (filter (orphaned d2) (lists d2)))).
  { apply in_map. apply filter_In. split; [exact Hl | exact Horphan]. }
  split; [exact Hl |]. split; [exact Hnone |].
  unfold swept. fold d2. unfold drop_lists. cbn [snd lists items]. split.
  - intros Hin'. apply filter_In in Hin'. destruct Hin' as [_ Hin'].
    rewrite Horphan in Hin'. discriminate.
  - intros i Hi Hid. apply filter_In in Hi. destruct Hi as [_ Hi].
    apply negb_true_iff, not_true_iff_false in Hi. apply Hi.
    apply mem_id_in. now rewrite Hid.
Qed.

End Server.

(** * The properties on the sample histories *)

(** The server with the stand-in collaborators and a token lifetime of an
    hour. *)
Definition sample_run (history : list Action) : World :=
  run sample_engine sample_hash sample_encrypt sample_decrypt sample_validate 3600 history.

(** The same server with the validator that lets every key through. *)
Definition lenient_run (history : list Action) : World :=
  run sample_engine sample_hash sample_encrypt sample_decrypt lenient_validate
    3600 history.

Ltac computed := vm_compute; reflexivity.

(** C1, on the orphaned list, with an outage during pass 1: the run ends
    normally, only the first statement was issued, and the failure is on
    the console. *)
Lemma sweep_outage_example :
  fst (sweep (mkOutage false true false) 20 (sample_run orphan_history)) = inr tt
  /\ journal (snd (sweep (mkOutage false true false) 20 (sample_run orphan_history)))
     = journal (sample_run orphan_history) ++ [DELETE_expired_sessions]
  /\ console (snd (sweep (mkOutage false true false) 20 (sample_run orphan_history)))
     = [ConsoleError (Sql ER_SERVER_GONE)].
Proof.
  destruct (sweep_contains_failure (mkOutage false true false) 20
              (sample_run orphan_history)) as [Hok [_ [Hpass1 _]]].
  destruct (Hpass1 eq_refl eq_refl) as [Hj [_ [Hc _]]].
  split; [exact Hok |]. split; [exact Hj | exact Hc].
Defined.

(** C1 as the spec states it fails: pass 1 meets an outage, pass 2 would
    meet none, and yet the statement of pass 2 is not issued; the list
    without permissions is still there after the run. *)
Lemma pass2_skipped_after_pass1_failure :
  pass1_down (mkOutage false true false) = true
  /\ pass2_down (mkOutage false true false) = false
  /\ ~ In DELETE_orphaned_lists
         (journal (snd (sweep (mkOutage false true false) 20
                          (sample_run orphan_history))))
  /\ permissions (db (sample_run orphan_history)) = []
  /\ lists (db (snd (sweep (mkOutage false true false) 20
                       (sample_run orphan_history))))
     = [mkList 1 "Groceries"].
Proof.
  split; [reflexivity |]. split; [reflexivity |].
  split; [| split; computed].
  vm_compute. intros H.
  repeat (destruct H as [H | H]; [discriminate H |]). exact H.
Qed.

(** C5 as the spec states it fails: the run completes without storage
    failure and the item of the orphaned list is gone with the list. *)
Lemma sweep_removes_items_of_orphans :
  fst (sweep healthy 20 (sample_run orphan_history)) = inr tt
  /\ items (db (sample_run orphan_history))
     = [mkItem 1 1 "Apples" None in_progress]
  /\ items (db (snd (sweep healthy 20 (sample_run orphan_history)))) = []
  /\ items (db (snd (sweep healthy 20 (sample_run orphan_history))))
     <> items (db (sample_run orphan_history)).
Proof.
  split; [computed |]. split; [computed |]. split; [computed |].
  vm_compute. discriminate.
Qed.

Lemma shared_permissions :
  permissions (db (sample_run shared_history))
  = [mkPermission 1 (Some 1) 1 owner; mkPermission 2 (Some 1) 2 owner;
     mkPermission 3 (Some 2) 1 read].
Proof. computed. Qed.

Lemma shared_items :
  items (db (sample_run shared_history)) = [mkItem 1 1 "Apples" None in_progress].
Proof. computed. Qed.

Lemma shared_reachable :
  reachable sample_engine sample_hash sample_encrypt sample_decrypt sample_validate 3600
    (db (sample_run shared_history)).
Proof. exists shared_history. unfold sample_run. reflexivity. Defined.

Lemma shared_reachable_lenient :
  reachable sample_engine sample_hash sample_encrypt sample_decrypt
    lenient_validate 3600 (db (sample_run shared_history)).
Proof. exists shared_history. computed. Qed.

Lemma numbered_reachable :
  reachable sample_engine sample_hash sample_encrypt sample_decrypt
    lenient_validate 3600 (db (lenient_run numbered_history)).
Proof. exists numbered_history. unfold lenient_run. reflexivity. Defined.

Lemma numbered_items :
  items (db (lenient_run numbered_history))
  = [mkItem 5 1 "Pears" None in_progress; mkItem 6 2 "Dishes" None in_progress;
     mkItem 3 1 "Apples" None in_progress].
Proof. computed. Qed.

Lemma anonymous_reachable :
  reachable sample_engine sample_hash sample_encrypt sample_decrypt sample_validate 3600
    (db (sample_run anonymous_history)).
Proof. exists anonymous_history. unfold sample_run. reflexivity. Defined.

Lemma anonymous_permissions :
  permissions (db (sample_run anonymous_history)) = [mkPermission 1 None 1 owner].
Proof. computed. Qed.

(** C2, on the list of the anonymous identity and on the shared lists:
    each pair has at most one row, and raising Bob from [read] to [write]
    on list 1 leaves one row for Bob. *)
Lemma permission_unique_example :
  (grants (db (sample_run anonymous_history)) None 1%N <= 1)%nat
  /\ (grants (db (sample_run shared_history)) (Some 2%N) 1%N <= 1)%nat
  /\ grants (db (snd (grant 2 1 (Some "write") (sample_run shared_history))))
       (Some 2) 1 = 1%nat
  /\ db (snd (grant 2 1 (Some "write")
                (snd (grant 2 1 (Some "write") (sample_run shared_history)))))
     = db (snd (grant 2 1 (Some "write") (sample_run shared_history))).
Proof.
  destruct (permission_unique sample_engine sample_hash sample_encrypt sample_decrypt
              sample_validate 3600 (db (sample_run shared_history))
              shared_reachable) as [Hone Hgrant].
  assert (Hok : fst (grant 2 1 (Some "write") (sample_run shared_history))
                = inr tt) by (vm_compute; reflexivity).
  destruct (Hgrant 2 1 "write" write (sample_run shared_history)
              eq_refl eq_refl Hok) as [H1 [_ [_ [_ [_ H2]]]]].
  split.
  { exact (proj1 (permission_unique sample_engine sample_hash sample_encrypt sample_decrypt
                    sample_validate 3600 (db (sample_run anonymous_history))
                    anonymous_reachable) None 1). }
  split; [apply Hone |]. split; [exact H1 | exact H2].
Defined.

(** C3, on the shared lists: after the grant of [write] to Bob the check
    at [write] succeeds and the check at [owner] is denied. *)
Lemma role_check_example :
  requireAtLeast (db (snd (grant 2 1 (Some "write") (sample_run shared_history))))
    (Some 2) 1 write = Granted write
  /\ requireAtLeast (db (snd (grant 2 1 (Some "write") (sample_run shared_history))))
       (Some 2) 1 owner = Denied.
Proof.
  destruct (role_check sample_engine sample_hash sample_decrypt sample_validate)
    as [_ [_ [_ [_ [Hgrant _]]]]].
  destruct (Hgrant 2 1 "write" write (sample_run shared_history) eq_refl
              ltac:(computed)) as [Hsame Hother].
  split; [exact Hsame |]. apply Hother. reflexivity.
Defined.

(** C4, on Ann's session, which expires at 3610: refused at 3610, accepted
    at 10, an hour before. *)
Lemma session_expiry_example :
  authenticate sample_hash sample_decrypt (at_time 3610)
    (request (Some "t") 0 0 0 []) required (sample_run shared_history)
  = (inl Unauthorized, sample_run shared_history)
  /\ authenticate sample_hash sample_decrypt (at_time 10)
       (request (Some "t") 0 0 0 []) required (sample_run shared_history)
     = (inr (mkIdentity (Some 1) (Some 1)), sample_run shared_history).
Proof.
  split.
  - destruct (session_expiry sample_hash sample_decrypt (at_time 3610)
                (request (Some "t") 0 0 0 []) (sample_run shared_history))
      as [Hfound _].
    destruct (Hfound "t" 1 (mkSession 1 1 3610) eq_refl eq_refl
                ltac:(computed)) as [Hexpired _].
    apply Hexpired. vm_compute. discriminate.
  - destruct (session_expiry sample_hash sample_decrypt (at_time 10)
                (request (Some "t") 0 0 0 []) (sample_run shared_history))
      as [Hfound _].
    destruct (Hfound "t" 1 (mkSession 1 1 3610) eq_refl eq_refl
                ltac:(computed)) as [_ [Hlive _]].
    apply Hlive. reflexivity.
Defined.

(** C6, on the shared lists: a second signup as Ann is answered with 409
    and leaves users and sessions as they were. *)
Lemma duplicate_username_example :
  fst (post_user sample_engine sample_hash sample_encrypt sample_validate 3600
         (at_time 20)
         (request None 0 0 0 [("username", "ann"); ("password", "another")])
         (sample_run shared_history))
  = inl (Client (mkClientError 409 "username-taken" "Username already in use."
                   (Some "ann")))
  /\ users (db (snd (post_user sample_engine sample_hash sample_encrypt
                       sample_validate 3600 (at_time 20)
                       (request None 0 0 0
                          [("username", "ann"); ("password", "another")])
                       (sample_run shared_history))))
     = users (db (sample_run shared_history))
  /\ sessions (db (snd (post_user sample_engine sample_hash sample_encrypt
                          sample_validate 3600 (at_time 20)
                          (request None 0 0 0
                             [("username", "ann"); ("password", "another")])
                          (sample_run shared_history))))
     = sessions (db (sample_run shared_history)).
Proof.
  assert (Hdup : exists u, In u (users (db (sample_run shared_history)))
                           /\ username u = "ann").
  { exists (mkUser 1 None None "ann" "salt:secrets" "salt").
    split; [vm_compute; left; reflexivity | reflexivity]. }
  destruct (duplicate_username sample_engine sample_hash sample_encrypt
              sample_validate 3600 (at_time 20)
              (request None 0 0 0 [("username", "ann"); ("password", "another")])
              (sample_run shared_history)
              [("username", "ann"); ("password", "another")] "ann" "another"
              ltac:(computed) eq_refl eq_refl eq_refl Hdup)
    as [_ [Husers [Hsessions [_ Htaken]]]].
  destruct (Htaken eq_refl ltac:(discriminate) ltac:(discriminate)
              eq_refl eq_refl) as [Hfail _].
  split; [exact Hfail |]. split; [exact Husers | exact Hsessions].
Defined.

(** C6 as the spec states it fails on a server in strict SQL mode: Ann's
    username is taken, the signup carries it together with a first name
    of 256 characters, the [INSERT] is refused for the width of
    [firstName] before the unique index is consulted, and the request is
    answered with the internal error, not with 409. *)
Lemma long_value_on_taken_username :
  (exists u, In u (users (db (sample_run shared_history)))
             /\ username u = "ann")
  /\ String.length (sample_encrypt 256) = 256%nat
  /\ strict sample_engine = true
  /\ fst (post_user sample_engine sample_hash sample_encrypt sample_validate 3600
            (at_time 20)
            (request None 0 0 0
               [("firstName", sample_encrypt 256); ("username", "ann");
                ("password", "another")])
            (sample_run shared_history))
     = inl (Sql ER_DATA_TOO_LONG)
  /\ failure_response (Sql ER_DATA_TOO_LONG) = (500, "internal-error").
Proof.
  split.
  { exists (mkUser 1 None None "ann" "salt:secrets" "salt").
    split; [vm_compute; left; reflexivity | reflexivity]. }
  split; [computed |]. split; [reflexivity |]. split; computed.
Qed.

(** C7, on the shared lists: Ann, owner of list 1, grants Bob the role
    [admin]; the request fails with [invalid-role] and changes nothing. *)
Lemma invalid_role_example :
  put_list_user sample_hash sample_decrypt sample_validate (at_time 20)
    (request (Some "t") 1 2 0 [("role", "admin")]) (sample_run shared_history)
  = (inl (invalid_role (Some "admin")), sample_run shared_history)
  /\ failure_response (invalid_role (Some "admin")) = (400, "invalid-role").
Proof.
  assert (Hout : forall s, Some "admin" = Some s ->
                   s <> "owner" /\ s <> "write" /\ s <> "read").
  { intros s Hs. injection Hs as <-. repeat split; discriminate. }
  destruct (invalid_role_rejected sample_hash sample_decrypt sample_validate
              (Some "admin") Hout) as [_ [Hstatus Hhandler]].
  destruct (Hhandler (at_time 20) (request (Some "t") 1 2 0 [("role", "admin")])
              (sample_run shared_history) [("role", "admin")]
              ltac:(computed) eq_refl) as [Hworld Hfail].
  split; [| exact Hstatus].
  rewrite (surjective_pairing
             (put_list_user sample_hash sample_decrypt sample_validate
                (at_time 20) (request (Some "t") 1 2 0 [("role", "admin")])
                (sample_run shared_history))).
  rewrite Hworld.
  rewrite (Hfail (mkIdentity (Some 1) (Some 1)) owner
             ltac:(computed) ltac:(computed)).
  reflexivity.
Defined.

(** C8, on the shared lists: Bob holds nothing on list 2, and Ann's
    revoking Bob there succeeds without a change; no session has the
    id 7, and deleting it affects no row. *)
Lemma revoke_absent_example :
  fst (delete_list_user sample_hash sample_decrypt (at_time 20)
         (request (Some "t") 2 2 0 []) (sample_run shared_history)) = inr tt
  /\ db (snd (delete_list_user sample_hash sample_decrypt (at_time 20)
                (request (Some "t") 2 2 0 []) (sample_run shared_history)))
     = db (sample_run shared_history)
  /\ delete_session (Some 7) (db (sample_run shared_history))
     = inr (mkOk 0 0, db (sample_run shared_history)).
Proof.
  destruct (revoke_and_session_delete_idempotent sample_hash sample_decrypt)
    as [_ [_ [Hrevoke [Hsession _]]]].
  assert (Hnone : forall p, In p (permissions (db (sample_run shared_history))) ->
                    holds (Some 2) 2 p = false).
  { intros p Hp. rewrite shared_permissions in Hp.
    repeat (destruct Hp as [<- | Hp]; [reflexivity |]). destruct Hp. }
  destruct (Hrevoke (at_time 20) (request (Some "t") 2 2 0 [])
              (sample_run shared_history) (mkIdentity (Some 1) (Some 1)) owner
              ltac:(computed) ltac:(computed) Hnone) as [Hok Hdb].
  split; [exact Hok |]. split; [exact Hdb |].
  apply Hsession. computed.
Defined.

(** C9, on the shared lists: item 1 belongs to list 1; asked for under
    list 2, which Ann owns, [GET] and [DELETE] answer [missing-item] and
    nothing changes. *)
Lemma item_scoped_example :
  fst (get_item sample_hash sample_decrypt (at_time 20)
         (request (Some "t") 2 0 1 []) (sample_run shared_history))
  = inl missing_item
  /\ fst (delete_item_handler sample_hash sample_decrypt (at_time 20)
            (request (Some "t") 2 0 1 []) (sample_run shared_history))
     = inl missing_item
  /\ db (snd (delete_item_handler sample_hash sample_decrypt (at_time 20)
                (request (Some "t") 2 0 1 []) (sample_run shared_history)))
     = db (sample_run shared_history).
Proof.
  destruct (item_scoped_to_list sample_engine sample_hash sample_decrypt sample_validate
              (at_time 20) (request (Some "t") 2 0 1 [])
              (sample_run shared_history)) as [_ [_ [_ [_ Habsent]]]].
  assert (Hno : forall i, In i (items (db (sample_run shared_history))) ->
                  item_id i = 1 -> item_listId i <> 2).
  { intros i Hi _. rewrite shared_items in Hi. destruct Hi as [<- | []].
    discriminate. }
  destruct (Habsent Hno) as [_ [_ [Hdb [Hget [Hdel _]]]]].
  split; [exact (Hget (mkIdentity (Some 1) (Some 1)) owner
                   ltac:(computed) ltac:(computed)) |].
  split; [exact (Hdel (mkIdentity (Some 1) (Some 1)) owner
                   ltac:(computed) ltac:(computed)) |].
  exact Hdb.
Defined.

(** C9 as stated fails for the update: item 1 belongs to list 1, the
    request names it under list 2 with a body without keys, the caller is
    authenticated and may write to list 2, and the answer is success, not
    [missing-item]. *)
Lemma put_without_keys_on_foreign_item :
  In (mkItem 1 1 "Apples" None in_progress) (items (db (sample_run shared_history)))
  /\ fst (authenticate sample_hash sample_decrypt (at_time 20)
            (request (Some "t") 2 0 1 []) required (sample_run shared_history))
     = inr (mkIdentity (Some 1) (Some 1))
  /\ requireAtLeast (db (sample_run shared_history)) (Some 1) 2 write
     = Granted owner
  /\ fst (put_item sample_engine sample_hash sample_decrypt sample_validate (at_time 20)
            (request (Some "t") 2 0 1 []) (sample_run shared_history))
     = inr tt
  /\ fst (put_item sample_engine sample_hash sample_decrypt sample_validate (at_time 20)
            (request (Some "t") 2 0 1 []) (sample_run shared_history))
     <> inl missing_item.
Proof.
  split; [vm_compute; left; reflexivity |]. split; [computed |].
  split; [computed |]. split; [computed |]. vm_compute. discriminate.
Qed.

(** C10, on the shared lists, with a body whose only key is unknown to
    the templates: [PUT /list/1] returns success without a statement, and
    [PUT /list/1/item/1] issues its [UPDATE] and fails. *)
Lemma empty_update_example :
  sample_validate [("foo", "x")] [("name", true); ("description", true); ("state", true)]
  = inr []
  /\ put_list sample_engine sample_hash sample_decrypt sample_validate (at_time 20)
       (request (Some "t") 1 0 1 [("foo", "x")]) (sample_run shared_history)
     = (inr tt, sample_run shared_history)
  /\ fst (put_item sample_engine sample_hash sample_decrypt sample_validate (at_time 20)
            (request (Some "t") 1 0 1 [("foo", "x")]) (sample_run shared_history))
     = inl (Sql ER_PARSE_ERROR)
  /\ journal (snd (put_item sample_engine sample_hash sample_decrypt sample_validate (at_time 20)
                     (request (Some "t") 1 0 1 [("foo", "x")])
                     (sample_run shared_history)))
     = journal (sample_run shared_history) ++ [UPDATE_items].
Proof.
  destruct (empty_update sample_engine sample_hash sample_decrypt sample_validate (at_time 20)
              (request (Some "t") 1 0 1 [("foo", "x")])
              (sample_run shared_history)) as [_ [Hlist [_ [Hitem _]]]].
  assert (Hbody : body (request (Some "t") 1 0 1 [("foo", "x")]) <> [])
    by discriminate.
  destruct (Hitem (mkIdentity (Some 1) (Some 1)) owner ltac:(computed)
              ltac:(computed) Hbody ltac:(computed)) as [Hrun _].
  split; [computed |].
  split; [exact (Hlist (mkIdentity (Some 1) (Some 1)) owner ltac:(computed)
                   ltac:(computed) ltac:(computed)) |].
  rewrite Hrun. split; reflexivity.
Defined.

(** * The further properties on the sample history *)

Lemma shared_users :
  users (db (sample_run shared_history))
  = [mkUser 1 None None "ann" "salt:secrets" "salt";
     mkUser 2 None None "bob" "salt:hunter2" "salt"].
Proof. computed. Qed.

Lemma shared_lists :
  lists (db (sample_run shared_history))
  = [mkList 1 "Groceries"; mkList 2 "Chores"].
Proof. computed. Qed.

(** X1, on the items stored under the ids 5, 6 and 3. *)
Lemma primary_keys_example :
  items (db (lenient_run numbered_history))
  = [mkItem 5 1 "Pears" None in_progress; mkItem 6 2 "Dishes" None in_progress;
     mkItem 3 1 "Apples" None in_progress]
  /\ keyed (db (lenient_run numbered_history)).
Proof.
  split; [exact numbered_items |].
  exact (primary_keys sample_engine sample_hash sample_encrypt sample_decrypt
           lenient_validate 3600 (db (lenient_run numbered_history))
           numbered_reachable).
Defined.

(** X2 and X3 on the shared lists. *)

Lemma foreign_keys_example : referenced (db (sample_run shared_history)).
Proof.
  exact (foreign_keys sample_engine sample_hash sample_encrypt sample_decrypt sample_validate
           3600 (db (sample_run shared_history)) shared_reachable).
Defined.

Lemma usernames_unique_example : named (db (sample_run shared_history)).
Proof.
  exact (usernames_unique sample_engine sample_hash sample_encrypt sample_decrypt
           sample_validate 3600 (db (sample_run shared_history))
           shared_reachable).
Defined.




(** X5, on the shared lists: the name of Ann is taken, in capitals
    too. *)
Lemma name_taken_example :
  fst (get_name_taken sample_engine sample_validate [("username", "ANN")]
         (sample_run shared_history)) = inr true.
Proof.
  destruct (name_taken_answer sample_engine sample_validate
              [("username", "ANN")] [("username", "ANN")] "ANN"
              (sample_run shared_history) ltac:(computed) eq_refl)
    as [taken [Hans [Hiff _]]].
  rewrite Hans. apply (f_equal inr). apply Hiff.
  exists (mkUser 1 None None "ann" "salt:secrets" "salt").
  split; [rewrite shared_users; left; reflexivity | computed].
Defined.


(** X7, on the shared lists: Bob reads the profile of a stored user. *)
Lemma profile_of_session_user_example :
  exists u,
    In u (users (db (sample_run shared_history)))
    /\ fst (get_user sample_hash sample_decrypt (at_time 20)
              (request (Some "tt") 0 0 0 []) (sample_run shared_history))
       = inr (mkUserView (user_id u) (firstName u) (lastName u) (username u)).
Proof.
  destruct (profile_of_session_user sample_engine sample_hash sample_encrypt sample_decrypt
              sample_validate 3600 (at_time 20) (request (Some "tt") 0 0 0 [])
              (sample_run shared_history) (mkIdentity (Some 2) (Some 2))
              shared_reachable ltac:(computed)) as [u [Hin [_ [Hview _]]]].
  exists u. split; [exact Hin | exact Hview].
Defined.

Lemma zed_is_new :
  forall n r,
    get "username"
      [("firstName", "Ann"); ("username", "zed"); ("password", "newpass")]
    = Some n ->
    In r (users (db (sample_run shared_history))) ->
    user_id r <> 1 ->
    weight sample_engine (username r) <> weight sample_engine n.
Proof.
  intros n r Hn Hr Hid. injection Hn as <-. rewrite shared_users in Hr.
  destruct Hr as [<- | [<- | []]]; vm_compute; [congruence | discriminate].
Qed.

Lemma newpass_fits :
  forall p,
    get "password"
      [("firstName", "Ann"); ("username", "zed"); ("password", "newpass")]
    = Some p ->
    String.length (sample_hash p (fresh_salt (at_time 20)))
    = key_size sample_engine
    /\ String.length (fresh_salt (at_time 20)) = salt_size sample_engine.
Proof. intros p Hp. injection Hp as <-. split; reflexivity. Qed.

(** X8, on the shared lists, with a validator that lets the key
    [username] through: Ann sets a first name, the username zed and a new
    password. *)
Lemma put_user_effect_example :
  fst (put_user sample_engine sample_hash sample_decrypt lenient_validate
         (at_time 20)
         (request (Some "t") 0 0 0
            [("firstName", "Ann"); ("username", "zed"); ("password", "newpass")])
         (sample_run shared_history)) = inr tt
  /\ users (db (snd (put_user sample_engine sample_hash sample_decrypt
                       lenient_validate (at_time 20)
                       (request (Some "t") 0 0 0
                          [("firstName", "Ann"); ("username", "zed");
                           ("password", "newpass")])
                       (sample_run shared_history))))
     = [mkUser 1 (Some "Ann") None "zed" "salt:newpass" "salt";
        mkUser 2 None None "bob" "salt:hunter2" "salt"].
Proof.
  assert (Hin : In (mkUser 1 None None "ann" "salt:secrets" "salt")
                  (users (db (sample_run shared_history))))
    by (rewrite shared_users; left; reflexivity).
  pose proof (put_user_effect sample_engine sample_hash sample_encrypt
                sample_decrypt lenient_validate 3600 (at_time 20)
                (request (Some "t") 0 0 0
                   [("firstName", "Ann"); ("username", "zed");
                    ("password", "newpass")])
                (sample_run shared_history) (mkIdentity (Some 1) (Some 1))
                (mkUser 1 None None "ann" "salt:secrets" "salt")
                [("firstName", "Ann"); ("username", "zed");
                 ("password", "newpass")]
                shared_reachable_lenient ltac:(computed) eq_refl Hin
                ltac:(computed) ltac:(computed) ltac:(discriminate)
                eq_refl eq_refl eq_refl newpass_fits zed_is_new) as H.
  cbv zeta in H. destruct H as [Hok [Husers _]].
  split; [exact Hok |]. rewrite Husers, shared_users. computed.
Defined.

(** X9, on the shared lists: Bob deletes the account; the row, the
    session and the permission of Bob go, the lists stay. *)
Lemma delete_user_cascade_example :
  users (db (snd (delete_user_handler sample_hash sample_decrypt (at_time 20)
                    (request (Some "tt") 0 0 0 [])
                    (sample_run shared_history))))
  = [mkUser 1 None None "ann" "salt:secrets" "salt"]
  /\ permissions (db (snd (delete_user_handler sample_hash sample_decrypt
                             (at_time 20) (request (Some "tt") 0 0 0 [])
                             (sample_run shared_history))))
     = [mkPermission 1 (Some 1) 1 owner; mkPermission 2 (Some 1) 2 owner]
  /\ lists (db (snd (delete_user_handler sample_hash sample_decrypt (at_time 20)
                       (request (Some "tt") 0 0 0 [])
                       (sample_run shared_history))))
     = lists (db (sample_run shared_history)).
Proof.
  assert (Hin : In (mkUser 2 None None "bob" "salt:hunter2" "salt")
                  (users (db (sample_run shared_history))))
    by (rewrite shared_users; right; left; reflexivity).
  pose proof (delete_user_cascade sample_hash sample_decrypt (at_time 20)
                (request (Some "tt") 0 0 0 []) (sample_run shared_history)
                (mkIdentity (Some 2) (Some 2))
                (mkUser 2 None None "bob" "salt:hunter2" "salt")
                ltac:(computed) eq_refl Hin) as H.
  cbv zeta in H. destruct H as [_ [Husers [_ [Hperms [Hlists _]]]]].
  split; [rewrite Husers, shared_users; computed |].
  split; [rewrite Hperms, shared_permissions; computed | exact Hlists].
Defined.

(** X10, on the shared lists: Ann logs in at 20 and has the session 3;
    at 30 the token of the answer authenticates as Ann. *)
Lemma login_opens_session_example :
  fst (post_login sample_hash sample_encrypt sample_decrypt 3600 (at_time 20)
         (mkRequest None (Some ("ann", "secrets")) 0 0 0 [])
         (sample_run shared_history))
  = inr ("ttt", 3620)
  /\ fst (authenticate sample_hash sample_decrypt (at_time 30)
            (request (Some "ttt") 0 0 0 []) required
            (snd (post_login sample_hash sample_encrypt sample_decrypt 3600
                    (at_time 20)
                    (mkRequest None (Some ("ann", "secrets")) 0 0 0 [])
                    (sample_run shared_history))))
     = inr (mkIdentity (Some 1) (Some 3)).
Proof.
  pose proof (login_opens_session sample_engine sample_hash sample_encrypt sample_decrypt
                sample_validate 3600 (at_time 20) (at_time 30)
                (mkRequest None (Some ("ann", "secrets")) 0 0 0 [])
                (request (Some "ttt") 0 0 0 [])
                (sample_run shared_history) (mkIdentity (Some 1) None)
                shared_reachable ltac:(computed) ltac:(computed)
                ltac:(computed) ltac:(computed)) as H.
  cbv zeta in H. destruct H as [uid [Hu [Hans [_ Hauth]]]].
  cbn [userId] in Hu. injection Hu as <-.
  split; [rewrite Hans | rewrite Hauth]; computed.
Defined.

(** X11, on the shared lists: Ann logs out at 20; the session of Bob
    stays, and at 30 the token of Ann is refused. *)
Lemma logout_closes_session_example :
  sessions (db (snd (post_logout sample_hash sample_decrypt (at_time 20)
                       (request (Some "t") 0 0 0 [])
                       (sample_run shared_history))))
  = [mkSession 2 2 3611]
  /\ fst (authenticate sample_hash sample_decrypt (at_time 30)
            (request (Some "t") 0 0 0 []) required
            (snd (post_logout sample_hash sample_decrypt (at_time 20)
                    (request (Some "t") 0 0 0 [])
                    (sample_run shared_history))))
     = inl Unauthorized.
Proof.
  pose proof (logout_closes_session sample_hash sample_decrypt (at_time 20)
                (at_time 30) (request (Some "t") 0 0 0 [])
                (sample_run shared_history) (mkIdentity (Some 1) (Some 1)) 1
                ltac:(computed) eq_refl) as H.
  cbv zeta in H. destruct H as [_ [Hsessions [_ [_ [_ [_ Hrefused]]]]]].
  split; [rewrite Hsessions; computed | exact Hrefused].
Defined.

(** X12, on the shared lists: Bob sees the list 1, on which Bob has the
    [read] row, and not the list 2. *)
Lemma lists_of_caller_example :
  exists answer,
    fst (get_lists sample_hash sample_decrypt (at_time 20)
           (request (Some "tt") 0 0 0 []) (sample_run shared_history))
    = inr answer
    /\ In (mkList 1 "Groceries") answer
    /\ ~ In (mkList 2 "Chores") answer.
Proof.
  destruct (lists_of_caller sample_hash sample_decrypt (at_time 20)
              (request (Some "tt") 0 0 0 []) (sample_run shared_history)
              (mkIdentity (Some 2) (Some 2)) ltac:(computed))
    as [answer [Hans [Hrows _]]].
  exists answer. split; [exact Hans |]. split.
  - apply Hrows. split; [rewrite shared_lists; left; reflexivity |].
    exists (mkPermission 3 (Some 2) 1 read).
    split; [rewrite shared_permissions; right; right; left; reflexivity |].
    split; reflexivity.
  - intros Hin. apply Hrows in Hin. destruct Hin as [_ [p [Hp [Hu Hl]]]].
    rewrite shared_permissions in Hp.
    destruct Hp as [<- | [<- | [<- | []]]]; cbn in Hu, Hl; discriminate.
Defined.



(** X14, on the shared lists: Ann renames the list 1 and reads it. *)
Lemma rename_list_example :
  lists (db (snd (put_list sample_engine sample_hash sample_decrypt sample_validate
                    (at_time 20) (request (Some "t") 1 0 0 [("name", "Food")])
                    (sample_run shared_history))))
  = [mkList 1 "Food"; mkList 2 "Chores"]
  /\ fst (get_list sample_hash sample_decrypt (at_time 30)
            (request (Some "t") 1 0 0 [])
            (snd (put_list sample_engine sample_hash sample_decrypt sample_validate
                    (at_time 20) (request (Some "t") 1 0 0 [("name", "Food")])
                    (sample_run shared_history))))
     = inr (mkList 1 "Food").
Proof.
  pose proof (rename_list sample_engine sample_hash sample_encrypt sample_decrypt
                sample_validate 3600 (at_time 20) (at_time 30)
                (request (Some "t") 1 0 0 [("name", "Food")])
                (request (Some "t") 1 0 0 [])
                (sample_run shared_history) (mkIdentity (Some 1) (Some 1))
                (mkIdentity (Some 1) (Some 1)) owner [("name", "Food")] "Food"
                shared_reachable ltac:(computed) ltac:(computed)
                ltac:(computed) ltac:(computed) eq_refl eq_refl) as H.
  cbv zeta in H. destruct H as [_ [Hlists [_ [_ [_ [_ Hread]]]]]].
  split; [rewrite Hlists, shared_lists; computed |].
  exact (Hread ltac:(computed) eq_refl eq_refl).
Defined.

(** X15, on the shared lists: Ann deletes the list 1; its item and its
    two permission rows go with it, and Bob has no role on it. *)
Lemma delete_list_cascade_example :
  lists (db (snd (delete_list_handler sample_hash sample_decrypt (at_time 20)
                    (request (Some "t") 1 0 0 [])
                    (sample_run shared_history))))
  = [mkList 2 "Chores"]
  /\ items (db (snd (delete_list_handler sample_hash sample_decrypt (at_time 20)
                       (request (Some "t") 1 0 0 [])
                       (sample_run shared_history))))
     = []
  /\ requireAtLeast
       (db (snd (delete_list_handler sample_hash sample_decrypt (at_time 20)
                   (request (Some "t") 1 0 0 [])
                   (sample_run shared_history))))
       (Some 2) 1 read
     = Denied.
Proof.
  pose proof (delete_list_cascade sample_engine sample_hash sample_encrypt sample_decrypt
                sample_validate 3600 (at_time 20) (request (Some "t") 1 0 0 [])
                (sample_run shared_history) (mkIdentity (Some 1) (Some 1))
                owner shared_reachable ltac:(computed) ltac:(computed)) as H.
  cbv zeta in H. destruct H as [_ [Hlists [Hitems [_ [_ [_ Hdenied]]]]]].
  split; [rewrite Hlists, shared_lists; computed |].
  split; [rewrite Hitems, shared_items; computed |].
  exact (Hdenied (Some 2) read).
Defined.

(** X16, on the shared lists: the users of the list 1 as Ann reads them;
    Bob has [read], the anonymous identity has no entry. *)
Lemma roles_of_list_example :
  exists answer,
    fst (get_list_users sample_hash sample_decrypt (at_time 20)
           (request (Some "t") 1 0 0 []) (sample_run shared_history))
    = inr answer
    /\ role_of (Some 2) answer = Some read
    /\ role_of None answer = None.
Proof.
  destruct (roles_of_list sample_engine sample_hash sample_encrypt sample_decrypt
              sample_validate 3600 (at_time 20) (request (Some "t") 1 0 0 [])
              (sample_run shared_history) (mkIdentity (Some 1) (Some 1)) owner
              shared_reachable ltac:(computed) ltac:(computed))
    as [answer [Hans [Hroles _]]].
  exists answer. split; [exact Hans |].
  split; rewrite Hroles; computed.
Defined.

(** X17, on the shared lists: Ann raises Bob to [write] on the list 1,
    and Bob reads that role. *)
Lemma role_read_back_example :
  fst (get_list_user sample_hash sample_decrypt (at_time 30)
         (request (Some "tt") 1 2 0 [])
         (snd (put_list_user sample_hash sample_decrypt sample_validate
                 (at_time 20) (request (Some "t") 1 2 0 [("role", "write")])
                 (sample_run shared_history))))
  = inr (Some write).
Proof.
  exact (role_read_back sample_hash sample_decrypt sample_validate (at_time 20)
           (at_time 30) (request (Some "t") 1 2 0 [("role", "write")])
           (request (Some "tt") 1 2 0 []) (sample_run shared_history)
           (mkIdentity (Some 1) (Some 1)) (mkIdentity (Some 2) (Some 2))
           owner write [("role", "write")] "write" write
           ltac:(computed) ltac:(computed) ltac:(computed) eq_refl eq_refl
           ltac:(computed) ltac:(computed) ltac:(computed) eq_refl eq_refl).
Defined.

(** X18, on the shared lists: Ann revokes Bob on the list 1; the row of
    Bob is gone, the check refuses Bob, and the read of the role of Bob
    answers nothing. *)
Lemma revoked_role_gone_example :
  permissions (db (snd (delete_list_user sample_hash sample_decrypt
                          (at_time 20) (request (Some "t") 1 2 0 [])
                          (sample_run shared_history))))
  = [mkPermission 1 (Some 1) 1 owner; mkPermission 2 (Some 1) 2 owner]
  /\ requireAtLeast
       (db (snd (delete_list_user sample_hash sample_decrypt (at_time 20)
                   (request (Some "t") 1 2 0 []) (sample_run shared_history))))
       (Some 2) 1 read
     = Denied
  /\ fst (get_list_user sample_hash sample_decrypt (at_time 30)
            (request (Some "t") 1 2 0 [])
            (snd (delete_list_user sample_hash sample_decrypt (at_time 20)
                    (request (Some "t") 1 2 0 [])
                    (sample_run shared_history))))
     = inr None.
Proof.
  pose proof (revoked_role_gone sample_hash sample_decrypt (at_time 20)
                (at_time 30) (request (Some "t") 1 2 0 [])
                (request (Some "t") 1 2 0 []) (sample_run shared_history)
                (mkIdentity (Some 1) (Some 1)) (mkIdentity (Some 1) (Some 1))
                owner owner ltac:(computed) ltac:(computed)) as H.
  cbv zeta in H. destruct H as [_ [Hperms [Hdenied Hread]]].
  split; [rewrite Hperms, shared_permissions; computed |].
  split; [exact (Hdenied read) |].
  exact (Hread ltac:(computed) ltac:(computed) eq_refl eq_refl).
Defined.

(** X19, on the items stored as Pears (5, list 1), Dishes (6, list 2)
    and Apples (3, list 1): Ann reads the items of the list 1, Apples
    before Pears and without Dishes. *)
Lemma items_in_order_example :
  items (db (lenient_run numbered_history))
  = [mkItem 5 1 "Pears" None in_progress; mkItem 6 2 "Dishes" None in_progress;
     mkItem 3 1 "Apples" None in_progress]
  /\ fst (get_items sample_hash sample_decrypt (at_time 20)
            (request (Some "t") 1 0 0 []) (lenient_run numbered_history))
     = inr [mkItemView 3 "Apples" None in_progress;
            mkItemView 5 "Pears" None in_progress]
  /\ exists rows,
       fst (get_items sample_hash sample_decrypt (at_time 20)
              (request (Some "t") 1 0 0 []) (lenient_run numbered_history))
       = inr (map item_view rows)
       /\ Permutation rows
            [mkItem 5 1 "Pears" None in_progress;
             mkItem 3 1 "Apples" None in_progress]
       /\ StronglySorted id_order rows.
Proof.
  split; [exact numbered_items |]. split; [computed |].
  destruct (items_in_order sample_hash sample_decrypt (at_time 20)
              (request (Some "t") 1 0 0 []) (lenient_run numbered_history)
              (mkIdentity (Some 1) (Some 1)) owner
              ltac:(computed) ltac:(computed))
    as [rows [Hans [Hperm [Hsorted _]]]].
  exists rows. split; [exact Hans |]. split; [| exact Hsorted].
  rewrite numbered_items in Hperm. exact Hperm.
Defined.



Lemma complete_is_a_state :
  forall s, get "state" [("listId", "2"); ("state", "complete")] = Some s ->
            state_of_string s <> None.
Proof. intros s Hs. injection Hs as <-. discriminate. Qed.

Lemma list_2_is_stored :
  forall v, get "listId" [("listId", "2"); ("state", "complete")] = Some v ->
            exists l, to_id sample_engine v = Some l
                      /\ list_exists (db (sample_run shared_history)) l = true.
Proof. intros v Hv. injection Hv as <-. exists 2. split; computed. Qed.

(** X21, on the shared lists, with a validator that lets the key
    [listId] through: Ann marks the item 1 of the list 1 as complete and
    names the list 2 in the body; the item is then in the list 2, and at
    30 the list 1 has no item 1. *)
Lemma put_item_effect_example :
  items (db (snd (put_item sample_engine sample_hash sample_decrypt
                    lenient_validate (at_time 20)
                    (request (Some "t") 1 0 1
                       [("listId", "2"); ("state", "complete")])
                    (sample_run shared_history))))
  = [mkItem 1 2 "Apples" None complete]
  /\ fst (get_item sample_hash sample_decrypt (at_time 30)
            (request (Some "t") 1 0 1 [("listId", "2"); ("state", "complete")])
            (snd (put_item sample_engine sample_hash sample_decrypt
                    lenient_validate (at_time 20)
                    (request (Some "t") 1 0 1
                       [("listId", "2"); ("state", "complete")])
                    (sample_run shared_history))))
     = inl missing_item.
Proof.
  assert (Hin : In (mkItem 1 1 "Apples" None in_progress)
                  (items (db (sample_run shared_history))))
    by (rewrite shared_items; left; reflexivity).
  pose proof (put_item_effect sample_engine sample_hash sample_encrypt
                sample_decrypt lenient_validate 3600 (at_time 20) (at_time 30)
                (request (Some "t") 1 0 1
                   [("listId", "2"); ("state", "complete")])
                (sample_run shared_history) (mkIdentity (Some 1) (Some 1))
                (mkIdentity (Some 1) (Some 1)) owner
                [("listId", "2"); ("state", "complete")]
                (mkItem 1 1 "Apples" None in_progress)
                shared_reachable_lenient ltac:(computed) ltac:(computed)
                ltac:(discriminate) ltac:(computed) ltac:(computed)
                ltac:(discriminate) complete_is_a_state eq_refl eq_refl
                list_2_is_stored Hin eq_refl eq_refl)
    as H.
  cbv zeta in H. destruct H as [_ [Hitems [_ [_ [_ [_ Hread]]]]]].
  split; [rewrite Hitems, shared_items; computed |].
  rewrite (Hread ltac:(computed) eq_refl). computed.
Defined.


(** X23, on the shared lists: Ann deletes the item 1 of the list 1; the
    same request at 30 finds no item. *)
Lemma delete_item_removes_example :
  fst (delete_item_handler sample_hash sample_decrypt (at_time 20)
         (request (Some "t") 1 0 1 []) (sample_run shared_history)) = inr tt
  /\ items (db (snd (delete_item_handler sample_hash sample_decrypt
                       (at_time 20) (request (Some "t") 1 0 1 [])
                       (sample_run shared_history))))
     = []
  /\ fst (delete_item_handler sample_hash sample_decrypt (at_time 30)
            (request (Some "t") 1 0 1 [])
            (snd (delete_item_handler sample_hash sample_decrypt (at_time 20)
                    (request (Some "t") 1 0 1 [])
                    (sample_run shared_history))))
     = inl missing_item.
Proof.
  assert (Hin : In (mkItem 1 1 "Apples" None in_progress)
                  (items (db (sample_run shared_history))))
    by (rewrite shared_items; left; reflexivity).
  pose proof (delete_item_removes sample_hash sample_decrypt (at_time 20)
                (at_time 30) (request (Some "t") 1 0 1 [])
                (sample_run shared_history) (mkIdentity (Some 1) (Some 1))
                (mkIdentity (Some 1) (Some 1)) owner
                (mkItem 1 1 "Apples" None in_progress)
                ltac:(computed) ltac:(computed) Hin eq_refl eq_refl) as H.
  cbv zeta in H. destruct H as [Hok [Hitems [_ [_ [_ [_ Hagain]]]]]].
  split; [exact Hok |].
  split; [rewrite Hitems, shared_items; computed |].
  exact (proj1 (Hagain ltac:(computed) eq_refl)).
Defined.

(** X24, on the shared lists: the sweep runs at the instant 4000, after
    both sessions have expired, and runs again although the clock shows
    3000: the second run changes and logs nothing. *)
Lemma sweep_again_example :
  db (snd (sweep healthy 3000
             (snd (sweep healthy 4000 (sample_run shared_history)))))
  = db (snd (sweep healthy 4000 (sample_run shared_history)))
  /\ console (snd (sweep healthy 3000
                     (snd (sweep healthy 4000 (sample_run shared_history)))))
     = console (snd (sweep healthy 4000 (sample_run shared_history))).
Proof.
  pose proof (sweep_again 4000 3000 (sample_run shared_history)
                ltac:(discriminate)) as H.
  cbv zeta in H. destruct H as [_ [Hdb [Hconsole _]]].
  split; [exact Hdb | exact Hconsole].
Defined.

(** X25, on the shared lists: an update of the item 1 without a token
    is refused, and the world is as before. *)
Lemma unauthenticated_example :
  serve sample_engine sample_hash sample_encrypt sample_decrypt sample_validate 3600
    PUT_item (at_time 20) (request None 1 0 1 [("name", "Plums")])
    (sample_run shared_history)
  = (Some Unauthorized, sample_run shared_history).
Proof.
  exact (unauthenticated_changes_nothing sample_engine sample_hash sample_encrypt
           sample_decrypt sample_validate 3600 PUT_item (at_time 20)
           (request None 1 0 1 [("name", "Plums")])
           (sample_run shared_history) Unauthorized ltac:(computed)).
Defined.

(** X26, on the shared lists: Bob, who has [read] on the list 1, asks to
    delete it and is refused; the world is as before. *)
Lemma denied_example :
  serve sample_engine sample_hash sample_encrypt sample_decrypt sample_validate 3600
    DELETE_list (at_time 20) (request (Some "tt") 1 0 0 [])
    (sample_run shared_history)
  = (Some Forbidden, sample_run shared_history).
Proof.
  exact (denied_changes_nothing sample_engine sample_hash sample_encrypt sample_decrypt
           sample_validate 3600 DELETE_list owner (at_time 20)
           (request (Some "tt") 1 0 0 []) (sample_run shared_history)
           (mkIdentity (Some 2) (Some 2)) eq_refl ltac:(computed)
           ltac:(computed)).
Defined.

(** X27, on the shared lists: Ann logs out at 20, logs in again at 25,
    the sweep runs at 30; at 40 the old token is still refused. *)
Lemma logged_out_for_good_example :
  fst (authenticate sample_hash sample_decrypt (at_time 40)
         (request (Some "t") 0 0 0 []) required
         (after sample_engine sample_hash sample_encrypt sample_decrypt sample_validate 3600
            [PostLogin (at_time 25)
               (mkRequest None (Some ("ann", "secrets")) 0 0 0 []);
             Sweep healthy 30]
            (snd (post_logout sample_hash sample_decrypt (at_time 20)
                    (request (Some "t") 0 0 0 [])
                    (sample_run shared_history)))))
  = inl Unauthorized.
Proof.
  exact (logged_out_for_good sample_engine sample_hash sample_encrypt sample_decrypt
           sample_validate 3600 (at_time 20) (at_time 40)
           (request (Some "t") 0 0 0 []) (sample_run shared_history)
           (mkIdentity (Some 1) (Some 1)) 1
           [PostLogin (at_time 25)
              (mkRequest None (Some ("ann", "secrets")) 0 0 0 []);
            Sweep healthy 30]
           shared_reachable ltac:(computed) eq_refl).
Defined.

Lemma second_login_reachable :
  reachable sample_engine sample_hash sample_encrypt sample_decrypt
    sample_validate 3600
    (db (sample_run
           (shared_history
              ++ [PostLogin (at_time 16)
                    (mkRequest None (Some ("bob", "hunter2")) 0 0 0 [])]))).
Proof.
  exists (shared_history
            ++ [PostLogin (at_time 16)
                  (mkRequest None (Some ("bob", "hunter2")) 0 0 0 [])]).
  unfold sample_run. reflexivity.
Defined.

Lemma second_login_sessions :
  sessions (db (sample_run
                  (shared_history
                     ++ [PostLogin (at_time 16)
                           (mkRequest None (Some ("bob", "hunter2")) 0 0 0 [])])))
  = [mkSession 1 1 3610; mkSession 2 2 3611; mkSession 3 2 3616].
Proof. computed. Qed.

Lemma second_login_users :
  users (db (sample_run
               (shared_history
                  ++ [PostLogin (at_time 16)
                        (mkRequest None (Some ("bob", "hunter2")) 0 0 0 [])])))
  = [mkUser 1 None None "ann" "salt:secrets" "salt";
     mkUser 2 None None "bob" "salt:hunter2" "salt"].
Proof. computed. Qed.

(** X28, on the shared lists after a second login of Bob, who then has
    the sessions 2 and 3: Bob deletes the account at 20 with the token of
    the session 2 and signs up again at 25 under the same name; at 40,
    after a run of the sweep, the token of the session 3 is refused. *)
Lemma deleted_for_good_example :
  fst (authenticate sample_hash sample_decrypt (at_time 40)
         (request (Some "ttt") 0 0 0 []) required
         (after sample_engine sample_hash sample_encrypt sample_decrypt
            sample_validate 3600
            [PostUser (at_time 25)
               (request None 0 0 0
                  [("username", "bob"); ("password", "hunter2")]);
             Sweep healthy 30]
            (snd (delete_user_handler sample_hash sample_decrypt (at_time 20)
                    (request (Some "tt") 0 0 0 [])
                    (sample_run
                       (shared_history
                          ++ [PostLogin (at_time 16)
                                (mkRequest None (Some ("bob", "hunter2")) 0 0 0
                                   [])]))))))
  = inl Unauthorized.
Proof.
  assert (Hin : In (mkUser 2 None None "bob" "salt:hunter2" "salt")
                  (users (db (sample_run
                                (shared_history
                                   ++ [PostLogin (at_time 16)
                                         (mkRequest None
                                            (Some ("bob", "hunter2")) 0 0 0
                                            [])])))))
    by (rewrite second_login_users; right; left; reflexivity).
  assert (Hs : In (mkSession 3 2 3616)
                 (sessions (db (sample_run
                                  (shared_history
                                     ++ [PostLogin (at_time 16)
                                           (mkRequest None
                                              (Some ("bob", "hunter2")) 0 0 0
                                              [])])))))
    by (rewrite second_login_sessions; right; right; left; reflexivity).
  pose proof (deleted_for_good sample_engine sample_hash sample_encrypt
                sample_decrypt sample_validate 3600 (at_time 20) (at_time 40)
                (request (Some "tt") 0 0 0 [])
                (request (Some "ttt") 0 0 0 [])
                (sample_run
                   (shared_history
                      ++ [PostLogin (at_time 16)
                            (mkRequest None (Some ("bob", "hunter2")) 0 0 0
                               [])]))
                (mkIdentity (Some 2) (Some 2))
                (mkUser 2 None None "bob" "salt:hunter2" "salt")
                (mkSession 3 2 3616) "ttt"
                [PostUser (at_time 25)
                   (request None 0 0 0
                      [("username", "bob"); ("password", "hunter2")]);
                 Sweep healthy 30]
                second_login_reachable ltac:(computed) eq_refl Hin Hs eq_refl
                eq_refl eq_refl) as H.
  cbv zeta in H. destruct H as [_ [Hrefused _]]. exact Hrefused.
Defined.

Lemma chores_are_of_ann :
  forall p, In p (permissions (db (sample_run shared_history))) ->
            permission_listId p = list_id (mkList 2 "Chores") ->
            permission_userId p
            = Some (user_id (mkUser 1 None None "ann" "salt:secrets" "salt")).
Proof.
  intros p Hp Hl. rewrite shared_permissions in Hp.
  destruct Hp as [<- | [<- | [<- | []]]]; try discriminate; reflexivity.
Qed.

(** X29, on the shared lists: Ann deletes the account at 20; the list 2,
    on which only Ann had a row, is still stored, and the sweep at 30
    removes it. *)
Lemma deleted_owner_lists_example :
  In (mkList 2 "Chores")
    (lists (db (snd (delete_user_handler sample_hash sample_decrypt
                       (at_time 20) (request (Some "t") 0 0 0 [])
                       (sample_run shared_history)))))
  /\ ~ In (mkList 2 "Chores")
         (lists (db (snd (sweep healthy 30
                            (snd (delete_user_handler sample_hash
                                    sample_decrypt (at_time 20)
                                    (request (Some "t") 0 0 0 [])
                                    (sample_run shared_history))))))).
Proof.
  assert (Hin : In (mkUser 1 None None "ann" "salt:secrets" "salt")
                  (users (db (sample_run shared_history))))
    by (rewrite shared_users; left; reflexivity).
  assert (Hl : In (mkList 2 "Chores") (lists (db (sample_run shared_history))))
    by (rewrite shared_lists; right; left; reflexivity).
  pose proof (lists_of_deleted_owner_swept sample_hash sample_decrypt
                (at_time 20) (request (Some "t") 0 0 0 [])
                (sample_run shared_history) (mkIdentity (Some 1) (Some 1))
                (mkUser 1 None None "ann" "salt:secrets" "salt") 30
                (mkList 2 "Chores") ltac:(computed) eq_refl Hin Hl
                chores_are_of_ann) as H.
  cbv zeta in H. destruct H as [Hstays [_ [Hswept _]]].
  split; [exact Hstays | exact Hswept].
Defined.

(** X30, on the shared lists: Ann grants [read] on the list 1 to the
    user 9, who does not exist. *)
Lemma grant_to_unknown_user_example :
  fst (put_list_user sample_hash sample_decrypt sample_validate (at_time 20)
         (request (Some "t") 1 9 0 [("role", "read")])
         (sample_run shared_history))
  = inl (Sql ER_NO_REFERENCED_ROW)
  /\ db (snd (put_list_user sample_hash sample_decrypt sample_validate
                (at_time 20) (request (Some "t") 1 9 0 [("role", "read")])
                (sample_run shared_history)))
     = db (sample_run shared_history).
Proof.
  destruct (grant_to_unknown_user sample_engine sample_hash sample_encrypt sample_decrypt
              sample_validate 3600 (at_time 20)
              (request (Some "t") 1 9 0 [("role", "read")])
              (sample_run shared_history) (mkIdentity (Some 1) (Some 1)) owner
              [("role", "read")] "read" read
              shared_reachable ltac:(computed) ltac:(computed) ltac:(computed)
              eq_refl eq_refl ltac:(computed)) as [Hfail [Hdb _]].
  split; [exact Hfail | exact Hdb].
Defined.
